(** * Social Growth Suite: the background execution core

    A shallow embedding of the four collaborating services of the
    repository (RedisService, the rate-limiting middleware,
    NotificationService and SchedulerService with the platform adapter it
    drives), and the properties of the written specification that can be
    settled on them.

    Every service method is an [async] function whose observable behaviour
    is the sequence of round trips it makes to PostgreSQL, to Redis, to
    the social platforms and to the console.  A method is therefore
    embedded as a program tree [prog]: a leaf returns or throws, a node
    issues one command and continues with its outcome.  One interpreter
    runs a tree to completion against a [World]; another runs one command
    at a time, which gives the interleavings of several in-flight calls. *)

From Stdlib Require Import ZArith String Ascii List Lia Bool.
From stdpp Require Import base gmap strings list sorting.

Open Scope Z_scope.

(** ** JavaScript values used by the services

    Strings are byte strings (UTF-8).  [parseInt] knows the ASCII white
    space only, and numbers are rendered in plain decimal, as JavaScript
    does below 1e21. *)

Module JS.

(** A JavaScript number holding a count: an integer or NaN.  (Counts stay
    far below 2^53, where doubles are exact.) *)
Inductive number :=
| NaN
| Num (z : Z).

Definition add (a b : number) : number :=
  match a, b with
  | Num x, Num y => Num (x + y)
  | _, _ => NaN
  end.

Definition sub (a b : number) : number :=
  match a, b with
  | Num x, Num y => Num (x - y)
  | _, _ => NaN
  end.

(** [a >= b]; any comparison with NaN is false. *)
Definition geb (a b : number) : bool :=
  match a, b with
  | Num x, Num y => y <=? x
  | _, _ => false
  end.

Definition ltb (a b : number) : bool :=
  match a, b with
  | Num x, Num y => x <? y
  | _, _ => false
  end.

Definition code (c : ascii) : Z := Z.of_N (N_of_ascii c).

Definition chr (z : Z) : ascii := ascii_of_N (Z.to_N z).

Definition is_digit (c : ascii) : bool := (48 <=? code c) && (code c <=? 57).

Definition hex_value (c : ascii) : option Z :=
  let n := code c in
  if (48 <=? n) && (n <=? 57) then Some (n - 48)
  else if (97 <=? n) && (n <=? 102) then Some (n - 87)
  else if (65 <=? n) && (n <=? 70) then Some (n - 55)
  else None.

(** TAB, LF, VT, FF, CR and SPACE. *)
Definition is_space (c : ascii) : bool :=
  let n := code c in ((9 <=? n) && (n <=? 13)) || (n =? 32).

Fixpoint skip_spaces (s : string) : string :=
  match s with
  | String c s' => if is_space c then skip_spaces s' else s
  | EmptyString => s
  end.

(** The longest prefix of decimal digits, read left to right on top of
    [acc]; [seen] tells whether a digit has been read. *)
Fixpoint read_decimal (s : string) (seen : bool) (acc : Z) : option Z :=
  match s with
  | String c s' =>
      if is_digit c then read_decimal s' true (acc * 10 + (code c - 48))
      else if seen then Some acc else None
  | EmptyString => if seen then Some acc else None
  end.

Fixpoint read_hex (s : string) (seen : bool) (acc : Z) : option Z :=
  match s with
  | String c s' =>
      match hex_value c with
      | Some d => read_hex s' true (acc * 16 + d)
      | None => if seen then Some acc else None
      end
  | EmptyString => if seen then Some acc else None
  end.

(** An optional [0x] or [0X] prefix selects radix 16. *)
Definition read_unsigned (s : string) : option Z :=
  match s with
  | String c1 (String c2 s') =>
      if Ascii.eqb c1 "0" && (Ascii.eqb c2 "x" || Ascii.eqb c2 "X")
      then read_hex s' false 0
      else read_decimal s false 0
  | _ => read_decimal s false 0
  end.

Definition strip_sign (s : string) : bool * string :=
  match s with
  | String c s' =>
      if Ascii.eqb c "-" then (true, s')
      else if Ascii.eqb c "+" then (false, s')
      else (false, s)
  | EmptyString => (false, s)
  end.

(** [parseInt(s)] without a radix: leading white space, an optional sign,
    an optional [0x] prefix, then the longest run of digits; NaN when
    there is none. *)
Definition parseInt (s : string) : number :=
  let (negative, s) := strip_sign (skip_spaces s) in
  match read_unsigned s with
  | Some n => Num (if negative then - n else n)
  | None => NaN
  end.

(** The decimal digits of a non-negative integer, most significant first,
    put in front of [acc]. *)
Fixpoint digits (fuel : nat) (n : Z) (acc : string) : string :=
  let acc' := String (chr (48 + n mod 10)) acc in
  match fuel with
  | O => acc'
  | S fuel' => if n <? 10 then acc' else digits fuel' (n / 10) acc'
  end.

Definition decimal (n : Z) : string := digits (Z.to_nat (Z.log2 n)) n "".

(** [Number.prototype.toString()] on a count. *)
Definition toString (x : number) : string :=
  match x with
  | NaN => "NaN"
  | Num z => if z <? 0 then String "-" (decimal (- z)) else decimal z
  end.

(** Truthiness of [string | null]: null and the empty string are falsy. *)
Definition truthy (s : option string) : bool :=
  match s with
  | Some (String _ _) => true
  | _ => false
  end.

(** [a || b] on strings that may be missing. *)
Definition or_else (a : option string) (b : string) : string :=
  match a with
  | Some (String c s) => String c s
  | _ => b
  end.

(** [Math.ceil(ms / 1000)] on an integer number of milliseconds. *)
Definition ceil_seconds (ms : Z) : Z := (ms + 999) / 1000.

Fixpoint lower (s : string) : string :=
  match s with
  | String c s' =>
      let n := code c in
      String (if (65 <=? n) && (n <=? 90) then chr (n + 32) else c) (lower s')
  | EmptyString => EmptyString
  end.

End JS.

(** ** Time

    One clock for the process and both stores, in milliseconds since the
    epoch ([Date.now()], PostgreSQL's [NOW()] and Redis' expiry clock), in
    UTC. *)

Module Time.

Definition ms_per_second : Z := 1000.
Definition ms_per_day : Z := 86400000.

Definition is_leap (y : Z) : bool :=
  ((y mod 4 =? 0) && negb (y mod 100 =? 0)) || (y mod 400 =? 0).

Definition days_in_month (y m : Z) : Z :=
  if m =? 2 then (if is_leap y then 29 else 28)
  else if (m =? 4) || (m =? 6) || (m =? 9) || (m =? 11) then 30
  else 31.

(** Day number (days since 1970-01-01) of a proleptic Gregorian date. *)
Definition days_from_civil (y m d : Z) : Z :=
  let y := if m <=? 2 then y - 1 else y in
  let era := y / 400 in
  let yoe := y - era * 400 in
  let mp := if 2 <? m then m - 3 else m + 9 in
  let doy := (153 * mp + 2) / 5 + d - 1 in
  let doe := yoe * 365 + yoe / 4 - yoe / 100 + doy in
  era * 146097 + doe - 719468.

Definition civil_from_days (days : Z) : Z * Z * Z :=
  let z := days + 719468 in
  let era := z / 146097 in
  let doe := z - era * 146097 in
  let yoe := (doe - doe / 1460 + doe / 36524 - doe / 146096) / 365 in
  let doy := doe - (365 * yoe + yoe / 4 - yoe / 100) in
  let mp := (5 * doy + 2) / 153 in
  let d := doy - (153 * mp + 2) / 5 + 1 in
  let m := if mp <? 10 then mp + 3 else mp - 9 in
  let y := yoe + era * 400 in
  (if m <=? 2 then y + 1 else y, m, d).

(** PostgreSQL's [INTERVAL] as the clean-up statements write it. *)
Inductive interval :=
| Years (n : Z)
| Months (n : Z)
| Weeks (n : Z).

(** [t - INTERVAL 'n months']: the month field moves, the day of the
    month is clamped to the length of the target month, the time of day is
    kept. *)
Definition minus_months (t n : Z) : Z :=
  let day := t / ms_per_day in
  let tod := t mod ms_per_day in
  let '(y, m, d) := civil_from_days day in
  let total := y * 12 + (m - 1) - n in
  let y' := total / 12 in
  let m' := total mod 12 + 1 in
  let d' := Z.min d (days_in_month y' m') in
  days_from_civil y' m' d' * ms_per_day + tod.

Definition minus (t : Z) (i : interval) : Z :=
  match i with
  | Years n => minus_months t (12 * n)
  | Months n => minus_months t n
  | Weeks n => t - n * 7 * ms_per_day
  end.

(** [CURRENT_DATE]: the day number of an instant. *)
Definition date_of (t : Z) : Z := t / ms_per_day.

(** The seconds, minutes and hours fields of an instant, as a cron
    pattern reads them. *)
Definition second_of (t : Z) : Z := (t / 1000) mod 60.
Definition minute_of (t : Z) : Z := (t / 60000) mod 60.
Definition hour_of (t : Z) : Z := (t / 3600000) mod 24.

End Time.

(** ** Data model: the rows the services read and write *)

Inductive PostStatus :=
| Pending
| Published
| Failed
| Cancelled.

Inductive NotificationType :=
| post_published
| post_failed
| high_engagement
| low_engagement
| account_disconnected
| growth_milestone
| negative_sentiment
| system_alert.

#[global] Instance PostStatus_eq_dec : EqDecision PostStatus.
Proof. solve_decision. Defined.

#[global] Instance NotificationType_eq_dec : EqDecision NotificationType.
Proof. solve_decision. Defined.

(** [scheduled_posts]; the primary key [id] is the key of the table. *)
Record PostRow := {
  post_user_id : Z;
  post_account_id : Z;
  content : string;
  media_urls : list string;
  scheduled_time : Z;
  status : PostStatus;
  error_message : option string;
  posted_at : option Z;
  post_created_at : Z
}.

(** [social_accounts]; [account_data] is the JSON document as text. *)
Record AccountRow := {
  account_user_id : Z;
  platform : string;
  account_name : string;
  access_token : option string;
  account_data : option string;
  is_active : bool;
}.

(** A row of the dispatch query: [sp.*, sa.platform, sa.access_token,
    sa.account_data]. *)
Record JoinedPost := {
  jp_id : Z;
  jp_post : PostRow;
  jp_platform : string;
  jp_access_token : option string;
  jp_account_data : option string
}.

Record AnalyticsRow := {
  metric_account_id : Z;
  metric_type : string;
  metric_value : Z;
  metric_date : Z;
  metric_created_at : Z
}.

Record ConversationRow := {
  conv_account_id : Z;
  user_handle : string;
  conv_message : string;
  conv_created_at : Z
}.

(** [notifications], in insertion order (increasing serial [id]);
    [data] is the JSON text handed to the INSERT. *)
Record NotificationRow := {
  notif_user_id : Z;
  notif_type : NotificationType;
  notif_title : string;
  notif_message : string;
  notif_data : string;
  is_read : bool;
  notif_created_at : Z
}.

(** [notification_rules]; [enabled] is a nullable boolean. *)
Record RuleRow := {
  rule_user_id : Z;
  rule_type : NotificationType;
  enabled : option bool
}.

(** The argument of [createNotification]:
    [Omit<Notification, 'id' | 'createdAt'>]. *)
Record Notification := {
  userId : Z;
  type : NotificationType;
  title : string;
  message : string;
  data : option string;
  isRead : bool
}.

(** A member of the per-user Redis set: the object
    [{type, title, message, data, timestamp}] that [createNotification]
    serialises.  [JSON.stringify] is injective on these objects, so the
    member is kept as the record and compared structurally. *)
Record RealtimeEntry := {
  rt_type : NotificationType;
  rt_title : string;
  rt_message : string;
  rt_data : option string;
  rt_timestamp : Z
}.

#[global] Instance RealtimeEntry_eq_dec : EqDecision RealtimeEntry.
Proof. solve_decision. Defined.

(** [AnalyticsMetric] of the platform adapter. *)
Record Metric := {
  m_type : string;
  m_value : Z
}.

(** The platform endpoints the adapter posts to. *)
Inductive Endpoint :=
| TwitterTweets
| FacebookFeed
| InstagramMedia
| InstagramMediaPublish
| LinkedInUgcPosts.

(** ** Commands, outcomes and program trees *)

Inductive result (A : Type) :=
| Ok (a : A)
| Raise (e : string).

Arguments Ok {A} a.
Arguments Raise {A} e.

(** One round trip (or one local effect) of a service method. *)
Inductive cmd :=
| DateNow
| ConsoleLog (line : string)
| ConsoleError (line : string)
| RedisGET (key : string)
| RedisSET (key value : string)
| RedisSETEX (key : string) (seconds : Z) (value : string)
| RedisSADD (key : string) (member : RealtimeEntry)
| RedisSMEMBERS (key : string)
| RedisSREM (key : string) (member : RealtimeEntry)
| SqlSelectDuePosts
| SqlMarkPublished (id : Z)
| SqlMarkFailed (id : Z)
| SqlSelectActiveAccounts
| SqlUpsertMetric (account_id : Z) (ty : string) (value : Z)
| SqlDeleteOldAnalytics
| SqlDeleteOldConversations
| SqlDeleteOldFailedPosts
| SqlSelectRuleEnabled (user_id : Z) (ty : NotificationType)
| SqlInsertNotification (user_id : Z) (ty : NotificationType)
    (title message data : string)
| HttpPost (endpoint : Endpoint) (post : JoinedPost)
| HttpGetMetrics (account : AccountRow).

(** What a command answers when it does not raise. *)
Definition answer (c : cmd) : Type :=
  match c with
  | DateNow => Z
  | RedisGET _ => option string
  | RedisSMEMBERS _ => list RealtimeEntry
  | SqlSelectDuePosts => list JoinedPost
  | SqlSelectActiveAccounts => list (Z * AccountRow)
  | SqlSelectRuleEnabled _ _ => list (option bool)
  | HttpGetMetrics _ => list Metric
  | _ => unit
  end.

(** An [async] function body: it returns, throws, or issues a command and
    continues with what the command answered or raised. *)
Inductive prog (A : Type) :=
| Ret (a : A)
| Throw (e : string)
| Do (c : cmd) (k : result (answer c) -> prog A).

Arguments Ret {A} a.
Arguments Throw {A} e.
Arguments Do {A} c k.

Fixpoint bind {A B} (p : prog A) (f : A -> prog B) : prog B :=
  match p with
  | Ret a => f a
  | Throw e => Throw e
  | Do c k => Do c (fun r => bind (k r) f)
  end.

(** [try { p } catch (e) { h e }]. *)
Fixpoint try_catch {A} (p : prog A) (h : string -> prog A) : prog A :=
  match p with
  | Ret a => Ret a
  | Throw e => h e
  | Do c k => Do c (fun r => try_catch (k r) h)
  end.

(** [await] of one command: a raised error is thrown at the call site. *)
Definition call (c : cmd) : prog (answer c) :=
  Do c (fun r => match r with Ok a => Ret a | Raise e => Throw e end).

#[global] Instance prog_ret : MRet prog := @Ret.
#[global] Instance prog_bind : MBind prog := fun A B f p => bind p f.

(** [for (const x of l) { await body(x) }]. *)
Fixpoint for_each {A} (l : list A) (body : A -> prog unit) : prog unit :=
  match l with
  | [] => Ret tt
  | x :: l' => body x ;; for_each l' body
  end.

(** ** The world the services run against *)

(** The relational store (PostgreSQL). *)
Record Database := {
  scheduled_posts : gmap Z PostRow;
  social_accounts : gmap Z AccountRow;
  analytics_data : list AnalyticsRow;
  chatbot_conversations : list ConversationRow;
  notifications : list NotificationRow;
  notification_rules : list RuleRow
}.

(** The key-value store (Redis): string keys with an optional expiry
    instant, and sets in the order the server enumerates their members. *)
Record Redis := {
  strings : gmap string (string * option Z);
  sets : gmap string (list RealtimeEntry)
}.

(** What the services do not control.  [db_fault n] and [redis_fault n]
    tell whether the command issued as the [n]-th event of the history
    raises (a lost connection, a violated constraint) and with what error
    text; [http_post] and [http_metrics] are the platforms' answers;
    [set_slot m l] is the enumeration order of a Redis set after the new
    member [m] joined the members [l] (hash order, not insertion order). *)
Record Environment := {
  db_fault : nat -> option string;
  redis_fault : nat -> option string;
  http_post : Endpoint -> JoinedPost -> option string;
  http_metrics : AccountRow -> result (list Metric);
  set_slot : RealtimeEntry -> list RealtimeEntry -> list RealtimeEntry
}.

(** A command that was issued, and the error it raised if it did. *)
Record Event := {
  ev_cmd : cmd;
  ev_error : option string
}.

Record World := {
  clock : Z;
  db : Database;
  redis : Redis;
  env : Environment;
  history : list Event
}.

Definition with_clock (t : Z) (w : World) : World :=
  {| clock := t; db := db w; redis := redis w; env := env w;
     history := history w |}.

Definition with_db (d : Database) (w : World) : World :=
  {| clock := clock w; db := d; redis := redis w; env := env w;
     history := history w |}.

Definition with_redis (r : Redis) (w : World) : World :=
  {| clock := clock w; db := db w; redis := r; env := env w;
     history := history w |}.

Definition record_event (c : cmd) (e : option string) (w : World) : World :=
  {| clock := clock w; db := db w; redis := redis w; env := env w;
     history := history w ++ [{| ev_cmd := c; ev_error := e |}] |}.

Definition with_posts (t : gmap Z PostRow) (d : Database) : Database :=
  {| scheduled_posts := t; social_accounts := social_accounts d;
     analytics_data := analytics_data d;
     chatbot_conversations := chatbot_conversations d;
     notifications := notifications d;
     notification_rules := notification_rules d |}.

Definition with_analytics (t : list AnalyticsRow) (d : Database) : Database :=
  {| scheduled_posts := scheduled_posts d;
     social_accounts := social_accounts d;
     analytics_data := t;
     chatbot_conversations := chatbot_conversations d;
     notifications := notifications d;
     notification_rules := notification_rules d |}.

Definition with_conversations (t : list ConversationRow) (d : Database)
  : Database :=
  {| scheduled_posts := scheduled_posts d;
     social_accounts := social_accounts d;
     analytics_data := analytics_data d;
     chatbot_conversations := t;
     notifications := notifications d;
     notification_rules := notification_rules d |}.

Definition with_notifications (t : list NotificationRow) (d : Database)
  : Database :=
  {| scheduled_posts := scheduled_posts d;
     social_accounts := social_accounts d;
     analytics_data := analytics_data d;
     chatbot_conversations := chatbot_conversations d;
     notifications := t;
     notification_rules := notification_rules d |}.

Definition with_strings (t : gmap string (string * option Z)) (r : Redis)
  : Redis :=
  {| strings := t; sets := sets r |}.

Definition with_sets (t : gmap string (list RealtimeEntry)) (r : Redis)
  : Redis :=
  {| strings := strings r; sets := t |}.

(** *** PostgreSQL statements *)

Module Sql.

Definition join (d : Database) (row : Z * PostRow) : option JoinedPost :=
  match social_accounts d !! post_account_id row.2 with
  | Some a =>
      Some {| jp_id := row.1; jp_post := row.2; jp_platform := platform a;
              jp_access_token := access_token a;
              jp_account_data := account_data a |}
  | None => None
  end.

Definition is_due (now : Z) (jp : JoinedPost) : Prop :=
  status (jp_post jp) = Pending /\ scheduled_time (jp_post jp) <= now.

Definition earlier (a b : JoinedPost) : Prop :=
  scheduled_time (jp_post a) <= scheduled_time (jp_post b).

#[global] Instance is_due_dec now jp : Decision (is_due now jp).
Proof. unfold is_due. apply _. Defined.

#[global] Instance earlier_dec a b : Decision (earlier a b).
Proof. unfold earlier. apply _. Defined.

(** [SELECT sp.*, sa.platform, sa.access_token, sa.account_data
     FROM scheduled_posts sp JOIN social_accounts sa ON sp.account_id = sa.id
     WHERE sp.status = 'pending' AND sp.scheduled_time <= NOW()
     ORDER BY sp.scheduled_time ASC LIMIT 10] *)
Definition select_due_posts (now : Z) (d : Database) : list JoinedPost :=
  take 10
    (merge_sort earlier
       (filter (is_due now) (omap (join d) (map_to_list (scheduled_posts d))))).

(** [UPDATE scheduled_posts SET status = 'published', posted_at = NOW()
     WHERE id = $2] *)
Definition publish_row (now : Z) (p : PostRow) : PostRow :=
  {| post_user_id := post_user_id p; post_account_id := post_account_id p;
     content := content p; media_urls := media_urls p;
     scheduled_time := scheduled_time p; status := Published;
     error_message := error_message p; posted_at := Some now;
     post_created_at := post_created_at p |}.

(** [UPDATE scheduled_posts SET status = 'failed' WHERE id = $2] *)
Definition fail_row (p : PostRow) : PostRow :=
  {| post_user_id := post_user_id p; post_account_id := post_account_id p;
     content := content p; media_urls := media_urls p;
     scheduled_time := scheduled_time p; status := Failed;
     error_message := error_message p; posted_at := posted_at p;
     post_created_at := post_created_at p |}.

(** [SELECT * FROM social_accounts WHERE is_active = true] *)
Definition select_active_accounts (d : Database) : list (Z * AccountRow) :=
  filter (fun row => is_active row.2 = true) (map_to_list (social_accounts d)).

Definition same_metric (acc : Z) (ty : string) (day : Z) (r : AnalyticsRow)
  : bool :=
  bool_decide (metric_account_id r = acc /\ metric_type r = ty
               /\ metric_date r = day).

Definition set_value (v : Z) (r : AnalyticsRow) : AnalyticsRow :=
  {| metric_account_id := metric_account_id r; metric_type := metric_type r;
     metric_value := v; metric_date := metric_date r;
     metric_created_at := metric_created_at r |}.

(** [INSERT INTO analytics_data (account_id, metric_type, metric_value, date)
     VALUES ($1, $2, $3, CURRENT_DATE)
     ON CONFLICT (account_id, metric_type, date)
     DO UPDATE SET metric_value = $3] *)
Definition upsert_metric (now acc : Z) (ty : string) (v : Z)
    (t : list AnalyticsRow) : list AnalyticsRow :=
  let day := Time.date_of now in
  if existsb (same_metric acc ty day) t
  then map (fun r => if same_metric acc ty day r then set_value v r else r) t
  else t ++ [{| metric_account_id := acc; metric_type := ty;
                metric_value := v; metric_date := day;
                metric_created_at := now |}].

(** [DELETE FROM analytics_data
     WHERE created_at < NOW() - INTERVAL '1 year'] *)
Definition delete_old_analytics (now : Z) (t : list AnalyticsRow)
  : list AnalyticsRow :=
  filter (fun r => ~ metric_created_at r < Time.minus now (Time.Years 1)) t.

(** [DELETE FROM chatbot_conversations
     WHERE created_at < NOW() - INTERVAL '6 months'] *)
Definition delete_old_conversations (now : Z) (t : list ConversationRow)
  : list ConversationRow :=
  filter (fun r => ~ conv_created_at r < Time.minus now (Time.Months 6)) t.

(** [DELETE FROM scheduled_posts
     WHERE status = 'failed' AND created_at < NOW() - INTERVAL '1 week'] *)
Definition delete_old_failed_posts (now : Z) (t : gmap Z PostRow)
  : gmap Z PostRow :=
  filter (fun row : Z * PostRow =>
            ~ (status row.2 = Failed
               /\ post_created_at row.2 < Time.minus now (Time.Weeks 1))) t.

(** [SELECT enabled FROM notification_rules
     WHERE user_id = $1 AND type = $2] *)
Definition select_rule_enabled (uid : Z) (ty : NotificationType)
    (t : list RuleRow) : list (option bool) :=
  enabled <$> filter (fun r => rule_user_id r = uid /\ rule_type r = ty) t.

(** [INSERT INTO notifications (user_id, type, title, message, data)
     VALUES ($1, $2, $3, $4, $5)]; [is_read] and [created_at] take their
    column defaults, [false] and [CURRENT_TIMESTAMP]. *)
Definition insert_notification (now uid : Z) (ty : NotificationType)
    (ttl msg dat : string) (t : list NotificationRow) : list NotificationRow :=
  t ++ [{| notif_user_id := uid; notif_type := ty; notif_title := ttl;
           notif_message := msg; notif_data := dat; is_read := false;
           notif_created_at := now |}].

End Sql.

(** *** Redis commands *)

Module Store.

(** A key with an expiry instant is gone once the clock has passed it. *)
Definition expired (now : Z) (expiry : option Z) : bool :=
  match expiry with
  | Some t => t <? now
  | None => false
  end.

Definition GET (now : Z) (k : string) (r : Redis) : option string :=
  match strings r !! k with
  | Some (v, expiry) => if expired now expiry then None else Some v
  | None => None
  end.

Definition SET (k v : string) (r : Redis) : Redis :=
  with_strings (<[k := (v, None)]> (strings r)) r.

Definition SETEX (now : Z) (k : string) (seconds : Z) (v : string) (r : Redis)
  : Redis :=
  with_strings (<[k := (v, Some (now + seconds * Time.ms_per_second))]>
                  (strings r)) r.

Definition SMEMBERS (k : string) (r : Redis) : list RealtimeEntry :=
  default [] (sets r !! k).

Definition SADD (slot : RealtimeEntry -> list RealtimeEntry -> list RealtimeEntry)
    (k : string) (m : RealtimeEntry) (r : Redis) : Redis :=
  let members := SMEMBERS k r in
  if bool_decide (m ∈ members) then r
  else with_sets (<[k := slot m members]> (sets r)) r.

Definition SREM (k : string) (m : RealtimeEntry) (r : Redis) : Redis :=
  with_sets (<[k := filter (fun x => x <> m) (SMEMBERS k r)]> (sets r)) r.

End Store.

(** *** Executing one command *)

Inductive service :=
| Local
| Postgres
| RedisServer
| Platform.

Definition service_of (c : cmd) : service :=
  match c with
  | DateNow | ConsoleLog _ | ConsoleError _ => Local
  | RedisGET _ | RedisSET _ _ | RedisSETEX _ _ _ | RedisSADD _ _
  | RedisSMEMBERS _ | RedisSREM _ _ => RedisServer
  | HttpPost _ _ | HttpGetMetrics _ => Platform
  | _ => Postgres
  end.

(** The fault, if any, that the environment injects into the next
    command. *)
Definition fault_of (c : cmd) (w : World) : option string :=
  match service_of c with
  | Postgres => db_fault (env w) (length (history w))
  | RedisServer => redis_fault (env w) (length (history w))
  | _ => None
  end.

Definition on_db (f : Database -> Database) (w : World) : World :=
  with_db (f (db w)) w.

Definition on_redis (f : Redis -> Redis) (w : World) : World :=
  with_redis (f (redis w)) w.

(** The effect and the answer of a command that the environment lets
    through. *)
Definition perform (c : cmd) (w : World) : result (answer c) * World :=
  match c as c0 return result (answer c0) * World with
  | DateNow => (Ok (clock w), w)
  | ConsoleLog _ => (Ok tt, w)
  | ConsoleError _ => (Ok tt, w)
  | RedisGET k => (Ok (Store.GET (clock w) k (redis w)), w)
  | RedisSET k v => (Ok tt, on_redis (Store.SET k v) w)
  | RedisSETEX k s v =>
      if s <=? 0 then (Raise "ERR invalid expire time in 'setex' command", w)
      else (Ok tt, on_redis (Store.SETEX (clock w) k s v) w)
  | RedisSADD k m => (Ok tt, on_redis (Store.SADD (set_slot (env w)) k m) w)
  | RedisSMEMBERS k => (Ok (Store.SMEMBERS k (redis w)), w)
  | RedisSREM k m => (Ok tt, on_redis (Store.SREM k m) w)
  | SqlSelectDuePosts => (Ok (Sql.select_due_posts (clock w) (db w)), w)
  | SqlMarkPublished id =>
      (Ok tt, on_db (fun d => with_posts
           (alter (Sql.publish_row (clock w)) id (scheduled_posts d)) d) w)
  | SqlMarkFailed id =>
      (Ok tt, on_db (fun d => with_posts
           (alter Sql.fail_row id (scheduled_posts d)) d) w)
  | SqlSelectActiveAccounts => (Ok (Sql.select_active_accounts (db w)), w)
  | SqlUpsertMetric acc ty v =>
      (Ok tt, on_db (fun d => with_analytics
           (Sql.upsert_metric (clock w) acc ty v (analytics_data d)) d) w)
  | SqlDeleteOldAnalytics =>
      (Ok tt, on_db (fun d => with_analytics
           (Sql.delete_old_analytics (clock w) (analytics_data d)) d) w)
  | SqlDeleteOldConversations =>
      (Ok tt, on_db (fun d => with_conversations
           (Sql.delete_old_conversations (clock w) (chatbot_conversations d))
           d) w)
  | SqlDeleteOldFailedPosts =>
      (Ok tt, on_db (fun d => with_posts
           (Sql.delete_old_failed_posts (clock w) (scheduled_posts d)) d) w)
  | SqlSelectRuleEnabled uid ty =>
      (Ok (Sql.select_rule_enabled uid ty (notification_rules (db w))), w)
  | SqlInsertNotification uid ty ttl msg dat =>
      (Ok tt, on_db (fun d => with_notifications
           (Sql.insert_notification (clock w) uid ty ttl msg dat
              (notifications d)) d) w)
  | HttpPost ep jp =>
      match http_post (env w) ep jp with
      | Some e => (Raise e, w)
      | None => (Ok tt, w)
      end
  | HttpGetMetrics a => (http_metrics (env w) a, w)
  end.

Definition error_of {A} (r : result A) : option string :=
  match r with
  | Ok _ => None
  | Raise e => Some e
  end.

(** One command against the world: the environment may make it raise, and
    then it has no effect; otherwise it takes effect; either way it enters
    the history.  A command is one atomic step of the store it goes to. *)
Definition exec (c : cmd) (w : World) : result (answer c) * World :=
  match fault_of c w with
  | Some e => (Raise e, record_event c (Some e) w)
  | None =>
      let (r, w') := perform c w in (r, record_event c (error_of r) w')
  end.

(** A call that runs to completion with no other call in between.  The
    clock stands still during a run; it is moved between runs. *)
Fixpoint run {A} (p : prog A) (w : World) : result A * World :=
  match p with
  | Ret a => (Ok a, w)
  | Throw e => (Raise e, w)
  | Do c k => let (r, w') := exec c w in run (k r) w'
  end.

(** A call that advances by one command and then yields. *)
Definition step {A} (p : prog A) (w : World) : prog A * World :=
  match p with
  | Do c k => let (r, w') := exec c w in (k r, w')
  | _ => (p, w)
  end.

Definition settled {A} (p : prog A) : bool :=
  match p with
  | Do _ _ => false
  | _ => true
  end.

(** ** RedisService (src/services/RedisService.ts) *)

Module RedisService.

(** [expireInSeconds] is optional; [0] is falsy like [undefined]. *)
Definition set (key value : string) (expireInSeconds : option Z) : prog unit :=
  match expireInSeconds with
  | Some s => if s =? 0 then call (RedisSET key value)
              else call (RedisSETEX key s value)
  | None => call (RedisSET key value)
  end.

Definition get (key : string) : prog (option string) := call (RedisGET key).

Definition addToSet (key : string) (value : RealtimeEntry) : prog unit :=
  call (RedisSADD key value).

Definition getSet (key : string) : prog (list RealtimeEntry) :=
  call (RedisSMEMBERS key).

Definition removeFromSet (key : string) (value : RealtimeEntry) : prog unit :=
  call (RedisSREM key value).

End RedisService.

(** ** The rate-limiting middleware (src/middleware/rateLimiter.ts) *)

Module RateLimiter.

Record RateLimitOptions := {
  windowMs : Z;
  maxRequests : Z;
  message : option string;
  skipSuccessfulRequests : option bool;
  skipFailedRequests : option bool
}.

(** What the middleware reads of the Express request. *)
Record Request := {
  ip : option string;
  remoteAddress : option string;
  user_id : option Z;
  route_path : option string;
  path : string
}.

(** The [X-RateLimit-*] headers; [x_reset] is the instant that
    [toISOString] renders. *)
Record Headers := {
  x_limit : string;
  x_remaining : string;
  x_reset : Z
}.

(** How the middleware leaves the request: answered with 429, handed to
    [next()] after counting it (with [res.send] wrapped), or handed to
    [next()] from the [catch] branch. *)
Inductive Verdict :=
| Rejected429 (h : Headers) (error : string) (retryAfter : Z)
| NextCounted (h : Headers) (requestsKey : string) (newCount : JS.number)
| NextUnlimited.

Definition allowed (v : Verdict) : bool :=
  match v with
  | Rejected429 _ _ _ => false
  | _ => true
  end.

Definition generateKey (req : Request) : string :=
  let ip := JS.or_else (ip req) (JS.or_else (remoteAddress req) "unknown") in
  let userId :=
    match user_id req with
    | Some id => if id =? 0 then "anonymous" else JS.toString (JS.Num id)
    | None => "anonymous"
    end in
  let route := JS.or_else (route_path req) (path req) in
  ip +:+ ":" +:+ userId +:+ ":" +:+ route.

Definition createRateLimit (options : RateLimitOptions) (req : Request)
  : prog Verdict :=
  let windowMs := windowMs options in
  let maxRequests := maxRequests options in
  let message :=
    default "Too many requests, please try again later." (message options) in
  try_catch
    (let key := generateKey req in
     now ← call DateNow;
     let windowStart := now - windowMs in
     let requestsKey := "rate_limit:" +:+ key in
     requests ← RedisService.get requestsKey;
     let currentRequests :=
       if JS.truthy requests then JS.parseInt (default "" requests)
       else JS.Num 0 in
     if JS.geb currentRequests (JS.Num maxRequests) then
       Ret (Rejected429
              {| x_limit := JS.toString (JS.Num maxRequests);
                 x_remaining := "0";
                 x_reset := now + windowMs |}
              message (JS.ceil_seconds windowMs))
     else
       let newCount := JS.add currentRequests (JS.Num 1) in
       RedisService.set requestsKey (JS.toString newCount)
         (Some (JS.ceil_seconds windowMs));;
       Ret (NextCounted
              {| x_limit := JS.toString (JS.Num maxRequests);
                 x_remaining :=
                   JS.toString (JS.sub (JS.Num maxRequests) newCount);
                 x_reset := now + windowMs |}
              requestsKey newCount))
    (fun error =>
       call (ConsoleError ("Rate limiting error: " +:+ error));;
       Ret NextUnlimited).


Definition limiter (w m : Z) (msg : string) : RateLimitOptions :=
  {| windowMs := w; maxRequests := m; message := Some msg;
     skipSuccessfulRequests := None; skipFailedRequests := None |}.

Definition authLimiter :=
  createRateLimit (limiter (15 * 60 * 1000) 5
    "Too many authentication attempts, please try again later.").

Definition apiLimiter :=
  createRateLimit (limiter (15 * 60 * 1000) 100
    "Too many API requests, please try again later.").

Definition chatbotLimiter :=
  createRateLimit (limiter (60 * 1000) 10
    "Too many chatbot requests, please slow down.").

Definition contentGenerationLimiter :=
  createRateLimit (limiter (60 * 60 * 1000) 20
    "Content generation limit reached, please try again later.").

Definition schedulingLimiter :=
  createRateLimit (limiter (60 * 60 * 1000) 50
    "Scheduling limit reached, please try again later.").

End RateLimiter.

(** ** DatabaseService: [query] takes a pooled connection, sends one
    statement and releases the connection *)

Module DatabaseService.

Definition query (statement : cmd) : prog (answer statement) := call statement.

End DatabaseService.

(** ** NotificationService *)

Module NotificationService.

Definition capacity : nat := 50.

(** [ruleResult.rows.length === 0 || ruleResult.rows[0].enabled]; a NULL
    [enabled] is falsy. *)
Definition isEnabled (rows : list (option bool)) : bool :=
  match rows with
  | [] => true
  | row :: _ => default false row
  end.

Definition redisKey (userId : Z) : string :=
  "notifications:" +:+ JS.toString (JS.Num userId).

Definition createNotification (notification : Notification) : prog unit :=
  try_catch
    (ruleResult ← DatabaseService.query
       (SqlSelectRuleEnabled (userId notification) (type notification));
     if negb (isEnabled ruleResult) then Ret tt
     else
       DatabaseService.query
         (SqlInsertNotification (userId notification) (type notification)
            (title notification) (message notification)
            (default "{}" (data notification)));;
       let redisKey := redisKey (userId notification) in
       now ← call DateNow;
       let notificationData :=
         {| rt_type := type notification; rt_title := title notification;
            rt_message := message notification;
            rt_data := data notification; rt_timestamp := now |} in
       RedisService.addToSet redisKey notificationData;;
       notifications ← RedisService.getSet redisKey;
       (if bool_decide (capacity < length notifications)%nat then
          let oldestNotifications :=
            take (length notifications - capacity) notifications in
          for_each oldestNotifications
            (fun oldNotification =>
               RedisService.removeFromSet redisKey oldNotification)
        else Ret tt);;
       call (ConsoleLog ("📢 Notification created for user "
                         +:+ JS.toString (JS.Num (userId notification))
                         +:+ ": " +:+ title notification)))
    (fun error => call (ConsoleError ("Error creating notification: "
                                      +:+ error))).

Definition quote : string := String (JS.chr 34) EmptyString.

(** A JSON object with string fields, as text. *)
Definition json_object (fields : list (string * string)) : string :=
  "{" +:+ String.concat ","
            ((fun f => quote +:+ f.1 +:+ quote +:+ ":"
                       +:+ quote +:+ f.2 +:+ quote) <$> fields)
      +:+ "}".

Definition notifyPostPublished (userId : Z) (accountName content : string)
  : prog unit :=
  createNotification
    {| userId := userId; type := post_published;
       title := "Bài viết đã được đăng";
       message := "Bài viết của bạn đã được đăng thành công trên "
                  +:+ accountName;
       data := Some (json_object [("accountName", accountName);
                                  ("content", substring 0 100 content)]);
       isRead := false |}.

Definition notifyPostFailed (userId : Z) (accountName error : string)
  : prog unit :=
  createNotification
    {| userId := userId; type := post_failed;
       title := "Đăng bài thất bại";
       message := "Không thể đăng bài trên " +:+ accountName +:+ ": "
                  +:+ error;
       data := Some (json_object [("accountName", accountName);
                                  ("error", error)]);
       isRead := false |}.

End NotificationService.

(** ** SocialMediaService: the platform adapter *)

Module SocialMediaService.

Definition publishToTwitter (post : JoinedPost) : prog unit :=
  try_catch
    (call (HttpPost TwitterTweets post);;
     call (ConsoleLog "Twitter post published:"))
    (fun error =>
       call (ConsoleError ("Twitter publish error: " +:+ error));;
       Throw error).

Definition publishToFacebook (post : JoinedPost) : prog unit :=
  try_catch
    (call (HttpPost FacebookFeed post);;
     call (ConsoleLog "Facebook post published:"))
    (fun error =>
       call (ConsoleError ("Facebook publish error: " +:+ error));;
       Throw error).

Definition publishToInstagram (post : JoinedPost) : prog unit :=
  try_catch
    (match media_urls (jp_post post) with
     | _ :: _ =>
         call (HttpPost InstagramMedia post);;
         call (HttpPost InstagramMediaPublish post);;
         call (ConsoleLog "Instagram post published:")
     | [] => Ret tt
     end)
    (fun error =>
       call (ConsoleError ("Instagram publish error: " +:+ error));;
       Throw error).

Definition publishToLinkedIn (post : JoinedPost) : prog unit :=
  try_catch
    (call (HttpPost LinkedInUgcPosts post);;
     call (ConsoleLog "LinkedIn post published:"))
    (fun error =>
       call (ConsoleError ("LinkedIn publish error: " +:+ error));;
       Throw error).

Definition publishPost (post : JoinedPost) : prog unit :=
  let p := JS.lower (jp_platform post) in
  if String.eqb p "twitter" then publishToTwitter post
  else if String.eqb p "facebook" then publishToFacebook post
  else if String.eqb p "instagram" then publishToInstagram post
  else if String.eqb p "linkedin" then publishToLinkedIn post
  else Throw ("Unsupported platform: " +:+ jp_platform post).

Definition getAnalytics (account : AccountRow) : prog (list Metric) :=
  try_catch
    (let p := JS.lower (platform account) in
     if String.eqb p "twitter" || String.eqb p "facebook"
        || String.eqb p "instagram"
     then call (HttpGetMetrics account)
     else Ret [])
    (fun error =>
       call (ConsoleError ("Error getting analytics for "
                           +:+ platform account +:+ ": " +:+ error));;
       Ret []).

End SocialMediaService.

(** ** SchedulerService *)

Module SchedulerService.

(** A six-field cron pattern whose day, month and weekday fields are [*]:
    [None] stands for [*], [Some n] for the number [n]. *)
Record CronTime := {
  cron_second : option Z;
  cron_minute : option Z;
  cron_hour : option Z
}.

(** [new CronJob(cronTime, onTick)]. *)
Record CronJob := {
  cronTime : CronTime;
  onTick : prog unit
}.

Definition field_matches (f : option Z) (v : Z) : bool :=
  match f with
  | Some n => n =? v
  | None => true
  end.

Definition cron_matches (c : CronTime) (t : Z) : bool :=
  field_matches (cron_second c) (Time.second_of t)
  && field_matches (cron_minute c) (Time.minute_of t)
  && field_matches (cron_hour c) (Time.hour_of t).

Definition id_text (id : Z) : string := JS.toString (JS.Num id).

Definition processScheduledPosts : prog unit :=
  try_catch
    (result ← DatabaseService.query SqlSelectDuePosts;
     for_each result
       (fun post =>
          try_catch
            (SocialMediaService.publishPost post;;
             DatabaseService.query (SqlMarkPublished (jp_id post));;
             call (ConsoleLog ("✅ Published scheduled post "
                               +:+ id_text (jp_id post))))
            (fun error =>
               call (ConsoleError ("❌ Failed to publish post "
                                   +:+ id_text (jp_id post) +:+ ": "
                                   +:+ error));;
               DatabaseService.query (SqlMarkFailed (jp_id post)))))
    (fun error =>
       call (ConsoleError ("Error processing scheduled posts: " +:+ error))).

Definition collectAnalytics : prog unit :=
  try_catch
    (accountsResult ← DatabaseService.query SqlSelectActiveAccounts;
     for_each accountsResult
       (fun account =>
          try_catch
            (analytics ← SocialMediaService.getAnalytics account.2;
             for_each analytics
               (fun metric =>
                  DatabaseService.query
                    (SqlUpsertMetric account.1 (m_type metric)
                       (m_value metric)));;
             call (ConsoleLog ("✅ Collected analytics for account "
                               +:+ id_text account.1)))
            (fun error =>
               call (ConsoleError ("❌ Failed to collect analytics for account "
                                   +:+ id_text account.1 +:+ ": "
                                   +:+ error)))))
    (fun error =>
       call (ConsoleError ("Error collecting analytics: " +:+ error))).

Definition cleanupOldData : prog unit :=
  try_catch
    (DatabaseService.query SqlDeleteOldAnalytics;;
     DatabaseService.query SqlDeleteOldConversations;;
     DatabaseService.query SqlDeleteOldFailedPosts;;
     call (ConsoleLog "✅ Cleanup completed"))
    (fun error => call (ConsoleError ("Error during cleanup: " +:+ error))).

(** The three jobs that [start] creates, starts and files under their
    names: ['0 * * * * *'], ['0 0 * * * *'] and ['0 0 0 * * *']. *)
Definition postSchedulerJob : CronJob :=
  {| cronTime := {| cron_second := Some 0; cron_minute := None;
                    cron_hour := None |};
     onTick := processScheduledPosts |}.

Definition analyticsJob : CronJob :=
  {| cronTime := {| cron_second := Some 0; cron_minute := Some 0;
                    cron_hour := None |};
     onTick := collectAnalytics |}.

Definition cleanupJob : CronJob :=
  {| cronTime := {| cron_second := Some 0; cron_minute := Some 0;
                    cron_hour := Some 0 |};
     onTick := cleanupOldData |}.

(** An invocation of a job's [onTick] that has been started: the job's
    name and what is left of the call. *)
Record Invocation := {
  job : string;
  rest : prog unit
}.

(** The scheduler process: the jobs that were started, under the names
    the static [jobs] map files them, the invocations started so far, and
    the world they share. *)
Record Process := {
  jobs : gmap string CronJob;
  invocations : list Invocation;
  world : World
}.

Definition start (p : Process) : Process :=
  {| jobs := <["cleanup" := cleanupJob]>
               (<["analytics" := analyticsJob]>
                  (<["postScheduler" := postSchedulerJob]> (jobs p)));
     invocations := invocations p;
     world := record_event (ConsoleLog "✅ Scheduler service started") None
                (world p) |}.

(** What happens to the process: time passes; the timer of a started job
    reaches an instant its pattern matches and calls [onTick]; an
    invocation that was waiting on a round trip gets its answer and goes
    on to its next one. *)
Inductive Happening :=
| Elapse (ms : Z)
| Tick (name : string)
| Resume (i : nat).

Definition running (i : Invocation) : bool := negb (settled (rest i)).

(** The library calls [onTick] and does not look at the promise it
    returns; the callbacks of [start] keep no flag of their own.  The new
    invocation joins the ones already started. *)
Definition tick (name : string) (p : Process) : Process :=
  match jobs p !! name with
  | Some j =>
      if cron_matches (cronTime j) (clock (world p)) then
        {| jobs := jobs p;
           invocations := invocations p ++ [{| job := name; rest := onTick j |}];
           world := world p |}
      else p
  | None => p
  end.

Definition resume (i : nat) (p : Process) : Process :=
  match invocations p !! i with
  | Some inv =>
      let (r, w) := step (rest inv) (world p) in
      {| jobs := jobs p;
         invocations := <[i := {| job := job inv; rest := r |}]> (invocations p);
         world := w |}
  | None => p
  end.

Definition happen (h : Happening) (p : Process) : Process :=
  match h with
  | Elapse ms =>
      {| jobs := jobs p; invocations := invocations p;
         world := with_clock (clock (world p) + ms) (world p) |}
  | Tick name => tick name p
  | Resume i => resume i p
  end.

Definition happen_all (hs : list Happening) (p : Process) : Process :=
  foldl (fun p h => happen h p) p hs.

(** The invocations of job [name] that are in flight. *)
Definition in_flight (name : string) (p : Process) : list Invocation :=
  filter (fun i => job i = name /\ running i = true) (invocations p).

End SchedulerService.

(** ** Several calls of one method in flight at once *)

Module Interleaving.

(** Call [i] of the pool advances by one command. *)
Definition advance {A} (i : nat) (pw : list (prog A) * World)
  : list (prog A) * World :=
  match pw.1 !! i with
  | Some p => let (p', w') := step p pw.2 in (<[i := p']> pw.1, w')
  | None => pw
  end.

Definition schedule {A} (order : list nat) (pw : list (prog A) * World)
  : list (prog A) * World :=
  foldl (fun pw i => advance i pw) pw order.

End Interleaving.

(** * Vocabulary of the properties *)

Section NumbersVocabulary.

Fixpoint all_digits (s : string) : bool :=
  match s with
  | String c s' => JS.is_digit c && all_digits s'
  | EmptyString => true
  end.

End NumbersVocabulary.

Section LimiterVocabulary.

Import RateLimiter.

Definition redis_reliable (w : World) : Prop :=
  forall n, redis_fault (env w) n = None.

Definition db_reliable (w : World) : Prop :=
  forall n, db_fault (env w) n = None.

Definition decision (r : result RateLimiter.Verdict) : option bool :=
  match r with
  | Ok v => Some (RateLimiter.allowed v)
  | Raise _ => None
  end.

(** The decisions of one middleware on the same request at successive
    instants, each call running to completion before the next. *)
Fixpoint sequentially (mw : prog RateLimiter.Verdict) (instants : list Z)
    (w : World) : list (option bool) :=
  match instants with
  | [] => []
  | t :: ts =>
      let (r, w') := run mw (with_clock t w) in
      decision r :: sequentially mw ts w'
  end.

(** The events that a run added to the history. *)
Definition events_of {A} (p : prog A) (w : World) : list Event :=
  drop (length (history w)) (history (run p w).2).

(** [requests ? parseInt(requests) : 0] *)
Definition current_count (requests : option string) : JS.number :=
  if JS.truthy requests then JS.parseInt (default "" requests) else JS.Num 0.

Definition counter_key (req : Request) : string :=
  "rate_limit:" +:+ generateKey req.

(** The count the middleware would read now. *)
Definition count_now (req : Request) (w : World) : JS.number :=
  current_count (Store.GET (clock w) (counter_key req) (redis w)).

(** *** Concrete worlds *)

(** An environment in which nothing fails and a Redis set happens to
    enumerate its members in insertion order. *)
Definition calm : Environment :=
  {| db_fault := fun _ => None;
     redis_fault := fun _ => None;
     http_post := fun _ _ => None;
     http_metrics := fun _ => Ok [];
     set_slot := fun m l => l ++ [m] |}.

Definition empty_db : Database :=
  {| scheduled_posts := ∅; social_accounts := ∅; analytics_data := [];
     chatbot_conversations := []; notifications := [];
     notification_rules := [] |}.

Definition empty_redis : Redis := {| strings := ∅; sets := ∅ |}.

Definition fresh_world : World :=
  {| clock := 0; db := empty_db; redis := empty_redis; env := calm;
     history := [] |}.

Definition login_request : Request :=
  {| ip := Some "203.0.113.7"; remoteAddress := None; user_id := None;
     route_path := Some "/login"; path := "/api/auth/login" |}.

(** Window 60 seconds, maximum 3. *)
Definition three_per_minute : RateLimitOptions :=
  {| windowMs := 60 * 1000; maxRequests := 3; message := None;
     skipSuccessfulRequests := None; skipFailedRequests := None |}.

Definition one_per_minute : RateLimitOptions :=
  {| windowMs := 60 * 1000; maxRequests := 1; message := None;
     skipSuccessfulRequests := None; skipFailedRequests := None |}.

(** The expiry instant of a key, if it has one. *)
Definition expiry_of (k : string) (r : Redis) : option Z :=
  match strings r !! k with
  | Some (_, e) => e
  | None => None
  end.

(** Whether a call of a pool has finished and let its request through. *)
Definition let_through (p : prog Verdict) : bool :=
  match p with
  | Ret v => allowed v
  | _ => false
  end.

Definition count_let_through (pool : list (prog Verdict)) : nat :=
  length (List.filter let_through pool).

(** How many of the decisions are an admission. *)
Definition admissions (ds : list (option bool)) : nat :=
  length (List.filter (fun d => bool_decide (d = Some true)) ds).

(** A store command raised during the events [evs]. *)
Definition store_raised (evs : list Event) : Prop :=
  Exists (fun ev => service_of (ev_cmd ev) = RedisServer
                    /\ is_Some (ev_error ev)) evs.

(** A Redis server that refuses every command. *)
Definition unreachable : Environment :=
  {| db_fault := fun _ => None;
     redis_fault := fun _ => Some "connect ECONNREFUSED 127.0.0.1:6379";
     http_post := fun _ _ => None;
     http_metrics := fun _ => Ok [];
     set_slot := fun m l => l ++ [m] |}.

Definition world_without_redis : World :=
  {| clock := 0; db := empty_db; redis := empty_redis; env := unreachable;
     history := [] |}.

End LimiterVocabulary.

Section NotificationsVocabulary.

Import NotificationService.

(** *** The notification store, seen from outside *)

(** The real-time cache of a user: the members of the user's Redis set. *)
Definition cache_of (uid : Z) (w : World) : list RealtimeEntry :=
  Store.SMEMBERS (redisKey uid) (redis w).

(** The durable log. *)
Definition durable_log (w : World) : list NotificationRow :=
  notifications (db w).

Definition durable_row (n : Notification) (now : Z) : NotificationRow :=
  {| notif_user_id := userId n; notif_type := type n; notif_title := title n;
     notif_message := message n; notif_data := default "{}" (data n);
     is_read := false; notif_created_at := now |}.

Definition realtime_entry (n : Notification) (now : Z) : RealtimeEntry :=
  {| rt_type := type n; rt_title := title n; rt_message := message n;
     rt_data := data n; rt_timestamp := now |}.

(** The rows that the rule lookup of [createNotification] returns. *)
Definition rule_rows (n : Notification) (w : World) : list (option bool) :=
  Sql.select_rule_enabled (userId n) (type n) (notification_rules (db w)).

(** Removing the members [victims] from the set under [k], one SREM
    each. *)
Definition remove_all (k : string) (victims : list RealtimeEntry) (r : Redis)
  : Redis :=
  foldl (fun r m => Store.SREM k m r) r victims.

(** What the eviction loop of [createNotification] does to the store. *)
Definition trim (k : string) (r : Redis) : Redis :=
  let members := Store.SMEMBERS k r in
  if bool_decide (capacity < length members)%nat
  then remove_all k (take (length members - capacity) members) r
  else r.

Definition reliable (w : World) : Prop := db_reliable w /\ redis_reliable w.

(** The enumeration order of a set is some order of its members. *)
Definition slot_sound (e : Environment) : Prop :=
  forall m l, set_slot e m l ≡ₚ m :: l.

Definition no_error (ev : Event) : Prop := ev_error ev = None.

(** A program in which every awaited command that raises is rethrown at
    once: no [try] around any of its commands. *)
Fixpoint uncaught {A} (p : prog A) : Prop :=
  match p with
  | Do c k => (forall e, k (Raise e) = Throw e) /\ forall a, uncaught (k (Ok a))
  | _ => True
  end.

Definition rules_of (w : World) : list RuleRow := notification_rules (db w).

Definition rule_matches (n : Notification) (r : RuleRow) : Prop :=
  rule_user_id r = userId n /\ rule_type r = type n.

(** A rule row exists for (userId, type) with enabled = false. *)
Definition rule_disabled (n : Notification) (w : World) : Prop :=
  exists r, r ∈ rules_of w /\ rule_matches n r /\ enabled r = Some false.

(** No rule row exists for (userId, type). *)
Definition no_rule (n : Notification) (w : World) : Prop :=
  forall r, r ∈ rules_of w -> ~ rule_matches n r.

(** [UNIQUE(user_id, type)] on [notification_rules]. *)
Definition rules_unique (w : World) : Prop :=
  forall r r', r ∈ rules_of w -> r' ∈ rules_of w ->
               rule_user_id r = rule_user_id r' -> rule_type r = rule_type r' ->
               r = r'.

(** A PostgreSQL server that refuses every statement. *)
Definition postgres_down : Environment :=
  {| db_fault := fun _ => Some "connection terminated unexpectedly";
     redis_fault := fun _ => None;
     http_post := fun _ _ => None;
     http_metrics := fun _ => Ok [];
     set_slot := fun m l => l ++ [m] |}.

Definition world_without_postgres : World :=
  {| clock := 0; db := empty_db; redis := empty_redis; env := postgres_down;
     history := [] |}.

Definition alert (i : Z) : Notification :=
  {| userId := 7; type := system_alert;
     title := "alert " +:+ JS.toString (JS.Num i);
     message := "disk usage is high"; data := None; isRead := false |}.

Definition muted_world : World :=
  {| clock := 0;
     db := {| scheduled_posts := ∅; social_accounts := ∅;
              analytics_data := []; chatbot_conversations := [];
              notifications := [];
              notification_rules :=
                [{| rule_user_id := 7; rule_type := system_alert;
                    enabled := Some false |}] |};
     redis := empty_redis; env := calm; history := [] |}.

(** A Redis server whose sets enumerate the member added last first. *)
Definition newest_first : Environment :=
  {| db_fault := fun _ => None;
     redis_fault := fun _ => None;
     http_post := fun _ _ => None;
     http_metrics := fun _ => Ok [];
     set_slot := fun m l => m :: l |}.

(** The notifications [ns], created one after the other, one second
    apart. *)
Definition create_in_turn (ns : list Notification) (w : World) : World :=
  foldl (fun w n => (run (createNotification n)
                       (with_clock (clock w + 1000) w)).2) w ns.

Definition alerts (k : nat) : list Notification := alert <$> seqZ 1 (Z.of_nat k).

Definition alert_entry (i : Z) : RealtimeEntry :=
  realtime_entry (alert i) (i * 1000).

Definition fresh_world_newest_first : World :=
  {| clock := 0; db := empty_db; redis := empty_redis; env := newest_first;
     history := [] |}.

End NotificationsVocabulary.

Section SchedulerVocabulary.

Import SchedulerService.

(** *** A world with rows past every retention window *)

Definition old_metric : AnalyticsRow :=
  {| metric_account_id := 1; metric_type := "followers"; metric_value := 120;
     metric_date := 0; metric_created_at := 0 |}.

Definition old_conversation : ConversationRow :=
  {| conv_account_id := 1; user_handle := "@ana"; conv_message := "hello";
     conv_created_at := 0 |}.

Definition old_failed_post : PostRow :=
  {| post_user_id := 7; post_account_id := 1; content := "launch day";
     media_urls := []; scheduled_time := 0; status := Failed;
     error_message := None; posted_at := None; post_created_at := 0 |}.

Definition stale_db : Database :=
  {| scheduled_posts := {[ 10 := old_failed_post ]}; social_accounts := ∅;
     analytics_data := [old_metric];
     chatbot_conversations := [old_conversation];
     notifications := []; notification_rules := [] |}.

(** PostgreSQL fails the first statement it is sent and serves the rest. *)
Definition first_statement_fails : Environment :=
  {| db_fault :=
       fun n => if Nat.eqb n 0 then Some "deadlock detected" else None;
     redis_fault := fun _ => None;
     http_post := fun _ _ => None;
     http_metrics := fun _ => Ok [];
     set_slot := fun m l => l ++ [m] |}.

(** Midnight of 1973-03-03, three years and two months after the rows
    were created. *)
Definition sweep_instant : Z := 100000000000 - 100000000000 mod 86400000.

Definition stale_world (e : Environment) : World :=
  {| clock := sweep_instant; db := stale_db; redis := empty_redis; env := e;
     history := [] |}.

(** *** The dispatch tick, seen from outside *)

(** Whether [publishPost] throws on a row, and with what error. *)
Definition publish_error (e : Environment) (post : JoinedPost)
  : option string :=
  let p := JS.lower (jp_platform post) in
  if String.eqb p "twitter" then http_post e TwitterTweets post
  else if String.eqb p "facebook" then http_post e FacebookFeed post
  else if String.eqb p "instagram" then
    match media_urls (jp_post post) with
    | _ :: _ =>
        match http_post e InstagramMedia post with
        | Some err => Some err
        | None => http_post e InstagramMediaPublish post
        end
    | [] => None
    end
  else if String.eqb p "linkedin" then http_post e LinkedInUgcPosts post
  else Some ("Unsupported platform: " +:+ jp_platform post).

(** The UPDATE that the tick sends for a row. *)
Definition mark (e : Environment) (now : Z) (post : JoinedPost)
  : PostRow -> PostRow :=
  match publish_error e post with
  | None => Sql.publish_row now
  | Some _ => Sql.fail_row
  end.

Definition mark_all (e : Environment) (now : Z) (rows : list JoinedPost)
    (t : gmap Z PostRow) : gmap Z PostRow :=
  foldl (fun t post => alter (mark e now post) (jp_id post) t) t rows.

(** The body of the loop of [processScheduledPosts]. *)
Definition dispatch_body (post : JoinedPost) : prog unit :=
  try_catch
    (SocialMediaService.publishPost post;;
     DatabaseService.query (SqlMarkPublished (jp_id post));;
     call (ConsoleLog ("✅ Published scheduled post " +:+ id_text (jp_id post))))
    (fun error =>
       call (ConsoleError ("❌ Failed to publish post "
                           +:+ id_text (jp_id post) +:+ ": " +:+ error));;
       DatabaseService.query (SqlMarkFailed (jp_id post))).

(** Two stores hold the same notifications. *)
Definition same_notifications (w w' : World) : Prop :=
  notifications (db w') = notifications (db w) /\ redis w' = redis w.

(** *** A world with one post that is due *)

Definition brand_account : AccountRow :=
  {| account_user_id := 7; platform := "twitter"; account_name := "@brand";
     access_token := Some "token"; account_data := None; is_active := true |}.

Definition due_post : PostRow :=
  {| post_user_id := 7; post_account_id := 1; content := "launch day";
     media_urls := []; scheduled_time := 0; status := Pending;
     error_message := None; posted_at := None; post_created_at := 0 |}.

Definition due_row : JoinedPost :=
  {| jp_id := 10; jp_post := due_post; jp_platform := "twitter";
     jp_access_token := Some "token"; jp_account_data := None |}.

Definition dispatch_db : Database :=
  {| scheduled_posts := {[ 10 := due_post ]};
     social_accounts := {[ 1 := brand_account ]};
     analytics_data := []; chatbot_conversations := [];
     notifications := []; notification_rules := [] |}.

(** The platform rejects every post. *)
Definition platform_rejects : Environment :=
  {| db_fault := fun _ => None;
     redis_fault := fun _ => None;
     http_post := fun _ _ => Some "Request failed with status code 401";
     http_metrics := fun _ => Ok [];
     set_slot := fun m l => l ++ [m] |}.

Definition dispatch_world (e : Environment) : World :=
  {| clock := 60000; db := dispatch_db; redis := empty_redis; env := e;
     history := [] |}.

(** *** A scheduler whose dispatch outlasts a minute *)

(** The process right after [SchedulerService.start()], at 00:01:00 with
    one post due. *)
Definition started : Process :=
  start {| jobs := ∅; invocations := []; world := dispatch_world calm |}.

(** The minute timer fires and the dispatch reads the due post; its HTTP
    call is still pending when, a minute later, the timer fires again. *)
Definition second_tick_during_first : list Happening :=
  [Tick "postScheduler"; Resume 0; Elapse 60000; Tick "postScheduler"].

(** Then the second invocation reads the due posts, and each of the two
    sends its HTTP call. *)
Definition both_go_on : list Happening :=
  [Resume 1; Resume 0; Resume 1].

End SchedulerVocabulary.

(** * More of the code *)

(** ** NotificationService: the rules offered by default and the
    real-time feed *)

Module NotificationQueries.

(** [NotificationRule]; [conditions] is the object as JSON text. *)
Record NotificationRule := {
  userId : Z;
  type : NotificationType;
  enabled : bool;
  conditions : option string
}.

Definition field (name value : string) : string :=
  "{" +:+ NotificationService.quote +:+ name +:+ NotificationService.quote
  +:+ ":" +:+ value +:+ "}".

Definition getDefaultNotificationRules (userId : Z) : list NotificationRule :=
  [ {| userId := userId; type := post_published; enabled := true;
       conditions := None |};
    {| userId := userId; type := post_failed; enabled := true;
       conditions := None |};
    {| userId := userId; type := high_engagement; enabled := true;
       conditions := Some (field "threshold" "50") |};
    {| userId := userId; type := low_engagement; enabled := false;
       conditions := Some (field "threshold" "5") |};
    {| userId := userId; type := account_disconnected; enabled := true;
       conditions := None |};
    {| userId := userId; type := growth_milestone; enabled := true;
       conditions := Some (field "milestones" "[100,500,1000,5000]") |};
    {| userId := userId; type := negative_sentiment; enabled := true;
       conditions := Some (field "threshold" "-0.5") |};
    {| userId := userId; type := system_alert; enabled := true;
       conditions := None |} ].

(** The members are kept as the objects they serialise, so
    [JSON.parse] gives every member back and [filter(Boolean)] drops
    none. *)
Definition getRealTimeNotifications (userId : Z)
  : prog (list RealtimeEntry) :=
  try_catch
    (let redisKey := NotificationService.redisKey userId in
     notifications ← RedisService.getSet redisKey;
     Ret notifications)
    (fun error =>
       call (ConsoleError ("Error getting real-time notifications: "
                           +:+ error));;
       Ret []).

End NotificationQueries.

(** ** The notification routes (src/routes/notifications.ts) *)

Module NotificationRoutes.

(** [req.body] of [POST /test], with a [type] that is absent or one of
    the notification types; [data] is the object as JSON text. *)
Record TestBody := {
  body_type : option NotificationType;
  body_title : option string;
  body_message : option string;
  body_data : option string
}.

(** What the handler does with the request: [res.status(s).json({k: v})]
    or [next(error)]. *)
Inductive Answer :=
| Json (status : Z) (key value : string)
| Next (error : string).

Definition required : Answer :=
  Json 400 "error" "type, title, and message are required".

Definition created : Answer :=
  Json 200 "message" "Test notification created".

(** [router.post('/test', authenticateToken, async (req, res, next) => ...)],
    with [userId] for [req.user.id]. *)
Definition post_test (userId : Z) (body : TestBody) : prog Answer :=
  try_catch
    (match body_type body, body_title body, body_message body with
     | Some type, Some title, Some message =>
         if String.eqb title "" || String.eqb message "" then Ret required
         else
           NotificationService.createNotification
             {| userId := userId; type := type; title := title;
                message := message; data := body_data body;
                isRead := false |};;
           Ret created
     | _, _, _ => Ret required
     end)
    (fun error => Ret (Next error)).

End NotificationRoutes.

(** ** The error handler of the Express application *)

Module ErrorHandler.





End ErrorHandler.

(** * Vocabulary of the further properties *)

Section LimiterEdgesVocabulary.

Import RateLimiter.

(** *** More worlds for the rate limiter *)



(** The same visitor on another route. *)
Definition register_request : Request :=
  {| ip := Some "203.0.113.7"; remoteAddress := None; user_id := None;
     route_path := Some "/register"; path := "/api/auth/register" |}.

(** The route part of the key: [req.route?.path || req.path]. *)
Definition route_of (req : Request) : string :=
  JS.or_else (route_path req) (path req).


Definition zero_window : RateLimitOptions :=
  {| windowMs := 0; maxRequests := 3; message := None;
     skipSuccessfulRequests := None; skipFailedRequests := None |}.

Definition negative_window : RateLimitOptions :=
  {| windowMs := -60000; maxRequests := 3; message := None;
     skipSuccessfulRequests := None; skipFailedRequests := None |}.

End LimiterEdgesVocabulary.

Section NotificationQueriesVocabulary.

Import NotificationService.

(** *** More on the notification store *)

(** A rule row exists for (userId, type) whose [enabled] column holds
    [e]. *)
Definition rule_says (n : Notification) (w : World) (e : option bool)
  : Prop :=
  exists r, r ∈ rules_of w /\ rule_matches n r /\ enabled r = e.

Definition undecided_world : World :=
  {| clock := 0;
     db := {| scheduled_posts := ∅; social_accounts := ∅;
              analytics_data := []; chatbot_conversations := [];
              notifications := [];
              notification_rules :=
                [{| rule_user_id := 7; rule_type := system_alert;
                    enabled := None |}] |};
     redis := empty_redis; env := calm; history := [] |}.

Definition quiet_hours (uid : Z) : Notification :=
  {| userId := uid; type := low_engagement;
     title := "engagement is low"; message := "3 interactions today";
     data := None; isRead := false |}.

End NotificationQueriesVocabulary.

Section SchedulerJobsVocabulary.

Import SchedulerService.

(** *** More on the platform adapter and the jobs *)



Definition on_platform (name : string) (a : AccountRow) : AccountRow :=
  {| account_user_id := account_user_id a; platform := name;
     account_name := account_name a; access_token := access_token a;
     account_data := account_data a; is_active := is_active a |}.

(** The world of [dispatch_world] with the account moved to another
    platform. *)
Definition dispatch_world_on (name : string) (e : Environment) : World :=
  {| clock := 60000;
     db := {| scheduled_posts := {[ 10 := due_post ]};
              social_accounts := {[ 1 := on_platform name brand_account ]};
              analytics_data := []; chatbot_conversations := [];
              notifications := []; notification_rules := [] |};
     redis := empty_redis; env := e; history := [] |}.

Definition due_row_on (name : string) : JoinedPost :=
  {| jp_id := 10; jp_post := due_post; jp_platform := name;
     jp_access_token := Some "token"; jp_account_data := None |}.


(** *** What a job may issue, and what that can change *)

(** Every command the program can come to issue is one of [ok]. *)
Fixpoint issues {A} (ok : cmd -> Prop) (p : prog A) : Prop :=
  match p with
  | Do c k => ok c /\ forall r, issues ok (k r)
  | _ => True
  end.

(** Two worlds at the same instant, in the same environment, with the
    same Redis. *)
Definition same_moment (w w' : World) : Prop :=
  clock w' = clock w /\ env w' = env w /\ redis w' = redis w.




(** The commands of an analytics tick. *)
Definition collect_cmd (c : cmd) : Prop :=
  match c with
  | ConsoleLog _ | ConsoleError _ | HttpGetMetrics _
  | SqlSelectActiveAccounts | SqlUpsertMetric _ _ _ => True
  | _ => False
  end.

(** The columns of [UNIQUE(account_id, metric_type, date)]. *)
Definition metric_key (r : AnalyticsRow) : Z * string * Z :=
  (metric_account_id r, metric_type r, metric_date r).

Definition one_row_per_day (t : list AnalyticsRow) : Prop :=
  NoDup (metric_key <$> t).

(** Every column but the value. *)
Definition identity_of (r : AnalyticsRow) : Z * string * Z * Z :=
  (metric_key r, metric_created_at r).

(** A row inserted at the instant [now]. *)
Definition inserted_at (now : Z) (r : AnalyticsRow) : Prop :=
  metric_date r = Time.date_of now /\ metric_created_at r = now.

(** From [w] to [w'] nothing changed but [analytics_data]: its rows are
    still there, in place, with at most their value changed, followed by
    rows inserted at this instant; and it still has one row per account,
    metric and day if it had. *)
Definition collected (w w' : World) : Prop :=
  same_moment w w'
  /\ scheduled_posts (db w') = scheduled_posts (db w)
  /\ social_accounts (db w') = social_accounts (db w)
  /\ chatbot_conversations (db w') = chatbot_conversations (db w)
  /\ notifications (db w') = notifications (db w)
  /\ notification_rules (db w') = notification_rules (db w)
  /\ (one_row_per_day (analytics_data (db w)) ->
      one_row_per_day (analytics_data (db w')))
  /\ exists updated added,
       analytics_data (db w') = updated ++ added
       /\ identity_of <$> updated = identity_of <$> analytics_data (db w)
       /\ Forall (inserted_at (clock w)) added.

(** The commands of a cleanup tick. *)
Definition sweep_cmd (c : cmd) : Prop :=
  match c with
  | ConsoleLog _ | ConsoleError _ | SqlDeleteOldAnalytics
  | SqlDeleteOldConversations | SqlDeleteOldFailedPosts => True
  | _ => False
  end.

(** The rows that no DELETE of the sweep at [now] matches. *)
Definition post_kept (now : Z) (p : PostRow) : Prop :=
  status p <> Failed
  \/ ~ post_created_at p < Time.minus now (Time.Weeks 1).

Definition metric_kept (now : Z) (r : AnalyticsRow) : Prop :=
  ~ metric_created_at r < Time.minus now (Time.Years 1).

Definition conversation_kept (now : Z) (r : ConversationRow) : Prop :=
  ~ conv_created_at r < Time.minus now (Time.Months 6).

(** From [w] to [w'] rows were only removed, from [scheduled_posts],
    [analytics_data] and [chatbot_conversations] only, and none of the
    rows that the sweep keeps. *)
Definition swept (w w' : World) : Prop :=
  same_moment w w'
  /\ social_accounts (db w') = social_accounts (db w)
  /\ notifications (db w') = notifications (db w)
  /\ notification_rules (db w') = notification_rules (db w)
  /\ (scheduled_posts (db w') ⊆ scheduled_posts (db w)
      /\ forall id p, scheduled_posts (db w) !! id = Some p ->
           post_kept (clock w) p -> scheduled_posts (db w') !! id = Some p)
  /\ (analytics_data (db w') `sublist_of` analytics_data (db w)
      /\ forall r, r ∈ analytics_data (db w) -> metric_kept (clock w) r ->
           r ∈ analytics_data (db w'))
  /\ (chatbot_conversations (db w') `sublist_of` chatbot_conversations (db w)
      /\ forall r, r ∈ chatbot_conversations (db w) ->
           conversation_kept (clock w) r ->
           r ∈ chatbot_conversations (db w')).

(** A backlog: twelve posts due at once, of one account. *)
Definition backlog_post (n : Z) : PostRow :=
  {| post_user_id := 7; post_account_id := 1; content := "hello";
     media_urls := []; scheduled_time := n; status := Pending;
     error_message := None; posted_at := None; post_created_at := 0 |}.

Definition backlog_world : World :=
  {| clock := 60000;
     db := {| scheduled_posts :=
                list_to_map ((fun n => (n, backlog_post n)) <$> seqZ 1 12);
              social_accounts := {[ 1 := brand_account ]};
              analytics_data := []; chatbot_conversations := [];
              notifications := []; notification_rules := [] |};
     redis := empty_redis; env := calm; history := [] |}.

(** PostgreSQL raises on the third command, and on no other. *)
Definition third_command_fails : Environment :=
  {| db_fault := fun n => if (n =? 2)%nat then Some "Connection terminated"
                          else None;
     redis_fault := fun _ => None;
     http_post := fun _ _ => None;
     http_metrics := fun _ => Ok [];
     set_slot := fun m l => l ++ [m] |}.

End SchedulerJobsVocabulary.

Section RoutesVocabulary.

Import NotificationService.

(** *** Requests to the test route, and errors *)

Definition complete (body : NotificationRoutes.TestBody) : bool :=
  match NotificationRoutes.body_type body, NotificationRoutes.body_title body,
        NotificationRoutes.body_message body with
  | Some _, Some title, Some message =>
      negb (String.eqb title "") && negb (String.eqb message "")
  | _, _, _ => false
  end.

(** The notification that the route passes on. *)
Definition notification_of (uid : Z) (body : NotificationRoutes.TestBody)
  : option Notification :=
  match NotificationRoutes.body_type body, NotificationRoutes.body_title body,
        NotificationRoutes.body_message body with
  | Some ty, Some ttl, Some msg =>
      Some {| userId := uid; type := ty; title := ttl; message := msg;
              data := NotificationRoutes.body_data body; isRead := false |}
  | _, _, _ => None
  end.

Definition alert_body : NotificationRoutes.TestBody :=
  {| NotificationRoutes.body_type := Some system_alert;
     NotificationRoutes.body_title := Some "alert";
     NotificationRoutes.body_message := Some "disk usage is high";
     NotificationRoutes.body_data := None |}.

Definition untitled_body : NotificationRoutes.TestBody :=
  {| NotificationRoutes.body_type := Some system_alert;
     NotificationRoutes.body_title := Some "";
     NotificationRoutes.body_message := Some "disk usage is high";
     NotificationRoutes.body_data := None |}.



End RoutesVocabulary.

(** * Properties *)

Ltac run_cbn :=
  cbn [run try_catch bind call mbind prog_bind perform fst snd error_of
       DatabaseService.query for_each].

Ltac fault_at H :=
  unfold fault_of;
  cbn [service_of record_event on_db on_redis with_db with_redis history env];
  rewrite <- H; f_equal; rewrite ?length_app; cbn [length]; lia.

Section NumbersProperties.

(** ** Decimal rendering and [parseInt] *)

Example parseInt_samples :
  JS.parseInt "12" = JS.Num 12 /\ JS.parseInt "  -12abc" = JS.Num (-12)
  /\ JS.parseInt "0x1F" = JS.Num 31 /\ JS.parseInt "" = JS.NaN
  /\ JS.parseInt "NaN" = JS.NaN.
Proof. repeat split. Qed.

Example toString_samples :
  JS.toString (JS.Num 0) = "0" /\ JS.toString (JS.Num 1024) = "1024"
  /\ JS.toString (JS.Num (-40)) = "-40" /\ JS.ceil_seconds 60001 = 61.
Proof. repeat split. Qed.

(** 2024-03-31 12:00 minus one month is 2024-02-29 12:00; minus one week
    is 2024-03-24 12:00. *)
Example interval_samples :
  Time.minus (Time.days_from_civil 2024 3 31 * 86400000 + 43200000)
    (Time.Months 1)
  = Time.days_from_civil 2024 2 29 * 86400000 + 43200000
  /\ Time.minus (Time.days_from_civil 2024 3 31 * 86400000 + 43200000)
       (Time.Weeks 1)
     = Time.days_from_civil 2024 3 24 * 86400000 + 43200000
  /\ Time.civil_from_days (Time.days_from_civil 2024 2 29) = (2024, 2, 29).
Proof. repeat split. Qed.

Lemma digit_char (n : Z) :
  0 <= n < 10 -> JS.code (JS.chr (48 + n)) = 48 + n.
Proof.
  intros [Hlo Hhi]. destruct n as [| p | p]; [reflexivity | | lia].
  do 4 (destruct p as [p | p |]; try lia; try reflexivity).
Qed.

Lemma digit_char_is_digit (n : Z) :
  0 <= n < 10 -> JS.is_digit (JS.chr (48 + n)) = true.
Proof.
  intros H. unfold JS.is_digit. rewrite digit_char by lia.
  apply andb_true_intro; split; apply Z.leb_le; lia.
Qed.

Lemma digits_all (fuel : nat) (n : Z) (acc : string) :
  0 <= n -> all_digits acc = true -> all_digits (JS.digits fuel n acc) = true.
Proof.
  revert n acc. induction fuel as [| fuel IH]; intros n acc Hn Hacc;
    assert (0 <= n mod 10 < 10) by (apply Z.mod_pos_bound; lia);
    cbn [JS.digits].
  - cbn [all_digits]. rewrite digit_char_is_digit by lia. exact Hacc.
  - destruct (n <? 10).
    + cbn [all_digits]. rewrite digit_char_is_digit by lia. exact Hacc.
    + apply IH; [apply Z.div_pos; lia |].
      cbn [all_digits]. rewrite digit_char_is_digit by lia. exact Hacc.
Qed.

Lemma digits_nonempty (fuel : nat) (n : Z) (acc : string) :
  exists c s, JS.digits fuel n acc = String c s.
Proof.
  revert n acc. induction fuel as [| fuel IH]; intros n acc; cbn [JS.digits].
  - eauto.
  - destruct (n <? 10); [eauto | apply IH].
Qed.

Lemma read_digits (fuel : nat) (n : Z) (acc : string) :
  0 <= n < 10 ^ Z.of_nat (S fuel) ->
  exists k, forall seen a,
    JS.read_decimal (JS.digits fuel n acc) seen a =
    JS.read_decimal acc true (a * 10 ^ k + n) /\ 0 <= k.
Proof.
  revert n acc. induction fuel as [| fuel IH]; intros n acc Hn.
  - exists 1. intros seen a. cbn [JS.digits JS.read_decimal].
    change (10 ^ Z.of_nat 1) with 10 in Hn.
    rewrite Z.mod_small by lia.
    rewrite digit_char_is_digit, digit_char by lia.
    split; [f_equal; lia | lia].
  - cbn [JS.digits]. destruct (n <? 10) eqn:E.
    + exists 1. intros seen a. cbn [JS.read_decimal].
      apply Z.ltb_lt in E. rewrite Z.mod_small by lia.
      rewrite digit_char_is_digit, digit_char by lia.
      split; [f_equal; lia | lia].
    + apply Z.ltb_ge in E.
      destruct (IH (n / 10) (String (JS.chr (48 + n mod 10)) acc)) as [k Hk].
      { split; [apply Z.div_pos; lia |].
        apply Z.div_lt_upper_bound; [lia |].
        replace (Z.of_nat (S (S fuel))) with (Z.succ (Z.of_nat (S fuel))) in Hn by lia.
        rewrite Z.pow_succ_r in Hn by lia. lia. }
      exists (k + 1). intros seen a. destruct (Hk seen a) as [-> Hk0].
      cbn [JS.read_decimal].
      assert (0 <= n mod 10 < 10) by (apply Z.mod_pos_bound; lia).
      rewrite digit_char_is_digit, digit_char by lia.
      split; [| lia]. f_equal.
      rewrite Z.pow_add_r by lia. change (10 ^ 1) with 10.
      pose proof (Z.div_mod n 10). lia.
Qed.

Lemma decimal_fuel (n : Z) :
  0 <= n -> n < 10 ^ Z.of_nat (S (Z.to_nat (Z.log2 n))).
Proof.
  intros Hn. destruct (Z.eq_dec n 0) as [-> | Hne]; [reflexivity |].
  assert (0 <= Z.log2 n) by apply Z.log2_nonneg.
  replace (Z.of_nat (S (Z.to_nat (Z.log2 n)))) with (Z.succ (Z.log2 n)) by lia.
  pose proof (Z.log2_spec n ltac:(lia)) as [_ Hlt].
  eapply Z.lt_le_trans; [exact Hlt |].
  apply Z.pow_le_mono_l. lia.
Qed.

Lemma digit_not_letter (c : ascii) :
  JS.is_digit c = true ->
  Ascii.eqb c "x" = false /\ Ascii.eqb c "X" = false
  /\ Ascii.eqb c "-" = false /\ Ascii.eqb c "+" = false
  /\ JS.is_space c = false.
Proof.
  intros H.
  repeat split;
    try (match goal with |- Ascii.eqb c ?d = false =>
           destruct (Ascii.eqb_spec c d) as [-> | _]; [discriminate H | reflexivity]
         end).
  unfold JS.is_digit, JS.is_space in *.
  apply andb_prop in H as [H1 H2]. apply Z.leb_le in H1.
  apply orb_false_intro.
  - apply andb_false_intro2. apply Z.leb_gt. lia.
  - apply Z.eqb_neq. lia.
Qed.

Lemma parseInt_decimal (n : Z) :
  0 <= n -> JS.parseInt (JS.decimal n) = JS.Num n.
Proof.
  intros Hn. unfold JS.decimal.
  pose proof (digits_all (Z.to_nat (Z.log2 n)) n "" Hn eq_refl) as Hall.
  destruct (read_digits (Z.to_nat (Z.log2 n)) n "" (conj Hn (decimal_fuel n Hn)))
    as [k Hk].
  destruct (digits_nonempty (Z.to_nat (Z.log2 n)) n "") as (c & s & E).
  rewrite E in *. cbn [all_digits] in Hall. apply andb_prop in Hall as [Hc Hs].
  destruct (digit_not_letter c Hc) as (Hx & HX & Hm & Hp & Hsp).
  unfold JS.parseInt. cbn [JS.skip_spaces]. rewrite Hsp.
  cbn [JS.strip_sign]. rewrite Hm, Hp.
  assert (JS.read_unsigned (String c s) = JS.read_decimal (String c s) false 0) as ->.
  { unfold JS.read_unsigned. destruct s as [| c2 s']; [reflexivity |].
    cbn [all_digits] in Hs. apply andb_prop in Hs as [Hc2 _].
    destruct (digit_not_letter c2 Hc2) as (Hx2 & HX2 & _).
    rewrite Hx2, HX2, andb_false_r. reflexivity. }
  destruct (Hk false 0) as [-> _]. cbn. f_equal.
Qed.

Lemma parseInt_toString (n : Z) :
  0 <= n -> JS.parseInt (JS.toString (JS.Num n)) = JS.Num n.
Proof.
  intros Hn. cbn [JS.toString]. destruct (n <? 0) eqn:E; [lia |].
  apply parseInt_decimal, Hn.
Qed.

Lemma toString_truthy (n : Z) :
  0 <= n -> JS.truthy (Some (JS.toString (JS.Num n))) = true.
Proof.
  intros Hn. cbn [JS.toString]. destruct (n <? 0) eqn:E; [lia |].
  unfold JS.decimal.
  destruct (digits_nonempty (Z.to_nat (Z.log2 n)) n "") as (c & s & ->).
  reflexivity.
Qed.

End NumbersProperties.

Section LimiterProperties.

Import RateLimiter.

(** ** Running program trees *)

Lemma run_bind {A B} (p : prog A) (f : A -> prog B) (w : World) :
  run (p ≫= f) w =
  match run p w with
  | (Ok a, w') => run (f a) w'
  | (Raise e, w') => (Raise e, w')
  end.
Proof.
  unfold mbind, prog_bind. revert w.
  induction p as [a | e | c k IH]; intros w; simpl; try reflexivity.
  destruct (exec c w) as [r w']. apply IH.
Qed.

Lemma run_try_catch {A} (p : prog A) (h : string -> prog A) (w : World) :
  run (try_catch p h) w =
  match run p w with
  | (Ok a, w') => (Ok a, w')
  | (Raise e, w') => run (h e) w'
  end.
Proof.
  revert w. induction p as [a | e | c k IH]; intros w; simpl; try reflexivity.
  destruct (exec c w) as [r w']. apply IH.
Qed.

Lemma run_call (c : cmd) (w : World) : run (call c) w = exec c w.
Proof.
  unfold call. simpl. destruct (exec c w) as [[a | e] w']; reflexivity.
Qed.

Lemma exec_env (c : cmd) (w : World) : env (exec c w).2 = env w.
Proof.
  unfold exec. destruct (fault_of c w); [reflexivity |].
  destruct (perform c w) as [r w'] eqn:E. simpl.
  destruct c; simpl in E;
    repeat match type of E with
           | context [if ?b then _ else _] => destruct b
           | context [match ?x with _ => _ end] => destruct x
           end; inversion E; reflexivity.
Qed.

Lemma run_env {A} (p : prog A) (w : World) : env (run p w).2 = env w.
Proof.
  revert w. induction p as [a | e | c k IH]; intros w; simpl; try reflexivity.
  pose proof (exec_env c w) as H.
  destruct (exec c w) as [r w']. rewrite IH. exact H.
Qed.

Lemma exec_through (c : cmd) (w : World) :
  fault_of c w = None ->
  exec c w = ((perform c w).1,
              record_event c (error_of (perform c w).1) (perform c w).2).
Proof. intros H. unfold exec. rewrite H. destruct (perform c w); reflexivity. Qed.

Lemma exec_raises (c : cmd) (w : World) (e : string) :
  fault_of c w = Some e -> exec c w = (Raise e, record_event c (Some e) w).
Proof. intros H. unfold exec. rewrite H. reflexivity. Qed.


Lemma limiter_rejects (o : RateLimitOptions) (req : Request) (w : World) :
  redis_fault (env w) (S (length (history w))) = None ->
  JS.geb (count_now req w) (JS.Num (maxRequests o)) = true ->
  exists v w',
    run (createRateLimit o req) w = (Ok v, w')
    /\ allowed v = false
    /\ redis w' = redis w /\ db w' = db w /\ clock w' = clock w
    /\ env w' = env w
    /\ history w' = history w ++
         [ {| ev_cmd := DateNow; ev_error := None |};
           {| ev_cmd := RedisGET (counter_key req); ev_error := None |} ].
Proof.
  intros Hget Hge. unfold createRateLimit. cbv zeta.
  unfold RedisService.get, RedisService.set.
  run_cbn.
  rewrite exec_through by reflexivity. run_cbn.
  rewrite exec_through.
  2:{ cbn [fault_of service_of record_event history env].
      rewrite length_app. cbn [length]. rewrite Nat.add_1_r. exact Hget. }
  run_cbn. cbn [record_event redis clock history env db].
  fold (counter_key req). unfold count_now, current_count in Hge.
  rewrite Hge. run_cbn.
  eexists _, _. split; [reflexivity |].
  cbn. rewrite <- app_assoc. repeat split; reflexivity.
Qed.

Lemma history_index (w : World) (evs : list Event) :
  length (history w ++ evs) = (length (history w) + length evs)%nat.
Proof. apply length_app. Qed.

Lemma limiter_admits (o : RateLimitOptions) (req : Request) (w : World) :
  redis_reliable w ->
  0 < JS.ceil_seconds (windowMs o) ->
  JS.geb (count_now req w) (JS.Num (maxRequests o)) = false ->
  exists v w',
    run (createRateLimit o req) w = (Ok v, w')
    /\ allowed v = true
    /\ redis w' =
         Store.SETEX (clock w) (counter_key req) (JS.ceil_seconds (windowMs o))
           (JS.toString (JS.add (count_now req w) (JS.Num 1))) (redis w)
    /\ db w' = db w /\ clock w' = clock w /\ env w' = env w
    /\ history w' = history w ++
         [ {| ev_cmd := DateNow; ev_error := None |};
           {| ev_cmd := RedisGET (counter_key req); ev_error := None |};
           {| ev_cmd := RedisSETEX (counter_key req)
                          (JS.ceil_seconds (windowMs o))
                          (JS.toString (JS.add (count_now req w) (JS.Num 1)));
              ev_error := None |} ].
Proof.
  intros Hup Httl Hlt. unfold createRateLimit. cbv zeta.
  unfold RedisService.get, RedisService.set.
  run_cbn.
  rewrite exec_through by reflexivity. run_cbn.
  rewrite exec_through by apply Hup.
  run_cbn. cbn [record_event redis clock history env db].
  fold (counter_key req). unfold count_now, current_count in *.
  rewrite Hlt.
  destruct (JS.ceil_seconds (windowMs o) =? 0) eqn:Ez; [lia |].
  run_cbn.
  rewrite exec_through by apply Hup.
  cbn [perform]. destruct (JS.ceil_seconds (windowMs o) <=? 0) eqn:El; [lia |].
  run_cbn.
  eexists _, _. split; [reflexivity |].
  cbn. rewrite <- !app_assoc. repeat split; reflexivity.
Qed.

Lemma get_after_setex (t t' s : Z) (k v : string) (r : Redis) :
  Store.GET t' k (Store.SETEX t k s v r) =
  if t + s * 1000 <? t' then None else Some v.
Proof.
  unfold Store.GET, Store.SETEX. cbn [strings with_strings].
  rewrite lookup_insert_eq. reflexivity.
Qed.

Lemma get_expired (t' : Z) (k v : string) (e : Z) (r : Redis) :
  strings r !! k = Some (v, Some e) -> e < t' -> Store.GET t' k r = None.
Proof.
  intros H Hlt. unfold Store.GET. rewrite H. cbn.
  destruct (e <? t') eqn:E; [reflexivity | lia].
Qed.

Lemma reliable_with_clock (t : Z) (w : World) :
  redis_reliable w -> redis_reliable (with_clock t w).
Proof. intros H n. apply H. Qed.

Lemma reliable_env (w w' : World) :
  env w' = env w -> redis_reliable w -> redis_reliable w'.
Proof. intros E H n. rewrite E. apply H. Qed.

Ltac counted_call Hrel :=
  match goal with
  | |- context [run (createRateLimit ?o ?req) (with_clock ?t ?w)] =>
      let v := fresh "v" in let w' := fresh "w" in
      let Hrun := fresh "Hrun" in let Hv := fresh "Hv" in
      let Hr := fresh "Hredis" in let He := fresh "Henv" in
      destruct (limiter_admits o req (with_clock t w)) as
        (v & w' & Hrun & Hv & Hr & _ & _ & He & _);
      [ apply reliable_with_clock, Hrel | lia |
      | rewrite Hrun; cbn [decision]; rewrite Hv ]
  end.

(** C7.  Window 60 seconds, maximum 3, a fresh key and a counter store
    that answers.  Four calls served one after the other, all within one
    window length of the first, are let through, let through, let through
    and refused.  A call made once the window has elapsed since the
    counter was last written (by the third call) is let through again. *)
Theorem C7_three_then_refuse_then_reset
    (o : RateLimitOptions) (req : Request) (w : World) (t1 t2 t3 t4 t5 : Z) :
  windowMs o = 60 * 1000 -> maxRequests o = 3 ->
  redis_reliable w ->
  Store.GET t1 (counter_key req) (redis w) = None ->
  t1 <= t2 -> t2 <= t3 -> t3 <= t4 -> t4 <= t1 + 60 * 1000 ->
  t3 + 60 * 1000 < t5 ->
  sequentially (createRateLimit o req) [t1; t2; t3; t4; t5] w =
  [Some true; Some true; Some true; Some false; Some true].
Proof.
  intros Hw Hm Hrel Hfresh H12 H23 H34 H41 H35.
  assert (Httl : JS.ceil_seconds (windowMs o) = 60)
    by (rewrite Hw; reflexivity).
  cbn [sequentially].
  (* first call *)
  assert (C1 : count_now req (with_clock t1 w) = JS.Num 0).
  { unfold count_now. cbn [clock redis with_clock]. rewrite Hfresh.
    reflexivity. }
  counted_call Hrel. { rewrite C1, Hm. reflexivity. }
  rewrite C1, Httl in Hredis. cbn [clock redis with_clock] in Hredis.
  assert (Hrel1 : redis_reliable w0)
    by (eapply reliable_env; [exact Henv | apply reliable_with_clock, Hrel]).
  (* second call *)
  assert (C2 : count_now req (with_clock t2 w0) = JS.Num 1).
  { unfold count_now. cbn [clock redis with_clock].
    rewrite Hredis, get_after_setex.
    destruct (t1 + 60 * 1000 <? t2) eqn:E; [lia | reflexivity]. }
  counted_call Hrel1. { rewrite C2, Hm. reflexivity. }
  rewrite C2, Httl in Hredis0. cbn [clock redis with_clock] in Hredis0.
  assert (Hrel2 : redis_reliable w1)
    by (eapply reliable_env; [exact Henv0 | apply reliable_with_clock, Hrel1]).
  (* third call *)
  assert (C3 : count_now req (with_clock t3 w1) = JS.Num 2).
  { unfold count_now. cbn [clock redis with_clock].
    rewrite Hredis0, get_after_setex.
    destruct (t2 + 60 * 1000 <? t3) eqn:E; [lia | reflexivity]. }
  counted_call Hrel2. { rewrite C3, Hm. reflexivity. }
  rewrite C3, Httl in Hredis1. cbn [clock redis with_clock] in Hredis1.
  assert (Hrel3 : redis_reliable w2)
    by (eapply reliable_env; [exact Henv1 | apply reliable_with_clock, Hrel2]).
  (* fourth call: refused *)
  assert (C4 : count_now req (with_clock t4 w2) = JS.Num 3).
  { unfold count_now. cbn [clock redis with_clock].
    rewrite Hredis1, get_after_setex.
    destruct (t3 + 60 * 1000 <? t4) eqn:E; [lia | reflexivity]. }
  destruct (limiter_rejects o req (with_clock t4 w2)) as
    (v3 & w3 & Hrun3 & Hv3 & Hredis3 & _ & _ & Henv3 & _).
  { apply reliable_with_clock, Hrel3. }
  { rewrite C4, Hm. reflexivity. }
  rewrite Hrun3. cbn [decision]. rewrite Hv3.
  cbn [clock redis with_clock] in Hredis3.
  assert (Hrel4 : redis_reliable w3)
    by (eapply reliable_env; [exact Henv3 | apply reliable_with_clock, Hrel3]).
  (* fifth call, after the window *)
  assert (C5 : count_now req (with_clock t5 w3) = JS.Num 0).
  { unfold count_now. cbn [clock redis with_clock].
    rewrite Hredis3, Hredis1, get_after_setex.
    destruct (t3 + 60 * 1000 <? t5) eqn:E; [reflexivity | lia]. }
  counted_call Hrel4. { rewrite C5, Hm. reflexivity. }
  reflexivity.
Qed.

(** ** The rate limiter *)

(** Every way a call of the middleware can go: the GET raises; the
    request is refused; the request is counted; writing the counter
    raises. *)
Lemma limiter_cases (o : RateLimitOptions) (req : Request) (w : World) :
  let k := counter_key req in
  let n := S (length (history w)) in
  let get_ok := {| ev_cmd := RedisGET k; ev_error := None |} in
  let now := {| ev_cmd := DateNow; ev_error := None |} in
  let r := run (createRateLimit o req) w in
  (exists e, redis_fault (env w) n = Some e
     /\ r.1 = Ok NextUnlimited
     /\ redis r.2 = redis w
     /\ history r.2 = history w ++
          [now; {| ev_cmd := RedisGET k; ev_error := Some e |};
           {| ev_cmd := ConsoleError ("Rate limiting error: " +:+ e);
              ev_error := None |}])
  \/ (exists v, r.1 = Ok v /\ allowed v = false
        /\ redis r.2 = redis w
        /\ history r.2 = history w ++ [now; get_ok])
  \/ (exists v c, r.1 = Ok v /\ allowed v = true
        /\ v <> NextUnlimited
        /\ ((exists x, c = RedisSET k x) \/ (exists s x, c = RedisSETEX k s x))
        /\ history r.2 = history w ++
              [now; get_ok; {| ev_cmd := c; ev_error := None |}])
  \/ (exists c e, service_of c = RedisServer
        /\ r.1 = Ok NextUnlimited
        /\ redis r.2 = redis w
        /\ history r.2 = history w ++
              [now; get_ok; {| ev_cmd := c; ev_error := Some e |};
               {| ev_cmd := ConsoleError ("Rate limiting error: " +:+ e);
                  ev_error := None |}]).
Proof.
  cbv zeta. unfold createRateLimit. cbv zeta.
  unfold RedisService.get, RedisService.set. run_cbn.
  rewrite exec_through by reflexivity. run_cbn.
  fold (counter_key req).
  destruct (redis_fault (env w) (S (length (history w)))) as [e |] eqn:Hget.
  - left. exists e. split; [reflexivity |].
    rewrite (exec_raises _ _ e).
    2:{ cbn [fault_of service_of record_event history env].
        rewrite length_app, Nat.add_1_r. exact Hget. }
    run_cbn. rewrite exec_through by reflexivity. run_cbn.
    cbn. rewrite <- !app_assoc. repeat split; reflexivity.
  - right. rewrite exec_through.
    2:{ cbn [fault_of service_of record_event history env].
        rewrite length_app, Nat.add_1_r. exact Hget. }
    run_cbn. cbn [record_event redis clock].
    set (cur := if JS.truthy _ then _ else _).
    destruct (JS.geb cur (JS.Num (maxRequests o))).
    + left. run_cbn. eexists. cbn. rewrite <- !app_assoc.
      repeat split; reflexivity.
    + right.
      assert (Hidx : forall c e0 e1,
                 fault_of c (record_event (RedisGET (counter_key req)) e1
                               (record_event DateNow e0 w))
                 = match service_of c with
                   | Postgres => db_fault (env w) (S (S (length (history w))))
                   | RedisServer => redis_fault (env w) (S (S (length (history w))))
                   | _ => None
                   end).
      { intros c e0 e1. unfold fault_of. cbn [record_event history env].
        rewrite !length_app. cbn [length]. rewrite !Nat.add_1_r. reflexivity. }
      destruct (JS.ceil_seconds (windowMs o) =? 0).
      * run_cbn.
        destruct (redis_fault (env w) (S (S (length (history w))))) as [e |] eqn:Hset.
        -- right. rewrite (exec_raises _ _ e) by (rewrite Hidx; reflexivity).
           run_cbn. rewrite exec_through by reflexivity. run_cbn.
           eexists _, e. cbn. rewrite <- !app_assoc. repeat split; reflexivity.
        -- left. rewrite exec_through by (rewrite Hidx; reflexivity).
           run_cbn. eexists _, _. cbn. rewrite <- !app_assoc.
           split; [reflexivity |]. split; [reflexivity |].
           split; [discriminate |]. split; [left; eexists; reflexivity |].
           reflexivity.
      * run_cbn.
        destruct (redis_fault (env w) (S (S (length (history w))))) as [e |] eqn:Hset.
        -- right. rewrite (exec_raises _ _ e) by (rewrite Hidx; reflexivity).
           run_cbn. rewrite exec_through by reflexivity. run_cbn.
           eexists _, e. cbn. rewrite <- !app_assoc. repeat split; reflexivity.
        -- rewrite exec_through by (rewrite Hidx; reflexivity).
           cbn [perform]. destruct (JS.ceil_seconds (windowMs o) <=? 0).
           ++ right. run_cbn. rewrite exec_through by reflexivity. run_cbn.
              eexists _, _. cbn. rewrite <- !app_assoc.
              repeat split; reflexivity.
           ++ left. run_cbn. eexists _, _. cbn. rewrite <- !app_assoc.
              split; [reflexivity |]. split; [reflexivity |].
              split; [discriminate |].
              split; [right; eexists _, _; reflexivity |]. reflexivity.
Qed.

(** C9 (fail open).  Whenever a command sent to the counter store raises
    during a call of the middleware (in particular when the store is
    unreachable, so that every command raises), the call logs the fault
    with [console.error] and hands the request to [next()]: the request is
    let through. *)
Theorem C9_limiter_fails_open
    (o : RateLimitOptions) (req : Request) (w : World) :
  store_raised (events_of (createRateLimit o req) w) ->
  decision (run (createRateLimit o req) w).1 = Some true
  /\ (run (createRateLimit o req) w).1 = Ok NextUnlimited
  /\ exists e,
       last (history (run (createRateLimit o req) w).2) =
       Some {| ev_cmd := ConsoleError ("Rate limiting error: " +:+ e);
               ev_error := None |}.
Proof.
  intros Hraised. unfold events_of in Hraised.
  destruct (limiter_cases o req w)
    as [(e & _ & Hr & _ & Hh) | [(v & Hr & Hv & _ & Hh)
        | [(v & c & Hr & Hv & _ & _ & Hh) | (c & e & _ & Hr & _ & Hh)]]];
    rewrite Hh in Hraised |- *; rewrite drop_app_length in Hraised.
  - rewrite Hr. repeat split. exists e. rewrite last_app. reflexivity.
  - exfalso. unfold store_raised in Hraised.
    rewrite !Exists_cons, Exists_nil in Hraised. cbn in Hraised.
    destruct Hraised as [[? ?] | [[_ [x Hx]] | []]]; discriminate.
  - exfalso. unfold store_raised in Hraised.
    rewrite !Exists_cons, Exists_nil in Hraised. cbn [ev_cmd ev_error] in Hraised.
    destruct Hraised as [[? ?] | [[_ [x Hx]] | [[_ [x Hx]] | []]]]; discriminate.
  - rewrite Hr. repeat split. exists e. rewrite last_app. reflexivity.
Qed.

Lemma C9_limiter_fails_open_witness :
  decision (run (createRateLimit three_per_minute login_request)
              world_without_redis).1 = Some true.
Proof.
  apply (C9_limiter_fails_open three_per_minute login_request
           world_without_redis).
  apply Exists_cons_tl, Exists_cons_hd.
  split; [reflexivity | eexists; reflexivity].
Defined.

Lemma ceil_seconds_covers (ms : Z) : ms <= JS.ceil_seconds ms * 1000.
Proof.
  unfold JS.ceil_seconds.
  pose proof (Z.div_mod (ms + 999) 1000 ltac:(lia)).
  pose proof (Z.mod_pos_bound (ms + 999) 1000 ltac:(lia)). lia.
Qed.

Lemma ceil_seconds_pos (ms : Z) : 0 < ms -> 0 < JS.ceil_seconds ms.
Proof. intros H. pose proof (ceil_seconds_covers ms). lia. Qed.

(** C8, at a concrete input.  A fresh key is counted at instant 0 (window
    60 s): the counter expires at 60000.  A second request at 30000 finds
    the counter alive (it reads 1) and is counted, and the expiry has moved
    to 90000. *)
Lemma C8_counterexample :
  expiry_of (counter_key login_request)
    (redis (run (createRateLimit three_per_minute login_request)
              (with_clock 0 fresh_world)).2) = Some 60000
  /\ count_now login_request
       (with_clock 30000
          (run (createRateLimit three_per_minute login_request)
             (with_clock 0 fresh_world)).2) = JS.Num 1
  /\ expiry_of (counter_key login_request)
       (redis (run (createRateLimit three_per_minute login_request)
                 (with_clock 30000
                    (run (createRateLimit three_per_minute login_request)
                       (with_clock 0 fresh_world)).2)).2) = Some 90000.
Proof. vm_compute. repeat split. Qed.

(** C8, amended.  Every call that is counted writes the counter with a
    fresh time-to-live, whether the key was absent, expired or alive: the
    expiry becomes now + ceil(windowMs / 1000) seconds, so an increment
    within a window moves the expiry.  A refused call leaves the store as
    it was.  The expiry is enforced by the store: a read after that
    instant finds no counter, a read up to it finds the new count, and the
    call itself issues nothing but the clock read, the GET and the SETEX. *)
Theorem C8_every_counted_call_restarts_the_expiry
    (o : RateLimitOptions) (req : Request) (w : World) :
  redis_reliable w -> 0 < windowMs o ->
  (JS.geb (count_now req w) (JS.Num (maxRequests o)) = false ->
     expiry_of (counter_key req) (redis (run (createRateLimit o req) w).2)
     = Some (clock w + JS.ceil_seconds (windowMs o) * 1000)
     /\ (forall t, clock w + JS.ceil_seconds (windowMs o) * 1000 < t ->
           Store.GET t (counter_key req)
             (redis (run (createRateLimit o req) w).2) = None)
     /\ (forall t, t <= clock w + JS.ceil_seconds (windowMs o) * 1000 ->
           Store.GET t (counter_key req)
             (redis (run (createRateLimit o req) w).2)
           = Some (JS.toString (JS.add (count_now req w) (JS.Num 1))))
     /\ ev_cmd <$> events_of (createRateLimit o req) w
        = [DateNow; RedisGET (counter_key req);
           RedisSETEX (counter_key req) (JS.ceil_seconds (windowMs o))
             (JS.toString (JS.add (count_now req w) (JS.Num 1)))])
  /\ (JS.geb (count_now req w) (JS.Num (maxRequests o)) = true ->
        redis (run (createRateLimit o req) w).2 = redis w).
Proof.
  intros Hrel Hw. unfold events_of. split; intros Hc.
  - destruct (limiter_admits o req w Hrel (ceil_seconds_pos _ Hw) Hc)
      as (v & w' & Hrun & _ & Hredis & _ & _ & _ & Hh).
    rewrite Hrun. cbn [snd]. rewrite Hredis, Hh, drop_app_length.
    split; [| split; [| split]].
    + unfold expiry_of, Store.SETEX. cbn [strings with_strings].
      rewrite lookup_insert_eq. reflexivity.
    + intros t Ht. rewrite get_after_setex.
      destruct (_ <? t) eqn:E; [reflexivity | lia].
    + intros t Ht. rewrite get_after_setex.
      destruct (_ <? t) eqn:E; [lia | reflexivity].
    + reflexivity.
  - destruct (limiter_rejects o req w (Hrel _) Hc)
      as (v & w' & Hrun & _ & Hredis & _).
    rewrite Hrun. exact Hredis.
Qed.

Lemma C8_every_counted_call_restarts_the_expiry_witness :
  expiry_of (counter_key login_request)
    (redis (run (createRateLimit three_per_minute login_request)
              fresh_world).2)
  = Some (0 + JS.ceil_seconds (60 * 1000) * 1000).
Proof.
  apply (C8_every_counted_call_restarts_the_expiry
           three_per_minute login_request fresh_world).
  - intros n. reflexivity.
  - reflexivity.
  - reflexivity.
Defined.

(** C3, at a concrete input.  Two calls for the same key under a limit of
    one request per minute, both in flight at instant 0.  Each reads the
    clock and the counter (absent) before the other writes it; each then
    writes 1.  Both requests are let through. *)
Lemma C3_counterexample :
  count_let_through
    (Interleaving.schedule [0; 0; 1; 1; 0; 1]%nat
       ([createRateLimit one_per_minute login_request;
         createRateLimit one_per_minute login_request], fresh_world)).1
  = 2%nat
  /\ maxRequests one_per_minute = 1
  /\ clock (Interleaving.schedule [0; 0; 1; 1; 0; 1]%nat
              ([createRateLimit one_per_minute login_request;
                createRateLimit one_per_minute login_request],
               fresh_world)).2 = 0
  /\ ev_cmd <$> history
       (Interleaving.schedule [0; 0; 1; 1; 0; 1]%nat
          ([createRateLimit one_per_minute login_request;
            createRateLimit one_per_minute login_request], fresh_world)).2
     = [DateNow; RedisGET (counter_key login_request);
        DateNow; RedisGET (counter_key login_request);
        RedisSETEX (counter_key login_request) 60 "1";
        RedisSETEX (counter_key login_request) 60 "1"].
Proof. vm_compute. repeat split. Qed.

Lemma fresh_later (t1 t : Z) (k : string) (r : Redis) :
  Store.GET t1 k r = None -> t1 <= t -> Store.GET t k r = None.
Proof.
  unfold Store.GET. destruct (strings r !! k) as [[v [e |]] |]; cbn; try done.
  destruct (e <? t1) eqn:E1; [| done]. intros _ Ht.
  destruct (e <? t) eqn:E2; [done | lia].
Qed.

Lemma sequential_bound (o : RateLimitOptions) (req : Request) (t1 : Z)
    (ts : list Z) :
  0 < windowMs o ->
  forall (w : World) (c : Z),
    redis_reliable w -> 0 <= c ->
    (forall t, t1 <= t <= t1 + windowMs o ->
               count_now req (with_clock t w) = JS.Num c) ->
    Forall (fun t => t1 <= t <= t1 + windowMs o) ts ->
    Z.of_nat (admissions (sequentially (createRateLimit o req) ts w))
    <= Z.max 0 (maxRequests o - c).
Proof.
  intros Hw. induction ts as [| t ts IH]; intros w c Hrel Hc Hcount Hts.
  - cbn. lia.
  - apply Forall_cons in Hts as [Ht Hts]. cbn [sequentially].
    pose proof (Hcount t Ht) as Hnow.
    destruct (JS.geb (count_now req (with_clock t w)) (JS.Num (maxRequests o)))
      eqn:Hge.
    + destruct (limiter_rejects o req (with_clock t w)) as
        (v & w' & Hrun & Hv & Hredis & _ & _ & Henv & _);
        [apply Hrel | exact Hge |].
      rewrite Hrun. cbn [decision]. rewrite Hv.
      unfold admissions. cbn [List.filter bool_decide].
      rewrite bool_decide_eq_false_2 by discriminate.
      apply (IH w' c); try assumption.
      * eapply reliable_env; [exact Henv | apply reliable_with_clock, Hrel].
      * intros t' Ht'. rewrite <- (Hcount t' Ht').
        unfold count_now. cbn [clock redis with_clock]. rewrite Hredis.
        reflexivity.
    + destruct (limiter_admits o req (with_clock t w)) as
        (v & w' & Hrun & Hv & Hredis & _ & _ & Henv & _);
        [apply reliable_with_clock, Hrel | apply ceil_seconds_pos, Hw
        | exact Hge |].
      rewrite Hrun. cbn [decision]. rewrite Hv.
      unfold admissions. cbn [List.filter].
      rewrite bool_decide_eq_true_2 by reflexivity. cbn [length].
      rewrite Hnow in Hge, Hredis. cbn [JS.geb] in Hge. apply Z.leb_gt in Hge.
      cbn [JS.add clock with_clock redis] in Hredis.
      assert (Z.of_nat (admissions (sequentially (createRateLimit o req) ts w'))
              <= Z.max 0 (maxRequests o - (c + 1))) as Hrest.
      { apply IH; try assumption; [| lia |].
        - eapply reliable_env; [exact Henv | apply reliable_with_clock, Hrel].
        - intros t' Ht'. unfold count_now. cbn [clock redis with_clock].
          rewrite Hredis, get_after_setex.
          pose proof (ceil_seconds_covers (windowMs o)).
          destruct (_ <? t') eqn:E; [lia |].
          unfold current_count. rewrite toString_truthy by lia.
          cbn [default]. apply parseInt_toString. lia. }
      unfold admissions in Hrest. lia.
Qed.

(** C3, amended.  The count is read with one round trip (GET) and
    written back, one higher, with a second one (SET or SETEX): a counted
    call leaves exactly these two store commands in the history, after the
    clock read.  For calls on one key that are served one after the other,
    starting from a fresh key and all falling within one window length of
    the first, the number let through never exceeds [maxRequests]. *)
Theorem C3_two_round_trips_bounded_when_sequential
    (o : RateLimitOptions) (req : Request) (w : World) (t1 : Z) (ts : list Z) :
  redis_reliable w -> 0 < windowMs o ->
  Store.GET t1 (counter_key req) (redis w) = None ->
  Forall (fun t => t1 <= t <= t1 + windowMs o) ts ->
  Z.of_nat (admissions (sequentially (createRateLimit o req) (t1 :: ts) w))
  <= Z.max 0 (maxRequests o)
  /\ forall (w0 : World) h k n,
       (run (createRateLimit o req) w0).1 = Ok (NextCounted h k n) ->
       exists c,
         ev_cmd <$> events_of (createRateLimit o req) w0
         = [DateNow; RedisGET (counter_key req); c]
         /\ ((exists x, c = RedisSET (counter_key req) x)
             \/ (exists s x, c = RedisSETEX (counter_key req) s x)).
Proof.
  intros Hrel Hw Hfresh Hts. split.
  - pose proof (sequential_bound o req t1 (t1 :: ts) Hw w 0 Hrel
                  ltac:(lia)) as Hb.
    rewrite Z.sub_0_r in Hb. apply Hb.
    + intros t Ht. unfold count_now. cbn [clock redis with_clock].
      rewrite (fresh_later t1 t) by (assumption || lia). reflexivity.
    + apply Forall_cons. split; [lia | assumption].
  - intros w0 h k n Hrun.
    destruct (limiter_cases o req w0)
      as [(e & _ & Hr & _) | [(v & Hr & Hv & _)
          | [(v & c & Hr & Hv & _ & Hc & Hh) | (c & e & _ & Hr & _)]]];
      rewrite Hr in Hrun; try discriminate.
    + inversion Hrun; subst. discriminate.
    + exists c. unfold events_of. rewrite Hh, drop_app_length.
      split; [reflexivity | exact Hc].
Qed.

Lemma C3_two_round_trips_bounded_when_sequential_witness :
  Z.of_nat (admissions
              (sequentially (createRateLimit one_per_minute login_request)
                 [0; 10; 20] fresh_world))
  <= Z.max 0 1.
Proof.
  apply (C3_two_round_trips_bounded_when_sequential
           one_per_minute login_request fresh_world 0 [10; 20]).
  - intros n. reflexivity.
  - reflexivity.
  - reflexivity.
  - repeat constructor; cbn; lia.
Defined.

Lemma C7_three_then_refuse_then_reset_witness :
  sequentially (createRateLimit three_per_minute login_request)
    [0; 10; 20; 30; 60021] fresh_world
  = [Some true; Some true; Some true; Some false; Some true].
Proof.
  apply (C7_three_then_refuse_then_reset three_per_minute login_request
           fresh_world 0 10 20 30 60021).
  - reflexivity.
  - reflexivity.
  - intros n. reflexivity.
  - reflexivity.
  - lia.
  - lia.
  - lia.
  - lia.
  - lia.
Defined.

End LimiterProperties.

Section NotificationsProperties.

Import NotificationService.

(** ** NotificationService *)

Lemma reliable_step (w w' : World) :
  env w' = env w -> reliable w -> reliable w'.
Proof. intros E [Hd Hr]. split; intros n; rewrite E; [apply Hd | apply Hr]. Qed.

Lemma run_remove_all (k : string) (victims : list RealtimeEntry) (w : World) :
  reliable w ->
  exists w',
    run (for_each victims (fun m => RedisService.removeFromSet k m)) w
    = (Ok tt, w')
    /\ redis w' = remove_all k victims (redis w)
    /\ db w' = db w /\ clock w' = clock w /\ env w' = env w
    /\ history w' = history w ++
         ((fun m => {| ev_cmd := RedisSREM k m; ev_error := None |})
            <$> victims).
Proof.
  revert w. induction victims as [| m victims IH]; intros w Hrel.
  - exists w. cbn. rewrite app_nil_r. repeat split; reflexivity.
  - unfold RedisService.removeFromSet in *. run_cbn.
    rewrite exec_through by apply Hrel. run_cbn.
    destruct (IH (record_event (RedisSREM k m) None
                    (on_redis (Store.SREM k m) w))) as
      (w' & Hrun & Hredis & Hdb & Hclock & Henv & Hh).
    { eapply reliable_step; [| exact Hrel]. reflexivity. }
    exists w'. split; [exact Hrun |].
    rewrite Hredis, Hdb, Hclock, Henv, Hh. cbn. rewrite <- app_assoc.
    repeat split; reflexivity.
Qed.

Lemma create_enabled (n : Notification) (w : World) :
  reliable w ->
  isEnabled (rule_rows n w) = true ->
  exists w',
    run (createNotification n) w = (Ok tt, w')
    /\ db w' = with_notifications
                 (durable_log w ++ [durable_row n (clock w)]) (db w)
    /\ redis w' = trim (redisKey (userId n))
                    (Store.SADD (set_slot (env w)) (redisKey (userId n))
                       (realtime_entry n (clock w)) (redis w))
    /\ clock w' = clock w /\ env w' = env w
    /\ exists evs,
         ev_cmd <$> drop (length (history w)) (history w')
         = [SqlSelectRuleEnabled (userId n) (type n);
            SqlInsertNotification (userId n) (type n) (title n) (message n)
              (default "{}" (data n));
            DateNow;
            RedisSADD (redisKey (userId n)) (realtime_entry n (clock w));
            RedisSMEMBERS (redisKey (userId n))] ++ evs
         /\ Forall no_error (drop (length (history w)) (history w')).
Proof.
  intros Hrel Hen. unfold createNotification. cbv zeta.
  unfold RedisService.addToSet, RedisService.getSet. run_cbn.
  rewrite exec_through by apply Hrel. run_cbn.
  cbn [record_event db]. fold (rule_rows n w). rewrite Hen. cbn [negb].
  run_cbn.
  rewrite exec_through by apply Hrel. run_cbn.
  rewrite exec_through by reflexivity. run_cbn.
  rewrite exec_through by apply Hrel. run_cbn.
  rewrite exec_through by apply Hrel. run_cbn.
  cbn [record_event on_redis on_db with_redis with_db redis clock db env history].
  set (r1 := Store.SADD _ _ _ _).
  set (members := Store.SMEMBERS _ r1).
  rewrite run_try_catch, run_bind.
  match goal with
  | |- context [run (if ?b then ?p else ?q) ?w0] =>
      destruct (run_remove_all (redisKey (userId n))
                  (if b then take (length members - capacity) members else [])
                  w0) as (w1 & Hrun & Hredis & Hdb & Hclock & Henv & Hh);
        [eapply reliable_step; [| exact Hrel]; reflexivity |];
        assert (Hp : (if b then p else q)
                     = for_each
                         (if b then take (length members - capacity) members
                          else [])
                         (fun m => RedisService.removeFromSet
                                     (redisKey (userId n)) m))
          by (destruct b; reflexivity);
        rewrite Hp, Hrun
  end.
  run_cbn. rewrite exec_through by reflexivity. run_cbn.
  eexists. split; [reflexivity |].
  cbn [record_event db redis clock env history].
  rewrite Hdb, Hredis, Hclock, Henv, Hh.
  cbn [db redis clock env history with_db with_redis].
  split; [reflexivity |]. split.
  { unfold trim. fold members. destruct (bool_decide _); reflexivity. }
  split; [reflexivity |]. split; [reflexivity |].
  cbn [record_event on_redis on_db with_redis with_db history].
  rewrite <- !app_assoc. rewrite drop_app_length.
  eexists. split.
  - rewrite !fmap_app. cbn. reflexivity.
  - rewrite !Forall_app. repeat split; try (repeat constructor).
    apply Forall_fmap. apply Forall_true. intros x. reflexivity.
Qed.

Lemma exec_history (c : cmd) (w : World) :
  history (exec c w).2
  = history w ++ [{| ev_cmd := c; ev_error := error_of (exec c w).1 |}].
Proof.
  unfold exec. destruct (fault_of c w); [reflexivity |].
  destruct (perform c w) as [r w'] eqn:E. cbn.
  assert (history w' = history w) as ->; [| reflexivity].
  destruct c; cbn in E;
    repeat match type of E with
           | context [if ?b then _ else _] => destruct b
           | context [match ?x with _ => _ end] => destruct x
           end; inversion E; reflexivity.
Qed.

Lemma run_history_grows {A} (p : prog A) (w : World) :
  exists evs, history (run p w).2 = history w ++ evs.
Proof.
  revert w. induction p as [a | e | c k IH]; intros w; cbn [run].
  - exists []. cbn. rewrite app_nil_r. reflexivity.
  - exists []. cbn. rewrite app_nil_r. reflexivity.
  - pose proof (exec_history c w) as Hex.
    destruct (exec c w) as [r w1]. cbn [fst snd] in Hex.
    destruct (IH r w1) as [evs Hevs]. rewrite Hevs, Hex, <- app_assoc.
    eexists. reflexivity.
Qed.

Lemma run_history {A} (p : prog A) (w : World) :
  history (run p w).2 = history w ++ events_of p w.
Proof.
  unfold events_of. destruct (run_history_grows p w) as [evs ->].
  rewrite drop_app_length. reflexivity.
Qed.

Lemma events_of_do {A} (c : cmd) (k : result (answer c) -> prog A) (w : World) :
  events_of (Do c k) w
  = {| ev_cmd := c; ev_error := error_of (exec c w).1 |}
    :: events_of (k (exec c w).1) (exec c w).2.
Proof.
  unfold events_of at 1. cbn [run].
  pose proof (exec_history c w) as Hex.
  destruct (exec c w) as [r w1] eqn:E. cbn [fst snd] in *.
  rewrite run_history, Hex, <- app_assoc, drop_app_length. reflexivity.
Qed.

(** In a program without a [try], a command that raised is the end of the
    run, and the run raises the same error. *)
Lemma uncaught_run {A} (p : prog A) (w : World) (ev : Event) (e : string) :
  uncaught p -> ev ∈ events_of p w -> ev_error ev = Some e ->
  (run p w).1 = Raise e.
Proof.
  revert w. induction p as [a | e0 | c k IH]; intros w Hp Hin He.
  - unfold events_of in Hin. cbn in Hin. rewrite drop_all in Hin.
    inversion Hin.
  - unfold events_of in Hin. cbn in Hin. rewrite drop_all in Hin.
    inversion Hin.
  - rewrite events_of_do in Hin. cbn [run]. destruct Hp as [Hraise Hok].
    destruct (exec c w) as [[a | e1] w1]; cbn [fst snd error_of] in *.
    + apply elem_of_cons in Hin as [-> | Hin]; [discriminate He |].
      apply IH; auto.
    + rewrite Hraise in *. unfold events_of in Hin. cbn in Hin.
      rewrite drop_all in Hin.
      apply elem_of_cons in Hin as [-> | Hin]; [| inversion Hin].
      cbn in He |- *. congruence.
Qed.

Lemma uncaught_bind {A B} (p : prog A) (f : A -> prog B) :
  uncaught p -> (forall a, uncaught (f a)) -> uncaught (p ≫= f).
Proof.
  unfold mbind, prog_bind. intros Hp Hf.
  induction p as [a | e | c k IH]; cbn; auto.
  destruct Hp as [Hraise Hok]. split.
  - intros e. rewrite Hraise. reflexivity.
  - intros a. apply IH, Hok.
Qed.

Lemma uncaught_call (c : cmd) : uncaught (call c).
Proof. split; [reflexivity | intros a; exact I]. Qed.

Lemma uncaught_for_each {A} (l : list A) (body : A -> prog unit) :
  (forall x, uncaught (body x)) -> uncaught (for_each l body).
Proof.
  intros Hb. induction l as [| x l IH]; cbn [for_each]; [exact I |].
  apply uncaught_bind; auto.
Qed.

(** A [try] whose handler only logs the error. *)
Lemma logged_try (p : prog unit) (line : string -> string) (w : World) :
  uncaught p ->
  (run (try_catch p (fun e => call (ConsoleError (line e)))) w).1 = Ok tt
  /\ forall ev e,
       ev ∈ events_of (try_catch p (fun e => call (ConsoleError (line e)))) w ->
       ev_error ev = Some e ->
       last (history
               (run (try_catch p (fun e => call (ConsoleError (line e)))) w).2)
       = Some {| ev_cmd := ConsoleError (line e); ev_error := None |}.
Proof.
  intros Hp.
  assert (Hrun : run (try_catch p (fun e => call (ConsoleError (line e)))) w
                 = match run p w with
                   | (Ok a, w') => (Ok a, w')
                   | (Raise e, w') =>
                       (Ok tt, record_event (ConsoleError (line e)) None w')
                   end).
  { rewrite run_try_catch. destruct (run p w) as [[a | e] w']; [reflexivity |].
    reflexivity. }
  split.
  - rewrite Hrun. destruct (run p w) as [[[] | e] w']; reflexivity.
  - intros ev e Hin He. unfold events_of in Hin. rewrite Hrun in *.
    pose proof (fun ev e => uncaught_run p w ev e Hp) as Hun.
    pose proof (run_history p w) as Hh.
    destruct (run p w) as [[a | e'] w'] eqn:E; cbn [fst snd] in *.
    + rewrite Hh, drop_app_length in Hin.
      specialize (Hun ev e Hin He). discriminate.
    + cbn [record_event history] in *. rewrite last_snoc.
      rewrite Hh, <- app_assoc, drop_app_length in Hin.
      apply elem_of_app in Hin as [Hin | Hin].
      * specialize (Hun ev e Hin He). inversion Hun. reflexivity.
      * apply list_elem_of_singleton in Hin. subst ev. discriminate He.
Qed.

Ltac uncaught_call_now :=
  split; [intros ?; reflexivity | intros ?; exact I].

Lemma create_body_logged (n : Notification) (w : World) :
  (run (createNotification n) w).1 = Ok tt
  /\ forall ev e,
       ev ∈ events_of (createNotification n) w -> ev_error ev = Some e ->
       last (history (run (createNotification n) w).2)
       = Some {| ev_cmd := ConsoleError ("Error creating notification: " +:+ e);
                 ev_error := None |}.
Proof.
  unfold createNotification.
  apply (logged_try _ (fun e => "Error creating notification: " +:+ e)).
  apply uncaught_bind; [uncaught_call_now |]. intros rows.
  destruct (negb (isEnabled rows)); [exact I |].
  apply uncaught_bind; [uncaught_call_now |]. intros _. cbv zeta.
  apply uncaught_bind; [uncaught_call_now |]. intros now.
  apply uncaught_bind; [uncaught_call_now |]. intros _.
  apply uncaught_bind; [uncaught_call_now |]. intros members.
  apply uncaught_bind; [| intros _; uncaught_call_now].
  destruct (bool_decide _); [| exact I].
  apply uncaught_for_each. intros x. uncaught_call_now.
Qed.

Lemma create_lookup_fails (n : Notification) (w : World) (e : string) :
  db_fault (env w) (length (history w)) = Some e ->
  db (run (createNotification n) w).2 = db w
  /\ redis (run (createNotification n) w).2 = redis w.
Proof.
  intros H. unfold createNotification. run_cbn.
  rewrite (exec_raises _ _ e) by exact H. run_cbn.
  rewrite exec_through by reflexivity. run_cbn. split; reflexivity.
Qed.

Lemma create_disabled (n : Notification) (w : World) :
  isEnabled (rule_rows n w) = false ->
  db (run (createNotification n) w).2 = db w
  /\ redis (run (createNotification n) w).2 = redis w.
Proof.
  intros Hdis.
  destruct (db_fault (env w) (length (history w))) as [e |] eqn:Hf.
  - eapply create_lookup_fails, Hf.
  - unfold createNotification. run_cbn.
    rewrite exec_through by exact Hf. run_cbn.
    cbn [record_event db]. fold (rule_rows n w). rewrite Hdis.
    cbn [negb]. run_cbn. split; reflexivity.
Qed.

Lemma create_insert_fails (n : Notification) (w : World) (e : string) :
  db_fault (env w) (length (history w)) = None ->
  isEnabled (rule_rows n w) = true ->
  db_fault (env w) (S (length (history w))) = Some e ->
  db (run (createNotification n) w).2 = db w
  /\ redis (run (createNotification n) w).2 = redis w.
Proof.
  intros H0 Hen H1. unfold createNotification. run_cbn.
  rewrite exec_through by exact H0. run_cbn.
  cbn [record_event db]. fold (rule_rows n w). rewrite Hen.
  cbn [negb]. run_cbn.
  rewrite (exec_raises _ _ e) by (fault_at H1). run_cbn.
  rewrite exec_through by reflexivity. run_cbn. split; reflexivity.
Qed.

Lemma create_append_fails (n : Notification) (w : World) (e : string) :
  db_fault (env w) (length (history w)) = None ->
  isEnabled (rule_rows n w) = true ->
  db_fault (env w) (S (length (history w))) = None ->
  redis_fault (env w) (3 + length (history w)) = Some e ->
  durable_log (run (createNotification n) w).2
  = durable_log w ++ [durable_row n (clock w)]
  /\ redis (run (createNotification n) w).2 = redis w.
Proof.
  intros H0 Hen H1 H3. unfold createNotification. run_cbn.
  rewrite exec_through by exact H0. run_cbn.
  cbn [record_event db]. fold (rule_rows n w). rewrite Hen.
  cbn [negb]. run_cbn.
  rewrite exec_through by (fault_at H1). run_cbn.
  rewrite exec_through by reflexivity. run_cbn.
  unfold RedisService.addToSet. run_cbn.
  rewrite (exec_raises _ _ e) by (fault_at H3). run_cbn.
  rewrite exec_through by reflexivity. run_cbn. split; reflexivity.
Qed.

(** C10.  [createNotification] always returns normally, with the same
    (void) value whatever happened.  Any command that raises inside the
    call (the rule lookup, the durable insert, the real-time append or a
    later cache command) ends in the [catch], which logs the error.  A
    failed rule lookup or a failed insert leaves neither a durable row
    nor a cache entry; a failed cache append leaves the durable row
    alone. *)
Theorem C10_create_never_raises (n : Notification) (w : World) :
  (run (createNotification n) w).1 = Ok tt
  /\ (forall ev e,
        ev ∈ events_of (createNotification n) w -> ev_error ev = Some e ->
        last (history (run (createNotification n) w).2)
        = Some {| ev_cmd := ConsoleError
                              ("Error creating notification: " +:+ e);
                  ev_error := None |})
  /\ (forall e,
        db_fault (env w) (length (history w)) = Some e ->
        durable_log (run (createNotification n) w).2 = durable_log w
        /\ redis (run (createNotification n) w).2 = redis w)
  /\ (forall e,
        db_fault (env w) (length (history w)) = None ->
        isEnabled (rule_rows n w) = true ->
        db_fault (env w) (S (length (history w))) = Some e ->
        durable_log (run (createNotification n) w).2 = durable_log w
        /\ redis (run (createNotification n) w).2 = redis w)
  /\ (forall e,
        db_fault (env w) (length (history w)) = None ->
        isEnabled (rule_rows n w) = true ->
        db_fault (env w) (S (length (history w))) = None ->
        redis_fault (env w) (3 + length (history w)) = Some e ->
        durable_log (run (createNotification n) w).2
        = durable_log w ++ [durable_row n (clock w)]
        /\ redis (run (createNotification n) w).2 = redis w).
Proof.
  destruct (create_body_logged n w) as [Hret Hlog].
  split; [exact Hret |]. split; [exact Hlog |].
  unfold durable_log. split; [| split].
  - intros e H. destruct (create_lookup_fails n w e H) as [-> ->]. auto.
  - intros e H0 Hen H1.
    destruct (create_insert_fails n w e H0 Hen H1) as [-> ->]. auto.
  - intros e. apply create_append_fails.
Qed.

Lemma C10_create_never_raises_witness :
  (run (createNotification (alert 1)) world_without_postgres).1 = Ok tt
  /\ durable_log (run (createNotification (alert 1))
                    world_without_postgres).2 = []
  /\ redis (run (createNotification (alert 1)) world_without_postgres).2
     = empty_redis.
Proof.
  pose proof (C10_create_never_raises (alert 1) world_without_postgres)
    as (Hret & _ & Hlost & _).
  split; [exact Hret |].
  apply (Hlost "connection terminated unexpectedly"). reflexivity.
Defined.

Lemma members_after_sadd slot (k : string) (m : RealtimeEntry) (r : Redis) :
  Store.SMEMBERS k (Store.SADD slot k m r)
  = if bool_decide (m ∈ Store.SMEMBERS k r) then Store.SMEMBERS k r
    else slot m (Store.SMEMBERS k r).
Proof.
  unfold Store.SADD. destruct (bool_decide _); [reflexivity |].
  unfold Store.SMEMBERS at 1. cbn [sets with_sets].
  rewrite lookup_insert_eq. reflexivity.
Qed.

Lemma sadd_member (e : Environment) (k : string) (m : RealtimeEntry)
    (r : Redis) :
  slot_sound e ->
  m ∈ Store.SMEMBERS k (Store.SADD (set_slot e) k m r)
  /\ (length (Store.SMEMBERS k (Store.SADD (set_slot e) k m r))
      <= S (length (Store.SMEMBERS k r)))%nat.
Proof.
  intros Hs. rewrite members_after_sadd.
  destruct (bool_decide _) eqn:E.
  - apply bool_decide_eq_true_1 in E. split; [exact E | lia].
  - rewrite (Hs m _). split; [left | cbn; lia].
Qed.

Lemma trim_below_capacity (k : string) (r : Redis) :
  (length (Store.SMEMBERS k r) <= capacity)%nat -> trim k r = r.
Proof.
  intros H. unfold trim. rewrite bool_decide_eq_false_2 by lia. reflexivity.
Qed.

Lemma disabled_rule_rows (n : Notification) (w : World) :
  rule_disabled n w -> rules_unique w -> isEnabled (rule_rows n w) = false.
Proof.
  intros (r & Hin & Hm & Hoff) Huniq. unfold rule_rows, Sql.select_rule_enabled.
  fold (rules_of w).
  assert (Hall : forall r', r' ∈ filter (fun r => rule_user_id r = userId n
                                               /\ rule_type r = type n)
                                  (rules_of w) -> r' = r).
  { intros r' Hr'. apply list_elem_of_filter in Hr' as [[Hu Ht] Hr'].
    destruct Hm as [Hu' Ht']. apply Huniq; auto; congruence. }
  assert (Hr : r ∈ filter (fun r => rule_user_id r = userId n
                                    /\ rule_type r = type n) (rules_of w))
    by (apply list_elem_of_filter; split; assumption).
  destruct (filter _ (rules_of w)) as [| r0 l]; [inversion Hr |].
  rewrite (Hall r0) by left. cbn. rewrite Hoff. reflexivity.
Qed.

Lemma no_rule_rows (n : Notification) (w : World) :
  no_rule n w -> rule_rows n w = [].
Proof.
  intros Hno. unfold rule_rows, Sql.select_rule_enabled. fold (rules_of w).
  destruct (filter _ (rules_of w)) as [| r0 l] eqn:E; [reflexivity |].
  assert (Hr : r0 ∈ filter (fun r => rule_user_id r = userId n
                                     /\ rule_type r = type n) (rules_of w))
    by (rewrite E; left).
  apply list_elem_of_filter in Hr as [Hm Hr]. destruct (Hno r0 Hr Hm).
Qed.

(** C6.  When a rule row exists for (userId, type) with enabled = false,
    the call writes nothing: the relational store (the durable log in
    it) and the real-time store are as before.  When no rule row exists
    and both stores answer, the call appends the durable row, with
    [is_read = false], and adds the entry to the user's real-time set:
    the SADD is issued and raises nothing, and the entry is a member of
    the set afterwards whenever the set held fewer than 50 members
    before. *)
Theorem C6_rule_gates_both_writes (n : Notification) (w : World) :
  (rule_disabled n w -> rules_unique w ->
     db (run (createNotification n) w).2 = db w
     /\ redis (run (createNotification n) w).2 = redis w)
  /\ (no_rule n w -> reliable w ->
        durable_log (run (createNotification n) w).2
        = durable_log w ++ [durable_row n (clock w)]
        /\ is_read (durable_row n (clock w)) = false
        /\ RedisSADD (redisKey (userId n)) (realtime_entry n (clock w))
             ∈ ev_cmd <$> events_of (createNotification n) w
        /\ Forall no_error (events_of (createNotification n) w)
        /\ (slot_sound (env w) ->
            (length (cache_of (userId n) w) < capacity)%nat ->
            realtime_entry n (clock w)
              ∈ cache_of (userId n) (run (createNotification n) w).2)).
Proof.
  split.
  - intros Hdis Huniq.
    destruct (create_disabled n w (disabled_rule_rows n w Hdis Huniq))
      as [Hdb Hredis].
    rewrite Hdb, Hredis. auto.
  - intros Hno Hrel.
    destruct (create_enabled n w Hrel) as
      (w' & Hrun & Hdb & Hredis & _ & _ & evs & Hevs & Hok).
    { rewrite (no_rule_rows n w Hno). reflexivity. }
    unfold events_of, cache_of, durable_log. rewrite Hrun. cbn [snd].
    rewrite Hdb, Hredis, Hevs.
    split; [reflexivity |]. split; [reflexivity |].
    split; [set_solver |]. split; [exact Hok |].
    intros Hslot Hlen.
    destruct (sadd_member (env w) (redisKey (userId n))
                (realtime_entry n (clock w)) (redis w) Hslot) as [Hin Hle].
    rewrite trim_below_capacity; [exact Hin |].
    unfold cache_of in Hlen. lia.
Qed.

Lemma C6_rule_gates_both_writes_witness :
  (db (run (createNotification (alert 1)) muted_world).2 = db muted_world
   /\ redis (run (createNotification (alert 1)) muted_world).2 = empty_redis)
  /\ durable_log (run (createNotification (alert 1)) fresh_world).2
     = [durable_row (alert 1) 0]
  /\ realtime_entry (alert 1) 0
       ∈ cache_of 7 (run (createNotification (alert 1)) fresh_world).2.
Proof.
  pose proof (C6_rule_gates_both_writes (alert 1) muted_world) as [Hoff _].
  pose proof (C6_rule_gates_both_writes (alert 1) fresh_world) as [_ Hon].
  split.
  - apply Hoff.
    + eexists. split; [left |]. split; [split; reflexivity | reflexivity].
    + intros r r' Hr Hr' _ _.
      apply list_elem_of_singleton in Hr, Hr'. congruence.
  - destruct Hon as (Hlog & _ & _ & _ & Hcache).
    + intros r Hr. inversion Hr.
    + split; intros k; reflexivity.
    + split; [exact Hlog |]. apply Hcache.
      * intros m l. symmetry. apply Permutation_cons_append.
      * apply Nat.ltb_lt. reflexivity.
Defined.

Lemma filter_keeps_all {A} (P : A -> Prop) `{forall x, Decision (P x)}
    (l : list A) :
  (forall x, x ∈ l -> P x) -> filter P l = l.
Proof.
  induction l as [| x l IH]; intros Hall; [reflexivity |].
  rewrite filter_cons_True by (apply Hall; left).
  f_equal. apply IH. intros y Hy. apply Hall. right. exact Hy.
Qed.

Lemma filter_drops_all {A} (P : A -> Prop) `{forall x, Decision (P x)}
    (l : list A) :
  (forall x, x ∈ l -> ~ P x) -> filter P l = [].
Proof.
  induction l as [| x l IH]; intros Hall; [reflexivity |].
  rewrite filter_cons_False by (apply Hall; left).
  apply IH. intros y Hy. apply Hall. right. exact Hy.
Qed.

Lemma members_after_srem (k : string) (m : RealtimeEntry) (r : Redis) :
  Store.SMEMBERS k (Store.SREM k m r)
  = filter (fun x => x <> m) (Store.SMEMBERS k r).
Proof.
  unfold Store.SREM. unfold Store.SMEMBERS at 1. cbn [sets with_sets].
  rewrite lookup_insert_eq. reflexivity.
Qed.

Lemma members_after_remove_all (k : string) (victims : list RealtimeEntry)
    (r : Redis) :
  Store.SMEMBERS k (remove_all k victims r)
  = filter (fun x => x ∉ victims) (Store.SMEMBERS k r).
Proof.
  revert r. induction victims as [| v vs IH]; intros r; cbn [remove_all foldl].
  - symmetry. apply filter_keeps_all. intros x _ Hx. inversion Hx.
  - fold (remove_all k vs (Store.SREM k v r)).
    rewrite IH, members_after_srem, list_filter_filter.
    apply list_filter_iff. intros x. rewrite not_elem_of_cons. tauto.
Qed.

Lemma filter_out_front (pre post : list RealtimeEntry) :
  (length (filter (fun x => x ∉ pre) (pre ++ post)) <= length post)%nat
  /\ (NoDup (pre ++ post) -> filter (fun x => x ∉ pre) (pre ++ post) = post).
Proof.
  rewrite filter_app.
  assert (filter (fun x => x ∉ pre) pre = []) as ->.
  { apply filter_drops_all. intros x Hx Hn. exact (Hn Hx). }
  cbn [app]. split.
  - apply length_filter.
  - intros Hnd. apply filter_keeps_all. intros x Hx Hin.
    apply NoDup_app in Hnd as (_ & Hdis & _). exact (Hdis x Hin Hx).
Qed.

Lemma filter_out_prefix (j : nat) (ms : list RealtimeEntry) :
  (length (filter (fun x => x ∉ take j ms) ms) <= length ms - j)%nat
  /\ (NoDup ms -> filter (fun x => x ∉ take j ms) ms = drop j ms).
Proof.
  destruct (filter_out_front (take j ms) (drop j ms)) as [Hle Heq].
  rewrite take_drop in Hle, Heq. rewrite length_drop in Hle.
  split; assumption.
Qed.

(** After a call that gets through a reliable store, the user's set holds
    at most 50 members, whatever the enumeration order; the durable log
    has grown by one row and lost none. *)
Lemma create_keeps_capacity (n : Notification) (w : World) :
  reliable w -> isEnabled (rule_rows n w) = true ->
  (length (cache_of (userId n) (run (createNotification n) w).2)
   <= capacity)%nat
  /\ durable_log (run (createNotification n) w).2
     = durable_log w ++ [durable_row n (clock w)].
Proof.
  intros Hrel Hen.
  destruct (create_enabled n w Hrel Hen) as (w' & Hrun & Hdb & Hredis & _).
  unfold cache_of, durable_log. rewrite Hrun. cbn [snd]. rewrite Hdb, Hredis.
  split; [| reflexivity].
  set (r1 := Store.SADD _ _ _ _). unfold trim.
  set (ms := Store.SMEMBERS (redisKey (userId n)) r1).
  destruct (bool_decide (capacity < length ms)%nat) eqn:E.
  - apply bool_decide_eq_true_1 in E.
    rewrite members_after_remove_all. fold ms.
    destruct (filter_out_prefix (length ms - capacity) ms) as [Hle _]. lia.
  - apply bool_decide_eq_false_1 in E. fold ms. lia.
Qed.

(** C4, evaluated.  Fifty-one notifications for user 7, created one
    second apart against reliable stores, on a Redis server that
    enumerates the members of a set newest first.  The durable log holds
    all 51 rows and the set holds 50 members, but the member that went is
    the fifty-first, the one just added, and the oldest is still there:
    the set holds entries 50 down to 1. *)
Theorem C4_eviction_follows_enumeration_order :
  length (durable_log (create_in_turn (alerts 51) fresh_world_newest_first))
  = 51%nat
  /\ cache_of 7 (create_in_turn (alerts 51) fresh_world_newest_first)
     = alert_entry <$> reverse (seqZ 1 50)
  /\ cache_of 7 (create_in_turn (alerts 50) fresh_world_newest_first)
     = alert_entry <$> reverse (seqZ 1 50).
Proof. vm_compute. repeat split. Qed.

(** On a server that happens to enumerate in insertion order the same
    calls keep entries 2 to 51. *)
Example eviction_in_insertion_order :
  cache_of 7 (create_in_turn (alerts 51) fresh_world)
  = alert_entry <$> seqZ 2 50.
Proof. vm_compute. reflexivity. Qed.

End NotificationsProperties.

Section SchedulerProperties.

Import SchedulerService.

(** ** SchedulerService: the retention sweep *)

(** C5, at a concrete input.  Every table holds a row past its window and
    the first DELETE raises.  The sweep logs the error and ends: the other
    two DELETEs are never sent, and the conversation and the failed post
    are still there. *)
Lemma C5_counterexample :
  ev_cmd <$> history (run cleanupOldData (stale_world first_statement_fails)).2
  = [SqlDeleteOldAnalytics;
     ConsoleError "Error during cleanup: deadlock detected"]
  /\ chatbot_conversations
       (db (run cleanupOldData (stale_world first_statement_fails)).2)
     = [old_conversation]
  /\ Sql.delete_old_conversations sweep_instant [old_conversation] = []
  /\ scheduled_posts
       (db (run cleanupOldData (stale_world first_statement_fails)).2) !! 10
     = Some old_failed_post
  /\ Sql.delete_old_failed_posts sweep_instant {[ 10 := old_failed_post ]} !! 10
     = None.
Proof. vm_compute. repeat split. Qed.

Lemma sweep_first_fails (w : World) (e : string) :
  db_fault (env w) (length (history w)) = Some e ->
  db (run cleanupOldData w).2 = db w
  /\ ev_cmd <$> events_of cleanupOldData w
     = [SqlDeleteOldAnalytics; ConsoleError ("Error during cleanup: " +:+ e)].
Proof.
  intros H0. unfold events_of, cleanupOldData. run_cbn.
  rewrite (exec_raises _ _ e) by exact H0. run_cbn.
  rewrite exec_through by reflexivity. run_cbn.
  cbn [record_event history db]. rewrite <- !app_assoc, drop_app_length.
  split; reflexivity.
Qed.

Lemma sweep_second_fails (w : World) (e : string) :
  db_fault (env w) (length (history w)) = None ->
  db_fault (env w) (S (length (history w))) = Some e ->
  db (run cleanupOldData w).2
  = with_analytics (Sql.delete_old_analytics (clock w) (analytics_data (db w)))
      (db w)
  /\ ev_cmd <$> events_of cleanupOldData w
     = [SqlDeleteOldAnalytics; SqlDeleteOldConversations;
        ConsoleError ("Error during cleanup: " +:+ e)].
Proof.
  intros H0 H1. unfold events_of, cleanupOldData. run_cbn.
  rewrite exec_through by exact H0. run_cbn.
  rewrite (exec_raises _ _ e) by (fault_at H1). run_cbn.
  rewrite exec_through by reflexivity. run_cbn.
  cbn [record_event history db on_db with_db].
  rewrite <- !app_assoc, drop_app_length.
  split; reflexivity.
Qed.

Lemma sweep_third_fails (w : World) (e : string) :
  db_fault (env w) (length (history w)) = None ->
  db_fault (env w) (S (length (history w))) = None ->
  db_fault (env w) (S (S (length (history w)))) = Some e ->
  db (run cleanupOldData w).2
  = with_conversations
      (Sql.delete_old_conversations (clock w) (chatbot_conversations (db w)))
      (with_analytics
         (Sql.delete_old_analytics (clock w) (analytics_data (db w))) (db w))
  /\ ev_cmd <$> events_of cleanupOldData w
     = [SqlDeleteOldAnalytics; SqlDeleteOldConversations;
        SqlDeleteOldFailedPosts;
        ConsoleError ("Error during cleanup: " +:+ e)].
Proof.
  intros H0 H1 H2. unfold events_of, cleanupOldData. run_cbn.
  rewrite exec_through by exact H0. run_cbn.
  rewrite exec_through by (fault_at H1). run_cbn.
  rewrite (exec_raises _ _ e) by (fault_at H2). run_cbn.
  rewrite exec_through by reflexivity. run_cbn.
  cbn [record_event history db on_db with_db clock].
  rewrite <- !app_assoc, drop_app_length.
  split; reflexivity.
Qed.

Lemma sweep_succeeds (w : World) :
  db_reliable w ->
  db (run cleanupOldData w).2
  = with_posts
      (Sql.delete_old_failed_posts (clock w) (scheduled_posts (db w)))
      (with_conversations
         (Sql.delete_old_conversations (clock w)
            (chatbot_conversations (db w)))
         (with_analytics
            (Sql.delete_old_analytics (clock w) (analytics_data (db w)))
            (db w)))
  /\ ev_cmd <$> events_of cleanupOldData w
     = [SqlDeleteOldAnalytics; SqlDeleteOldConversations;
        SqlDeleteOldFailedPosts; ConsoleLog "✅ Cleanup completed"].
Proof.
  intros Hrel. unfold events_of, cleanupOldData. run_cbn.
  rewrite exec_through by apply Hrel. run_cbn.
  rewrite exec_through by apply Hrel. run_cbn.
  rewrite exec_through by apply Hrel. run_cbn.
  rewrite exec_through by reflexivity. run_cbn.
  cbn [record_event history db on_db with_db clock].
  rewrite <- !app_assoc, drop_app_length.
  split; reflexivity.
Qed.

(** C5, amended.  A sweep sends the three DELETEs in the order analytics,
    conversations, failed posts, each with its own window: it keeps the
    analytics rows that are not older than one year, the conversations not
    older than six months, and the posts that are not both failed and
    older than one week.  A DELETE that raises ends the sweep: the error
    is logged, the categories before it stay deleted and the categories
    after it are not attempted in that tick. *)
Theorem C5_sweep_in_order_until_first_failure (w : World) :
  (db_reliable w ->
     ev_cmd <$> events_of cleanupOldData w
     = [SqlDeleteOldAnalytics; SqlDeleteOldConversations;
        SqlDeleteOldFailedPosts; ConsoleLog "✅ Cleanup completed"]
     /\ (forall r, r ∈ analytics_data (db (run cleanupOldData w).2) <->
           r ∈ analytics_data (db w)
           /\ Time.minus (clock w) (Time.Years 1) <= metric_created_at r)
     /\ (forall r, r ∈ chatbot_conversations (db (run cleanupOldData w).2) <->
           r ∈ chatbot_conversations (db w)
           /\ Time.minus (clock w) (Time.Months 6) <= conv_created_at r)
     /\ (forall id p,
           scheduled_posts (db (run cleanupOldData w).2) !! id = Some p <->
           scheduled_posts (db w) !! id = Some p
           /\ ~ (status p = Failed
                 /\ post_created_at p < Time.minus (clock w) (Time.Weeks 1))))
  /\ (forall e,
        db_fault (env w) (length (history w)) = Some e ->
        db (run cleanupOldData w).2 = db w
        /\ ev_cmd <$> events_of cleanupOldData w
           = [SqlDeleteOldAnalytics;
              ConsoleError ("Error during cleanup: " +:+ e)])
  /\ (forall e,
        db_fault (env w) (length (history w)) = None ->
        db_fault (env w) (S (length (history w))) = Some e ->
        chatbot_conversations (db (run cleanupOldData w).2)
        = chatbot_conversations (db w)
        /\ scheduled_posts (db (run cleanupOldData w).2)
           = scheduled_posts (db w)
        /\ ev_cmd <$> events_of cleanupOldData w
           = [SqlDeleteOldAnalytics; SqlDeleteOldConversations;
              ConsoleError ("Error during cleanup: " +:+ e)])
  /\ (forall e,
        db_fault (env w) (length (history w)) = None ->
        db_fault (env w) (S (length (history w))) = None ->
        db_fault (env w) (S (S (length (history w)))) = Some e ->
        scheduled_posts (db (run cleanupOldData w).2)
        = scheduled_posts (db w)
        /\ ev_cmd <$> events_of cleanupOldData w
           = [SqlDeleteOldAnalytics; SqlDeleteOldConversations;
              SqlDeleteOldFailedPosts;
              ConsoleError ("Error during cleanup: " +:+ e)]).
Proof.
  split; [| split; [| split]].
  - intros Hrel. destruct (sweep_succeeds w Hrel) as [-> ->].
    split; [reflexivity |].
    cbn [analytics_data chatbot_conversations scheduled_posts with_posts
         with_conversations with_analytics].
    split; [| split].
    + intros r. unfold Sql.delete_old_analytics.
      rewrite list_elem_of_filter. split; intros [? ?]; split; auto; lia.
    + intros r. unfold Sql.delete_old_conversations.
      rewrite list_elem_of_filter. split; intros [? ?]; split; auto; lia.
    + intros id p. unfold Sql.delete_old_failed_posts.
      rewrite map_lookup_filter_Some. cbn. tauto.
  - intros e. apply sweep_first_fails.
  - intros e H0 H1. destruct (sweep_second_fails w e H0 H1) as [-> ->].
    repeat split; reflexivity.
  - intros e H0 H1 H2. destruct (sweep_third_fails w e H0 H1 H2) as [-> ->].
    repeat split; reflexivity.
Qed.

Lemma C5_sweep_in_order_until_first_failure_witness :
  ev_cmd <$> events_of cleanupOldData (stale_world calm)
  = [SqlDeleteOldAnalytics; SqlDeleteOldConversations;
     SqlDeleteOldFailedPosts; ConsoleLog "✅ Cleanup completed"]
  /\ db (run cleanupOldData (stale_world first_statement_fails)).2 = stale_db.
Proof.
  pose proof (C5_sweep_in_order_until_first_failure (stale_world calm))
    as [Hok _].
  pose proof (C5_sweep_in_order_until_first_failure
                (stale_world first_statement_fails)) as (_ & Hfirst & _).
  split.
  - apply Hok. intros n. reflexivity.
  - apply (Hfirst "deadlock detected"). reflexivity.
Defined.

(** ** SchedulerService: the dispatch tick *)

(** C1, at a concrete input.  One post is due.  When the platform rejects
    it the row is marked failed, but its [error_message] stays empty and
    nothing is written to the notification log or to the real-time sets:
    the only commands sent are the SELECT, the HTTP call and the UPDATE.
    When the platform accepts it the row is marked published with
    [posted_at] set, and again no notification is written. *)
Lemma C1_counterexample :
  scheduled_posts (db (run processScheduledPosts
                         (dispatch_world platform_rejects)).2) !! 10
  = Some {| post_user_id := 7; post_account_id := 1; content := "launch day";
            media_urls := []; scheduled_time := 0; status := Failed;
            error_message := None; posted_at := None; post_created_at := 0 |}
  /\ notifications (db (run processScheduledPosts
                          (dispatch_world platform_rejects)).2) = []
  /\ redis (run processScheduledPosts (dispatch_world platform_rejects)).2
     = empty_redis
  /\ ev_cmd <$> history (run processScheduledPosts
                           (dispatch_world platform_rejects)).2
     = [SqlSelectDuePosts; HttpPost TwitterTweets due_row;
        ConsoleError
          "Twitter publish error: Request failed with status code 401";
        ConsoleError
          "❌ Failed to publish post 10: Request failed with status code 401";
        SqlMarkFailed 10]
  /\ scheduled_posts (db (run processScheduledPosts (dispatch_world calm)).2)
       !! 10
     = Some (Sql.publish_row 60000 due_post)
  /\ notifications (db (run processScheduledPosts (dispatch_world calm)).2)
     = []
  /\ redis (run processScheduledPosts (dispatch_world calm)).2 = empty_redis.
Proof. vm_compute. repeat split. Qed.

Lemma run_publishPost (post : JoinedPost) (w : World) :
  exists w',
    run (SocialMediaService.publishPost post) w
    = (match publish_error (env w) post with
       | None => Ok tt
       | Some e => Raise e
       end, w')
    /\ db w' = db w /\ redis w' = redis w /\ env w' = env w
    /\ clock w' = clock w.
Proof.
  unfold SocialMediaService.publishPost, publish_error. cbv zeta.
  destruct (String.eqb _ "twitter").
  { unfold SocialMediaService.publishToTwitter. run_cbn.
    rewrite exec_through by reflexivity. cbn [perform].
    destruct (http_post (env w) TwitterTweets post); run_cbn;
      rewrite exec_through by reflexivity; run_cbn;
      eexists; repeat split; reflexivity. }
  destruct (String.eqb _ "facebook").
  { unfold SocialMediaService.publishToFacebook. run_cbn.
    rewrite exec_through by reflexivity. cbn [perform].
    destruct (http_post (env w) FacebookFeed post); run_cbn;
      rewrite exec_through by reflexivity; run_cbn;
      eexists; repeat split; reflexivity. }
  destruct (String.eqb _ "instagram").
  { unfold SocialMediaService.publishToInstagram.
    destruct (media_urls (jp_post post)).
    { run_cbn. eexists; repeat split; reflexivity. }
    run_cbn. rewrite exec_through by reflexivity. cbn [perform].
    destruct (http_post (env w) InstagramMedia post); run_cbn.
    { rewrite exec_through by reflexivity. run_cbn.
      eexists; repeat split; reflexivity. }
    rewrite exec_through by reflexivity.
    cbn [perform record_event env].
    destruct (http_post (env w) InstagramMediaPublish post); run_cbn;
      rewrite exec_through by reflexivity; run_cbn;
      eexists; repeat split; reflexivity. }
  destruct (String.eqb _ "linkedin").
  { unfold SocialMediaService.publishToLinkedIn. run_cbn.
    rewrite exec_through by reflexivity. cbn [perform].
    destruct (http_post (env w) LinkedInUgcPosts post); run_cbn;
      rewrite exec_through by reflexivity; run_cbn;
      eexists; repeat split; reflexivity. }
  run_cbn. eexists; repeat split; reflexivity.
Qed.

Lemma db_reliable_step (w w' : World) :
  env w' = env w -> db_reliable w -> db_reliable w'.
Proof. intros E H n. rewrite E. apply H. Qed.

(** What the body of the loop does with one row. *)
Lemma dispatch_one (post : JoinedPost) (w : World) :
  db_reliable w ->
  exists w',
    run (dispatch_body post) w
    = (Ok tt, w')
    /\ db w' = with_posts
                 (alter (mark (env w) (clock w) post) (jp_id post)
                    (scheduled_posts (db w))) (db w)
    /\ redis w' = redis w /\ env w' = env w /\ clock w' = clock w.
Proof.
  intros Hrel.
  destruct (run_publishPost post w) as (w1 & Hrun & Hdb & Hredis & Henv & Hclock).
  unfold dispatch_body. rewrite run_try_catch, run_bind, Hrun. unfold mark.
  assert (Hrel1 : db_reliable w1) by (eapply db_reliable_step; eauto).
  destruct (publish_error (env w) post) as [e |].
  - run_cbn. rewrite exec_through by reflexivity. run_cbn.
    rewrite exec_through by apply Hrel1. run_cbn.
    eexists. split; [reflexivity |].
    cbn [record_event on_db with_db db redis env clock].
    rewrite Hdb, Hredis, Henv, Hclock. repeat split; reflexivity.
  - run_cbn. rewrite exec_through by apply Hrel1. run_cbn.
    rewrite exec_through by reflexivity. run_cbn.
    eexists. split; [reflexivity |].
    cbn [record_event on_db with_db db redis env clock].
    rewrite Hdb, Hredis, Henv, Hclock. repeat split; reflexivity.
Qed.

Lemma dispatch_loop (rows : list JoinedPost) (w : World) :
  db_reliable w ->
  exists w',
    run (for_each rows dispatch_body) w
    = (Ok tt, w')
    /\ db w' = with_posts
                 (mark_all (env w) (clock w) rows (scheduled_posts (db w)))
                 (db w)
    /\ redis w' = redis w /\ env w' = env w /\ clock w' = clock w.
Proof.
  revert w. induction rows as [| post rows IH]; intros w Hrel.
  - exists w. cbn. destruct (db w). repeat split; reflexivity.
  - cbn [for_each]. rewrite run_bind.
    destruct (dispatch_one post w Hrel) as (w1 & Hrun & Hdb & Hredis & Henv & Hclock).
    rewrite Hrun.
    destruct (IH w1) as (w2 & Hrun2 & Hdb2 & Hredis2 & Henv2 & Hclock2).
    { eapply db_reliable_step; eauto. }
    exists w2. split; [exact Hrun2 |].
    rewrite Hdb2, Hredis2, Henv2, Hclock2, Hdb, Hredis, Henv, Hclock.
    repeat split; reflexivity.
Qed.

Lemma dispatch_tick (w : World) :
  db_reliable w ->
  (run processScheduledPosts w).1 = Ok tt
  /\ db (run processScheduledPosts w).2
     = with_posts
         (mark_all (env w) (clock w) (Sql.select_due_posts (clock w) (db w))
            (scheduled_posts (db w))) (db w)
  /\ redis (run processScheduledPosts w).2 = redis w.
Proof.
  intros Hrel.
  change processScheduledPosts with
    (try_catch
       (result ← DatabaseService.query SqlSelectDuePosts;
        for_each result dispatch_body)
       (fun error =>
          call (ConsoleError ("Error processing scheduled posts: " +:+ error)))).
  rewrite run_try_catch, run_bind.
  assert (Hsel : run (DatabaseService.query SqlSelectDuePosts) w
                 = (Ok (Sql.select_due_posts (clock w) (db w)),
                    record_event SqlSelectDuePosts None w)).
  { unfold DatabaseService.query. run_cbn.
    rewrite exec_through by apply Hrel. reflexivity. }
  cbn [answer] in Hsel |- *. rewrite Hsel.
  destruct (dispatch_loop (Sql.select_due_posts (clock w) (db w))
              (record_event SqlSelectDuePosts None w))
    as (w' & Hrun & Hdb & Hredis & _); [apply Hrel |].
  rewrite Hrun. cbn [fst snd]. rewrite Hdb, Hredis.
  repeat split; reflexivity.
Qed.

Lemma joined_ids (d : Database) (l : list (Z * PostRow)) :
  jp_id <$> omap (Sql.join d) l `sublist_of` l.*1.
Proof.
  induction l as [| [id p] l IH]; [constructor |].
  cbn [omap list_omap fmap list_fmap]. unfold Sql.join at 1. cbn [fst snd].
  destruct (social_accounts d !! post_account_id p);
    cbn; [apply sublist_skip | apply sublist_cons]; exact IH.
Qed.

Lemma select_due_NoDup (now : Z) (d : Database) :
  NoDup (jp_id <$> Sql.select_due_posts now d).
Proof.
  unfold Sql.select_due_posts.
  eapply sublist_NoDup; [| apply fmap_sublist, sublist_take].
  rewrite merge_sort_Permutation.
  eapply sublist_NoDup; [| apply fmap_sublist, sublist_filter].
  eapply sublist_NoDup; [| apply joined_ids].
  apply NoDup_fst_map_to_list.
Qed.

Lemma select_due_row (now : Z) (d : Database) (post : JoinedPost) :
  post ∈ Sql.select_due_posts now d ->
  scheduled_posts d !! jp_id post = Some (jp_post post)
  /\ status (jp_post post) = Pending
  /\ scheduled_time (jp_post post) <= now.
Proof.
  unfold Sql.select_due_posts. intros Hin.
  eapply elem_of_sublist in Hin; [| apply sublist_take].
  rewrite merge_sort_Permutation in Hin.
  apply list_elem_of_filter in Hin as [[Hst Hdue] Hin].
  apply list_elem_of_omap in Hin as ([id p] & Hin & Hjoin).
  apply elem_of_map_to_list in Hin.
  unfold Sql.join in Hjoin. cbn [fst snd] in Hjoin.
  destruct (social_accounts d !! post_account_id p); [| discriminate].
  inversion Hjoin; subst post. cbn in *. auto.
Qed.

Lemma mark_all_other (e : Environment) (now id : Z) (rows : list JoinedPost)
    (t : gmap Z PostRow) :
  id ∉ jp_id <$> rows -> mark_all e now rows t !! id = t !! id.
Proof.
  revert t. induction rows as [| r rows IH]; intros t Hid; [reflexivity |].
  cbn [fmap list_fmap] in Hid. apply not_elem_of_cons in Hid as [Hne Hid].
  change (mark_all e now (r :: rows) t)
    with (mark_all e now rows (alter (mark e now r) (jp_id r) t)).
  rewrite IH by exact Hid.
  apply lookup_alter_ne. congruence.
Qed.

Lemma mark_all_lookup (e : Environment) (now : Z) (rows : list JoinedPost)
    (t : gmap Z PostRow) (post : JoinedPost) :
  NoDup (jp_id <$> rows) -> post ∈ rows ->
  mark_all e now rows t !! jp_id post = mark e now post <$> t !! jp_id post.
Proof.
  revert t. induction rows as [| r rows IH]; intros t Hnd Hin;
    [inversion Hin |].
  cbn [fmap list_fmap] in Hnd. apply NoDup_cons in Hnd as [Hfresh Hnd].
  change (mark_all e now (r :: rows) t)
    with (mark_all e now rows (alter (mark e now r) (jp_id r) t)).
  apply elem_of_cons in Hin as [-> | Hin].
  - rewrite mark_all_other by exact Hfresh. apply lookup_alter_eq.
  - rewrite IH by assumption. rewrite lookup_alter_ne; [reflexivity |].
    intros Heq. apply Hfresh. rewrite Heq.
    apply list_elem_of_fmap. exists post. auto.
Qed.

(** C1, amended.  For every row that a dispatch tick selects, with
    PostgreSQL answering: when [publishPost] returns on the row, the post
    is marked published and [posted_at] is the instant of the tick; when
    it throws, the post is marked failed and [posted_at] is left as it
    was.  (Whether [publishPost] returns depends on the row and on the
    platform only, so it is asked of the world the tick starts in.)  In both
    cases the [error_message] of the post is left as it was, and the tick
    writes no notification: the durable log and the real-time store are
    unchanged. *)
Theorem C1_dispatch_marks_and_stays_silent (w : World) (post : JoinedPost) :
  db_reliable w ->
  post ∈ Sql.select_due_posts (clock w) (db w) ->
  ((run (SocialMediaService.publishPost post) w).1 = Ok tt ->
     exists row,
       scheduled_posts (db (run processScheduledPosts w).2) !! jp_id post
       = Some row
       /\ status row = Published /\ posted_at row = Some (clock w)
       /\ error_message row = error_message (jp_post post))
  /\ (forall e,
        (run (SocialMediaService.publishPost post) w).1 = Raise e ->
        exists row,
          scheduled_posts (db (run processScheduledPosts w).2) !! jp_id post
          = Some row
          /\ status row = Failed
          /\ posted_at row = posted_at (jp_post post)
          /\ error_message row = error_message (jp_post post))
  /\ same_notifications w (run processScheduledPosts w).2.
Proof.
  intros Hrel Hin.
  destruct (dispatch_tick w Hrel) as (_ & Hdb & Hredis).
  destruct (select_due_row _ _ _ Hin) as (Hrow & _ & _).
  pose proof (mark_all_lookup (env w) (clock w) _ (scheduled_posts (db w))
                post (select_due_NoDup _ _) Hin) as Hmark.
  destruct (run_publishPost post w) as (w1 & Hpub & _).
  rewrite Hrow in Hmark. unfold same_notifications. rewrite Hdb, Hpub.
  cbn [scheduled_posts notifications with_posts fst].
  rewrite Hmark. unfold mark. split; [| split].
  - intros Hok. destruct (publish_error (env w) post); [discriminate |].
    eexists. split; [reflexivity |]. repeat split; reflexivity.
  - intros e He. destruct (publish_error (env w) post); [| discriminate].
    eexists. split; [reflexivity |]. repeat split; reflexivity.
  - split; [reflexivity | rewrite Hredis; reflexivity].
Qed.

Lemma C1_dispatch_marks_and_stays_silent_witness :
  same_notifications (dispatch_world platform_rejects)
    (run processScheduledPosts (dispatch_world platform_rejects)).2.
Proof.
  apply (C1_dispatch_marks_and_stays_silent
           (dispatch_world platform_rejects) due_row).
  - intros n. reflexivity.
  - replace (Sql.select_due_posts _ _) with [due_row]
      by (vm_compute; reflexivity).
    left.
Defined.

(** ** SchedulerService: the timers *)

(** C2, at a concrete input.  The dispatch job ticks at 00:01:00 and
    again at 00:02:00 while the first invocation is still waiting for the
    platform.  The second tick is not skipped: two invocations of the same
    job are in flight.  Both have read the same pending post, and both
    send it to the platform. *)
Lemma C2_counterexample :
  length (in_flight "postScheduler"
            (happen_all second_tick_during_first started)) = 2%nat
  /\ length (in_flight "postScheduler"
               (happen_all (second_tick_during_first ++ both_go_on) started))
     = 2%nat
  /\ ev_cmd <$> history
       (world (happen_all (second_tick_during_first ++ both_go_on) started))
     = [ConsoleLog "✅ Scheduler service started";
        SqlSelectDuePosts; SqlSelectDuePosts;
        HttpPost TwitterTweets due_row; HttpPost TwitterTweets due_row].
Proof. vm_compute. repeat split. Qed.

Lemma start_registers (p : Process) :
  jobs (start p) !! "postScheduler" = Some postSchedulerJob
  /\ jobs (start p) !! "analytics" = Some analyticsJob
  /\ jobs (start p) !! "cleanup" = Some cleanupJob.
Proof.
  unfold start. cbn [jobs]. repeat split.
  - rewrite lookup_insert_ne by discriminate.
    rewrite lookup_insert_ne by discriminate. apply lookup_insert_eq.
  - rewrite lookup_insert_ne by discriminate. apply lookup_insert_eq.
  - apply lookup_insert_eq.
Qed.

(** C2, amended.  For each of the three jobs that [start] registers,
    under whatever name it is filed: a tick at an instant that the job's
    pattern matches starts a new invocation of the job's action, whether
    or not earlier invocations of that job are still in flight.  No tick
    is skipped; the invocations in flight are the earlier ones and the new
    one. *)
Theorem C2_every_tick_starts_an_invocation
    (p : Process) (name : string) (j : CronJob) :
  j ∈ [postSchedulerJob; analyticsJob; cleanupJob] ->
  jobs p !! name = Some j ->
  cron_matches (cronTime j) (clock (world p)) = true ->
  in_flight name (happen (Tick name) p)
  = in_flight name p ++ [{| job := name; rest := onTick j |}]
  /\ world (happen (Tick name) p) = world p.
Proof.
  intros Hj Hreg Hmatch. cbn [happen]. unfold tick. rewrite Hreg, Hmatch.
  cbn [world]. split; [| reflexivity].
  unfold in_flight. cbn [invocations]. rewrite filter_app. f_equal.
  rewrite filter_cons_True; [reflexivity |].
  cbn [job]. split; [reflexivity |].
  rewrite !elem_of_cons in Hj.
  destruct Hj as [-> | [-> | [-> | Hj]]]; [reflexivity .. | inversion Hj].
Qed.

Lemma C2_every_tick_starts_an_invocation_witness :
  in_flight "postScheduler"
    (happen (Tick "postScheduler")
       (happen_all [Tick "postScheduler"; Resume 0; Elapse 60000] started))
  = in_flight "postScheduler"
      (happen_all [Tick "postScheduler"; Resume 0; Elapse 60000] started)
    ++ [{| job := "postScheduler"; rest := processScheduledPosts |}].
Proof.
  apply (C2_every_tick_starts_an_invocation
           (happen_all [Tick "postScheduler"; Resume 0; Elapse 60000] started)
           "postScheduler" postSchedulerJob).
  - left.
  - reflexivity.
  - reflexivity.
Defined.

End SchedulerProperties.

(** * Further properties *)

Section LimiterEdgesProperties.

Import RateLimiter.

(** ** More on the rate limiter *)

Lemma sequential_decisions (o : RateLimitOptions) (req : Request) (t1 : Z)
    (ts : list Z) :
  0 < windowMs o ->
  forall (w : World) (c : Z),
    redis_reliable w -> 0 <= c ->
    (forall t, t1 <= t <= t1 + windowMs o ->
               count_now req (with_clock t w) = JS.Num c) ->
    Forall (fun t => t1 <= t <= t1 + windowMs o) ts ->
    forall (i : nat) d,
      sequentially (createRateLimit o req) ts w !! i = Some d ->
      d = Some (bool_decide (c + Z.of_nat i < maxRequests o)).
Proof.
  intros Hw. induction ts as [| t ts IH]; intros w c Hrel Hc Hcount Hts i d Hd.
  - destruct i; discriminate Hd.
  - apply Forall_cons in Hts as [Ht Hts]. cbn [sequentially] in Hd.
    pose proof (Hcount t Ht) as Hnow.
    destruct (JS.geb (count_now req (with_clock t w)) (JS.Num (maxRequests o)))
      eqn:Hge.
    + destruct (limiter_rejects o req (with_clock t w)) as
        (v & w' & Hrun & Hv & Hredis & _ & _ & Henv & _);
        [apply Hrel | exact Hge |].
      rewrite Hrun in Hd. cbn [decision] in Hd. rewrite Hv in Hd.
      rewrite Hnow in Hge. cbn [JS.geb] in Hge. apply Z.leb_le in Hge.
      destruct i as [| i]; cbn in Hd.
      * inversion Hd. rewrite bool_decide_eq_false_2 by lia. reflexivity.
      * rewrite (IH w' c) with (i := i) (d := d); try assumption.
        -- rewrite !bool_decide_eq_false_2 by lia. reflexivity.
        -- eapply reliable_env; [exact Henv | apply reliable_with_clock, Hrel].
        -- intros t' Ht'. rewrite <- (Hcount t' Ht').
           unfold count_now. cbn [clock redis with_clock]. rewrite Hredis.
           reflexivity.
    + destruct (limiter_admits o req (with_clock t w)) as
        (v & w' & Hrun & Hv & Hredis & _ & _ & Henv & _);
        [apply reliable_with_clock, Hrel | apply ceil_seconds_pos, Hw
        | exact Hge |].
      rewrite Hrun in Hd. cbn [decision] in Hd. rewrite Hv in Hd.
      rewrite Hnow in Hge, Hredis. cbn [JS.geb] in Hge. apply Z.leb_gt in Hge.
      cbn [JS.add clock with_clock redis] in Hredis.
      destruct i as [| i]; cbn in Hd.
      * inversion Hd. rewrite bool_decide_eq_true_2 by lia. reflexivity.
      * rewrite (IH w' (c + 1)) with (i := i) (d := d); try assumption.
        -- f_equal. apply bool_decide_ext. lia.
        -- eapply reliable_env; [exact Henv | apply reliable_with_clock, Hrel].
        -- lia.
        -- intros t' Ht'. unfold count_now. cbn [clock redis with_clock].
           rewrite Hredis, get_after_setex.
           pose proof (ceil_seconds_covers (windowMs o)).
           destruct (_ <? t') eqn:E; [lia |].
           unfold current_count. rewrite toString_truthy by lia.
           cbn [default]. apply parseInt_toString. lia.
Qed.

(** X1.  Calls on one key served one after the other, from a fresh key and all
    within one window length of the first: call number [i] (counting from
    0) is let through exactly when [i < maxRequests]. *)
Theorem limiter_lets_exactly_max_through
    (o : RateLimitOptions) (req : Request) (w : World) (t1 : Z) (ts : list Z)
    (i : nat) (d : option bool) :
  redis_reliable w -> 0 < windowMs o ->
  Store.GET t1 (counter_key req) (redis w) = None ->
  Forall (fun t => t1 <= t <= t1 + windowMs o) ts ->
  sequentially (createRateLimit o req) (t1 :: ts) w !! i = Some d ->
  d = Some (bool_decide (Z.of_nat i < maxRequests o)).
Proof.
  intros Hrel Hw Hfresh Hts Hd.
  rewrite (sequential_decisions o req t1 (t1 :: ts) Hw w 0 Hrel ltac:(lia))
    with (i := i) (d := d); try assumption.
  - f_equal.
  - intros t Ht. unfold count_now. cbn [clock redis with_clock].
    rewrite (fresh_later t1 t) by (assumption || lia). reflexivity.
  - apply Forall_cons. split; [lia | assumption].
Qed.

Lemma limiter_lets_exactly_max_through_witness :
  Some false = Some (bool_decide (Z.of_nat 3 < 3)).
Proof.
  apply (limiter_lets_exactly_max_through three_per_minute login_request
           fresh_world 0 [10; 20; 30; 40] 3 (Some false)).
  - intros n. reflexivity.
  - reflexivity.
  - reflexivity.
  - repeat constructor; cbn; lia.
  - reflexivity.
Defined.

Lemma counted_verdict (o : RateLimitOptions) (req : Request) (w : World) :
  redis_reliable w ->
  0 < JS.ceil_seconds (windowMs o) ->
  JS.geb (count_now req w) (JS.Num (maxRequests o)) = false ->
  (run (createRateLimit o req) w).1
  = Ok (NextCounted
          {| x_limit := JS.toString (JS.Num (maxRequests o));
             x_remaining :=
               JS.toString (JS.sub (JS.Num (maxRequests o))
                              (JS.add (count_now req w) (JS.Num 1)));
             x_reset := clock w + windowMs o |}
          (counter_key req) (JS.add (count_now req w) (JS.Num 1))).
Proof.
  intros Hup Httl Hlt. unfold createRateLimit. cbv zeta.
  unfold RedisService.get, RedisService.set.
  run_cbn.
  rewrite exec_through by reflexivity. run_cbn.
  rewrite exec_through by apply Hup.
  run_cbn. cbn [record_event redis clock history env db].
  fold (counter_key req). unfold count_now, current_count in *.
  rewrite Hlt.
  destruct (JS.ceil_seconds (windowMs o) =? 0) eqn:Ez; [lia |].
  run_cbn.
  rewrite exec_through by apply Hup.
  cbn [perform]. destruct (JS.ceil_seconds (windowMs o) <=? 0) eqn:El; [lia |].
  run_cbn. reflexivity.
Qed.

Lemma refused_verdict (o : RateLimitOptions) (req : Request) (w : World) :
  redis_fault (env w) (S (length (history w))) = None ->
  JS.geb (count_now req w) (JS.Num (maxRequests o)) = true ->
  (run (createRateLimit o req) w).1
  = Ok (Rejected429
          {| x_limit := JS.toString (JS.Num (maxRequests o));
             x_remaining := "0";
             x_reset := clock w + windowMs o |}
          (default "Too many requests, please try again later." (message o))
          (JS.ceil_seconds (windowMs o))).
Proof.
  intros Hget Hge. unfold createRateLimit. cbv zeta.
  unfold RedisService.get, RedisService.set.
  run_cbn.
  rewrite exec_through by reflexivity. run_cbn.
  rewrite exec_through.
  2:{ cbn [fault_of service_of record_event history env].
      rewrite length_app. cbn [length]. rewrite Nat.add_1_r. exact Hget. }
  run_cbn. cbn [record_event redis clock history env db].
  fold (counter_key req). unfold count_now, current_count in Hge.
  rewrite Hge. run_cbn. reflexivity.
Qed.

(** X2.  The headers of an answer.  When the counter reads [c] and the store
    answers: a request below the maximum is counted and told that
    [maxRequests - c - 1] requests remain, which is never negative; a
    request at or above the maximum is answered 429 with 0 remaining and a
    retry delay of the whole window, rounded up to seconds.  Both are told
    a reset instant one window from now. *)
Theorem limiter_headers
    (o : RateLimitOptions) (req : Request) (w : World) (c : Z) :
  redis_reliable w -> 0 < windowMs o ->
  count_now req w = JS.Num c ->
  (c < maxRequests o ->
     0 <= maxRequests o - c - 1
     /\ (run (createRateLimit o req) w).1
        = Ok (NextCounted
                {| x_limit := JS.toString (JS.Num (maxRequests o));
                   x_remaining := JS.toString (JS.Num (maxRequests o - c - 1));
                   x_reset := clock w + windowMs o |}
                (counter_key req) (JS.Num (c + 1))))
  /\ (maxRequests o <= c ->
        (run (createRateLimit o req) w).1
        = Ok (Rejected429
                {| x_limit := JS.toString (JS.Num (maxRequests o));
                   x_remaining := "0";
                   x_reset := clock w + windowMs o |}
                (default "Too many requests, please try again later."
                   (message o))
                (JS.ceil_seconds (windowMs o)))).
Proof.
  intros Hrel Hw Hc. split; intros Hcmp.
  - split; [lia |].
    rewrite counted_verdict; try assumption.
    + rewrite Hc. cbn [JS.add JS.sub].
      replace (maxRequests o - (c + 1)) with (maxRequests o - c - 1) by lia.
      reflexivity.
    + apply ceil_seconds_pos, Hw.
    + rewrite Hc. cbn [JS.geb]. apply Z.leb_gt. lia.
  - apply refused_verdict; [apply Hrel |].
    rewrite Hc. cbn [JS.geb]. apply Z.leb_le. lia.
Qed.

Lemma limiter_headers_witness :
  (run (createRateLimit three_per_minute login_request) fresh_world).1
  = Ok (NextCounted {| x_limit := "3"; x_remaining := "2"; x_reset := 60000 |}
          (counter_key login_request) (JS.Num 1)).
Proof.
  apply (limiter_headers three_per_minute login_request fresh_world 0).
  - intros n. reflexivity.
  - reflexivity.
  - reflexivity.
  - reflexivity.
Defined.





Lemma limiter_touches_its_key_only (o : RateLimitOptions) (req : Request)
    (w : World) :
  db (run (createRateLimit o req) w).2 = db w
  /\ sets (redis (run (createRateLimit o req) w).2) = sets (redis w)
  /\ forall k, k <> counter_key req ->
       strings (redis (run (createRateLimit o req) w).2) !! k
       = strings (redis w) !! k.
Proof.
  unfold createRateLimit. cbv zeta.
  unfold RedisService.get, RedisService.set. run_cbn.
  rewrite exec_through by reflexivity. run_cbn.
  fold (counter_key req).
  set (w1 := record_event DateNow None w).
  destruct (fault_of (RedisGET (counter_key req)) w1) as [e |] eqn:Hget.
  { rewrite (exec_raises _ _ e) by exact Hget. run_cbn.
    rewrite exec_through by reflexivity. run_cbn. repeat split. }
  rewrite exec_through by exact Hget. run_cbn.
  cbn [record_event redis clock].
  set (cur := if JS.truthy _ then _ else _).
  set (w2 := record_event (RedisGET _) None w1).
  destruct (JS.geb cur (JS.Num (maxRequests o))).
  { run_cbn. repeat split. }
  destruct (JS.ceil_seconds (windowMs o) =? 0).
  - run_cbn.
    match goal with |- context [exec ?c w2] =>
      destruct (fault_of c w2) as [e |] eqn:Hset;
        [rewrite (exec_raises _ _ e) by exact Hset
        | rewrite exec_through by exact Hset]
    end; run_cbn.
    + rewrite exec_through by reflexivity. run_cbn. repeat split.
    + cbn. repeat split. intros k Hk. apply lookup_insert_ne. congruence.
  - run_cbn.
    match goal with |- context [exec ?c w2] =>
      destruct (fault_of c w2) as [e |] eqn:Hset;
        [rewrite (exec_raises _ _ e) by exact Hset
        | rewrite exec_through by exact Hset]
    end.
    + run_cbn. rewrite exec_through by reflexivity. run_cbn. repeat split.
    + cbn [perform]. destruct (JS.ceil_seconds (windowMs o) <=? 0); run_cbn.
      * rewrite exec_through by reflexivity. run_cbn. repeat split.
      * cbn. repeat split. intros k Hk. apply lookup_insert_ne. congruence.
Qed.

Lemma generateKey_route (req req' : Request) :
  ip req = ip req' -> remoteAddress req = remoteAddress req' ->
  user_id req = user_id req' ->
  generateKey req = generateKey req' -> route_of req = route_of req'.
Proof.
  unfold generateKey, route_of. cbv zeta. intros -> -> -> H.
  repeat apply String.app_inj in H. exact H.
Qed.

(** X5.  Routes are limited apart.  For two requests of the same origin and the
    same user on different routes, whatever one call of the middleware on
    the first does (in any world, whichever command fails), the count read
    for the second is the same before and after: no request on one route
    uses up the quota of another.  The call writes nothing but its own
    counter. *)
Theorem routes_are_limited_apart
    (o : RateLimitOptions) (req req' : Request) (w : World) :
  ip req = ip req' -> remoteAddress req = remoteAddress req' ->
  user_id req = user_id req' -> route_of req <> route_of req' ->
  count_now req' (with_clock (clock w) (run (createRateLimit o req) w).2)
  = count_now req' w
  /\ db (run (createRateLimit o req) w).2 = db w
  /\ sets (redis (run (createRateLimit o req) w).2) = sets (redis w).
Proof.
  intros Hip Hra Hu Hroute.
  destruct (limiter_touches_its_key_only o req w) as (Hdb & Hsets & Hother).
  split; [| split; assumption].
  unfold count_now, Store.GET. cbn [clock redis with_clock].
  rewrite Hother; [reflexivity |].
  unfold counter_key. intros Heq. apply String.app_inj in Heq.
  apply Hroute. symmetry. apply generateKey_route; auto.
Qed.

Lemma routes_are_limited_apart_witness :
  count_now register_request
    (with_clock 0
       (run (createRateLimit three_per_minute login_request) fresh_world).2)
  = count_now register_request fresh_world.
Proof.
  apply (routes_are_limited_apart three_per_minute login_request
           register_request fresh_world).
  - reflexivity.
  - reflexivity.
  - reflexivity.
  - discriminate.
Defined.

(** X6.  A window of zero milliseconds (or a negative one above -1000) rounds
    to a time-to-live of 0 seconds, which [RedisService.set] takes for no
    time-to-live at all: the counter is written without an expiry and is
    found at every later instant, so the key never gets a new window. *)
Theorem zero_window_never_expires
    (o : RateLimitOptions) (req : Request) (w : World) :
  redis_reliable w -> -1000 < windowMs o <= 0 ->
  JS.geb (count_now req w) (JS.Num (maxRequests o)) = false ->
  expiry_of (counter_key req) (redis (run (createRateLimit o req) w).2) = None
  /\ forall t,
       Store.GET t (counter_key req) (redis (run (createRateLimit o req) w).2)
       = Some (JS.toString (JS.add (count_now req w) (JS.Num 1))).
Proof.
  intros Hup Hw Hlt.
  assert (Hz : JS.ceil_seconds (windowMs o) = 0).
  { unfold JS.ceil_seconds. apply Z.div_small. lia. }
  unfold createRateLimit. cbv zeta.
  unfold RedisService.get, RedisService.set.
  run_cbn.
  rewrite exec_through by reflexivity. run_cbn.
  rewrite exec_through by apply Hup.
  run_cbn. cbn [record_event redis clock history env db].
  fold (counter_key req). unfold count_now, current_count in *.
  rewrite Hlt, Hz. cbn [Z.eqb]. run_cbn.
  rewrite exec_through by apply Hup. run_cbn.
  unfold expiry_of, Store.GET, Store.SET.
  cbn [record_event on_redis with_redis redis strings with_strings].
  rewrite lookup_insert_eq. split; [reflexivity | intros t; reflexivity].
Qed.

Lemma zero_window_never_expires_witness :
  expiry_of (counter_key login_request)
    (redis (run (createRateLimit zero_window login_request) fresh_world).2)
  = None.
Proof.
  apply (zero_window_never_expires zero_window login_request fresh_world).
  - intros n. reflexivity.
  - cbn. lia.
  - reflexivity.
Defined.

(** X7.  A window of -1000 milliseconds or less gives a negative time-to-live,
    which the store refuses.  A request below the maximum then always ends
    in the [catch]: it is let through, the refusal is logged, and the
    counter is never written, so the limiter never counts anything. *)
Theorem negative_window_never_counts
    (o : RateLimitOptions) (req : Request) (w : World) :
  redis_reliable w -> windowMs o <= -1000 ->
  JS.geb (count_now req w) (JS.Num (maxRequests o)) = false ->
  (run (createRateLimit o req) w).1 = Ok NextUnlimited
  /\ redis (run (createRateLimit o req) w).2 = redis w
  /\ last (history (run (createRateLimit o req) w).2)
     = Some {| ev_cmd :=
                 ConsoleError ("Rate limiting error: "
                               +:+ "ERR invalid expire time in 'setex' command");
               ev_error := None |}.
Proof.
  intros Hup Hw Hlt.
  assert (Hneg : JS.ceil_seconds (windowMs o) < 0).
  { unfold JS.ceil_seconds. apply Z.div_lt_upper_bound; lia. }
  unfold createRateLimit. cbv zeta.
  unfold RedisService.get, RedisService.set.
  run_cbn.
  rewrite exec_through by reflexivity. run_cbn.
  rewrite exec_through by apply Hup.
  run_cbn. cbn [record_event redis clock history env db].
  fold (counter_key req). unfold count_now, current_count in *.
  rewrite Hlt.
  destruct (JS.ceil_seconds (windowMs o) =? 0) eqn:Ez; [lia |].
  run_cbn. rewrite exec_through by apply Hup.
  cbn [perform]. destruct (JS.ceil_seconds (windowMs o) <=? 0) eqn:El; [| lia].
  run_cbn. rewrite exec_through by reflexivity. run_cbn.
  cbn [record_event redis history]. rewrite last_snoc.
  repeat split.
Qed.

Lemma negative_window_never_counts_witness :
  (run (createRateLimit negative_window login_request) fresh_world).1
  = Ok NextUnlimited.
Proof.
  apply (negative_window_never_counts negative_window login_request
           fresh_world).
  - intros n. reflexivity.
  - cbn. lia.
  - reflexivity.
Defined.

End LimiterEdgesProperties.

Section NotificationQueriesProperties.

Import NotificationService.

(** ** More on NotificationService *)

Lemma rule_rows_of_unique (n : Notification) (w : World) (e : option bool) :
  rule_says n w e -> rules_unique w ->
  isEnabled (rule_rows n w) = default false e.
Proof.
  intros (r & Hin & Hm & He) Huniq. unfold rule_rows, Sql.select_rule_enabled.
  fold (rules_of w).
  assert (Hall : forall r', r' ∈ filter (fun r => rule_user_id r = userId n
                                               /\ rule_type r = type n)
                                  (rules_of w) -> r' = r).
  { intros r' Hr'. apply list_elem_of_filter in Hr' as [[Hu Ht] Hr'].
    destruct Hm as [Hu' Ht']. apply Huniq; auto; congruence. }
  assert (Hr : r ∈ filter (fun r => rule_user_id r = userId n
                                    /\ rule_type r = type n) (rules_of w))
    by (apply list_elem_of_filter; split; assumption).
  destruct (filter _ (rules_of w)) as [| r0 l]; [inversion Hr |].
  rewrite (Hall r0) by left. cbn. rewrite He. reflexivity.
Qed.

(** X8.  The other two answers of the rule lookup.  A rule row whose [enabled]
    column is NULL suppresses the notification like a disabled one: nothing
    is written.  A rule row with [enabled = true] lets it through: with
    both stores answering, the durable row is appended and the entry is
    added to the user's set. *)
Theorem null_rule_suppresses_and_enabled_rule_delivers
    (n : Notification) (w : World) :
  rules_unique w ->
  (rule_says n w None ->
     db (run (createNotification n) w).2 = db w
     /\ redis (run (createNotification n) w).2 = redis w)
  /\ (rule_says n w (Some true) -> reliable w ->
        durable_log (run (createNotification n) w).2
        = durable_log w ++ [durable_row n (clock w)]
        /\ RedisSADD (redisKey (userId n)) (realtime_entry n (clock w))
             ∈ ev_cmd <$> events_of (createNotification n) w
        /\ Forall no_error (events_of (createNotification n) w)).
Proof.
  intros Huniq. split.
  - intros Hnull. apply create_disabled.
    rewrite (rule_rows_of_unique n w None Hnull Huniq). reflexivity.
  - intros Hon Hrel.
    destruct (create_enabled n w Hrel) as
      (w' & Hrun & Hdb & _ & _ & _ & evs & Hevs & Hok).
    { rewrite (rule_rows_of_unique n w (Some true) Hon Huniq). reflexivity. }
    unfold events_of, durable_log. rewrite Hrun. cbn [snd].
    rewrite Hdb, Hevs. split; [reflexivity |]. split; [| exact Hok].
    apply elem_of_app. left. repeat constructor.
Qed.

Lemma null_rule_suppresses_and_enabled_rule_delivers_witness :
  db (run (createNotification (alert 1)) undecided_world).2
  = db undecided_world.
Proof.
  apply (null_rule_suppresses_and_enabled_rule_delivers (alert 1)
           undecided_world).
  - intros r r' Hr Hr' _ _.
    apply list_elem_of_singleton in Hr, Hr'. congruence.
  - eexists. split; [left |]. split; [split; reflexivity | reflexivity].
Defined.

(** X9.  The same notification created twice within one millisecond.  With both
    stores answering, the type not switched off and fewer than 50 members
    in the user's set, the durable log gains two rows but the real-time
    store is after the second call as it was after the first: the two
    entries are the same member of the set. *)
Theorem twin_notifications_share_one_entry (n : Notification) (w : World) :
  reliable w -> isEnabled (rule_rows n w) = true ->
  slot_sound (env w) ->
  (length (cache_of (userId n) w) < capacity)%nat ->
  durable_log (run (createNotification n) (run (createNotification n) w).2).2
  = durable_log w ++ [durable_row n (clock w); durable_row n (clock w)]
  /\ redis (run (createNotification n) (run (createNotification n) w).2).2
     = redis (run (createNotification n) w).2
  /\ realtime_entry n (clock w)
       ∈ cache_of (userId n) (run (createNotification n) w).2.
Proof.
  intros Hrel Hen Hslot Hlen.
  destruct (create_enabled n w Hrel Hen) as
    (w1 & Hrun1 & Hdb1 & Hredis1 & Hclock1 & Henv1 & _).
  rewrite Hrun1. cbn [snd].
  destruct (sadd_member (env w) (redisKey (userId n))
              (realtime_entry n (clock w)) (redis w) Hslot) as [Hin Hle].
  rewrite trim_below_capacity in Hredis1 by (unfold cache_of in Hlen; lia).
  assert (Hrel1 : reliable w1) by (eapply reliable_step; eauto).
  assert (Hen1 : isEnabled (rule_rows n w1) = true).
  { unfold rule_rows. rewrite Hdb1. exact Hen. }
  destruct (create_enabled n w1 Hrel1 Hen1) as
    (w2 & Hrun2 & Hdb2 & Hredis2 & _).
  rewrite Hrun2. cbn [snd]. unfold durable_log, cache_of.
  rewrite Hdb2. unfold durable_log. rewrite Hdb1, Hclock1, Henv1 in *.
  cbn [notifications with_notifications]. rewrite <- app_assoc.
  split; [reflexivity |]. rewrite Hredis1 in *. split; [| exact Hin].
  rewrite Hredis2.
  assert (Hsame : Store.SADD (set_slot (env w)) (redisKey (userId n))
                    (realtime_entry n (clock w))
                    (Store.SADD (set_slot (env w)) (redisKey (userId n))
                       (realtime_entry n (clock w)) (redis w))
                  = Store.SADD (set_slot (env w)) (redisKey (userId n))
                      (realtime_entry n (clock w)) (redis w)).
  { unfold Store.SADD at 1. rewrite bool_decide_eq_true_2 by exact Hin.
    reflexivity. }
  rewrite Hsame. apply trim_below_capacity.
  unfold cache_of in Hlen. lia.
Qed.

Lemma twin_notifications_share_one_entry_witness :
  redis (run (createNotification (alert 1))
           (run (createNotification (alert 1)) fresh_world).2).2
  = redis (run (createNotification (alert 1)) fresh_world).2.
Proof.
  apply (twin_notifications_share_one_entry (alert 1) fresh_world).
  - split; intros k; reflexivity.
  - reflexivity.
  - intros m l. symmetry. apply Permutation_cons_append.
  - apply Nat.ltb_lt. reflexivity.
Defined.

Lemma feed_when_redis_answers (uid : Z) (w : World) :
  redis_fault (env w) (length (history w)) = None ->
  (run (NotificationQueries.getRealTimeNotifications uid) w).1
  = Ok (cache_of uid w).
Proof.
  intros Hf. unfold NotificationQueries.getRealTimeNotifications. cbv zeta.
  unfold RedisService.getSet. run_cbn.
  rewrite exec_through by exact Hf. reflexivity.
Qed.

(** X10.  The real-time feed never raises and never writes.  When the store
    answers, the feed is the members of the user's set; when the read
    raises, the error is logged and the feed is the empty list, which the
    caller cannot tell from a user without notifications. *)
Theorem realtime_feed_reads_or_gives_nothing (uid : Z) (w : World) :
  db (run (NotificationQueries.getRealTimeNotifications uid) w).2 = db w
  /\ redis (run (NotificationQueries.getRealTimeNotifications uid) w).2
     = redis w
  /\ (redis_fault (env w) (length (history w)) = None ->
        (run (NotificationQueries.getRealTimeNotifications uid) w).1
        = Ok (cache_of uid w))
  /\ (forall e, redis_fault (env w) (length (history w)) = Some e ->
        (run (NotificationQueries.getRealTimeNotifications uid) w).1 = Ok []
        /\ last (history
                   (run (NotificationQueries.getRealTimeNotifications uid) w).2)
           = Some {| ev_cmd :=
                       ConsoleError
                         ("Error getting real-time notifications: " +:+ e);
                     ev_error := None |}).
Proof.
  unfold NotificationQueries.getRealTimeNotifications. cbv zeta.
  unfold RedisService.getSet. run_cbn.
  destruct (redis_fault (env w) (length (history w))) as [e |] eqn:Hf.
  - rewrite (exec_raises _ _ e) by exact Hf. run_cbn.
    rewrite exec_through by reflexivity. run_cbn.
    cbn [record_event db redis history]. rewrite last_snoc.
    split; [reflexivity |]. split; [reflexivity |].
    split; [intros H; discriminate H |].
    intros e' He'. inversion He'. split; reflexivity.
  - rewrite exec_through by exact Hf. run_cbn.
    split; [reflexivity |]. split; [reflexivity |].
    split; [reflexivity |]. intros e' He'. discriminate He'.
Qed.

Lemma realtime_feed_reads_or_gives_nothing_witness :
  (run (NotificationQueries.getRealTimeNotifications 7)
     world_without_redis).1 = Ok [].
Proof.
  pose proof (realtime_feed_reads_or_gives_nothing 7 world_without_redis)
    as (_ & _ & _ & Hdown).
  apply (Hdown "connect ECONNREFUSED 127.0.0.1:6379"). reflexivity.
Defined.

(** X11.  From a create to the feed.  After a call of [createNotification] that
    both stores answered, for a type not switched off, the feed of the
    user holds at most 50 entries; when the user's set held fewer than 50
    members before the call, the new entry is one of them. *)
Theorem created_notification_shows_in_feed (n : Notification) (w : World) :
  reliable w -> isEnabled (rule_rows n w) = true ->
  exists feed,
    (run (NotificationQueries.getRealTimeNotifications (userId n))
       (run (createNotification n) w).2).1 = Ok feed
    /\ (length feed <= capacity)%nat
    /\ (slot_sound (env w) ->
        (length (cache_of (userId n) w) < capacity)%nat ->
        realtime_entry n (clock w) ∈ feed).
Proof.
  intros Hrel Hen.
  destruct (create_keeps_capacity n w Hrel Hen) as [Hcap _].
  destruct (create_enabled n w Hrel Hen) as
    (w' & Hrun & _ & Hredis & _ & Henv & _).
  rewrite Hrun in *. cbn [snd] in *.
  exists (cache_of (userId n) w').
  split; [| split].
  - apply feed_when_redis_answers. rewrite Henv. apply Hrel.
  - exact Hcap.
  - intros Hslot Hlen. unfold cache_of. rewrite Hredis.
    destruct (sadd_member (env w) (redisKey (userId n))
                (realtime_entry n (clock w)) (redis w) Hslot) as [Hin Hle].
    rewrite trim_below_capacity; [exact Hin |].
    unfold cache_of in Hlen. lia.
Qed.

Lemma created_notification_shows_in_feed_witness :
  exists feed,
    (run (NotificationQueries.getRealTimeNotifications 7)
       (run (createNotification (alert 1)) fresh_world).2).1 = Ok feed
    /\ (length feed <= capacity)%nat.
Proof.
  destruct (created_notification_shows_in_feed (alert 1) fresh_world)
    as (feed & Hfeed & Hlen & _).
  - split; intros k; reflexivity.
  - reflexivity.
  - exists feed. split; assumption.
Defined.

(** X12.  The rules offered by default against the rule that delivery applies.
    [getDefaultNotificationRules] lists every notification type once, for
    the user asked about, and switches off [low_engagement] alone.
    [createNotification], for a user without rule rows, delivers every
    type, [low_engagement] too. *)
Theorem default_rules_disagree_with_delivery (uid : Z) (w : World) :
  (forall ty, exists c,
     filter (fun r => NotificationQueries.type r = ty)
       (NotificationQueries.getDefaultNotificationRules uid)
     = [ {| NotificationQueries.userId := uid;
            NotificationQueries.type := ty;
            NotificationQueries.enabled :=
              bool_decide (ty <> low_engagement);
            NotificationQueries.conditions := c |} ])
  /\ (forall n, type n = low_engagement -> no_rule n w -> reliable w ->
        durable_log (run (createNotification n) w).2
        = durable_log w ++ [durable_row n (clock w)]).
Proof.
  split.
  - intros ty. destruct ty; eexists; reflexivity.
  - intros n _ Hno Hrel.
    destruct (create_enabled n w Hrel) as (w' & Hrun & Hdb & _).
    { rewrite (no_rule_rows n w Hno). reflexivity. }
    rewrite Hrun. unfold durable_log. cbn [snd]. rewrite Hdb. reflexivity.
Qed.

Lemma default_rules_disagree_with_delivery_witness :
  durable_log (run (createNotification (quiet_hours 7)) fresh_world).2
  = [durable_row (quiet_hours 7) 0].
Proof.
  pose proof (default_rules_disagree_with_delivery 7 fresh_world)
    as [_ Hdeliver].
  apply (Hdeliver (quiet_hours 7)).
  - reflexivity.
  - intros r Hr. inversion Hr.
  - split; intros k; reflexivity.
Defined.

End NotificationQueriesProperties.

Section SchedulerJobsProperties.

Import SchedulerService.

(** ** More on the platform adapter *)

Lemma tick_row (w : World) (post : JoinedPost) :
  db_reliable w ->
  post ∈ Sql.select_due_posts (clock w) (db w) ->
  scheduled_posts (db (run processScheduledPosts w).2) !! jp_id post
  = Some (mark (env w) (clock w) post (jp_post post)).
Proof.
  intros Hrel Hin.
  destruct (dispatch_tick w Hrel) as (_ & Hdb & _).
  destruct (select_due_row _ _ _ Hin) as (Hrow & _ & _).
  rewrite Hdb. cbn [scheduled_posts with_posts].
  rewrite (mark_all_lookup (env w) (clock w) _ (scheduled_posts (db w))
             post (select_due_NoDup _ _) Hin), Hrow.
  reflexivity.
Qed.




(** X14.  An Instagram post without media.  [publishPost] returns normally
    without sending any request or logging anything, so a dispatch tick
    that selects the post, with PostgreSQL answering, marks it published
    at the instant of the tick although nothing was sent to the
    platform. *)
Theorem instagram_without_media_is_published_unsent
    (post : JoinedPost) (w : World) :
  String.eqb (JS.lower (jp_platform post)) "instagram" = true ->
  media_urls (jp_post post) = [] ->
  run (SocialMediaService.publishPost post) w = (Ok tt, w)
  /\ (db_reliable w -> post ∈ Sql.select_due_posts (clock w) (db w) ->
      scheduled_posts (db (run processScheduledPosts w).2) !! jp_id post
      = Some (Sql.publish_row (clock w) (jp_post post))).
Proof.
  intros Hig Hmedia.
  assert (Heq : JS.lower (jp_platform post) = "instagram")
    by (apply String.eqb_eq, Hig).
  split.
  - unfold SocialMediaService.publishPost. cbv zeta. rewrite Heq.
    cbn [String.eqb Ascii.eqb Bool.eqb].
    unfold SocialMediaService.publishToInstagram. rewrite Hmedia. reflexivity.
  - intros Hrel Hin. rewrite tick_row by assumption.
    unfold mark, publish_error. cbv zeta. rewrite Heq, Hmedia. reflexivity.
Qed.

Lemma instagram_without_media_is_published_unsent_witness :
  scheduled_posts
    (db (run processScheduledPosts
           (dispatch_world_on "Instagram" platform_rejects)).2) !! 10
  = Some (Sql.publish_row 60000 due_post).
Proof.
  apply (instagram_without_media_is_published_unsent (due_row_on "Instagram")
           (dispatch_world_on "Instagram" platform_rejects)).
  - reflexivity.
  - reflexivity.
  - intros n. reflexivity.
  - replace (Sql.select_due_posts _ _) with [due_row_on "Instagram"]
      by (vm_compute; reflexivity).
    left.
Defined.



(** ** What the jobs can change *)

Lemma issues_bind {A B} (ok : cmd -> Prop) (p : prog A) (f : A -> prog B) :
  issues ok p -> (forall a, issues ok (f a)) -> issues ok (p ≫= f).
Proof.
  unfold mbind, prog_bind. intros Hp Hf.
  induction p as [a | e | c k IH]; simpl; [apply Hf | exact I |].
  destruct Hp as [Hc Hk]. split; [exact Hc |]. intros r. apply IH, Hk.
Qed.

Lemma issues_try_catch {A} (ok : cmd -> Prop) (p : prog A)
    (h : string -> prog A) :
  issues ok p -> (forall e, issues ok (h e)) -> issues ok (try_catch p h).
Proof.
  intros Hp Hh.
  induction p as [a | e | c k IH]; simpl; [exact I | apply Hh |].
  destruct Hp as [Hc Hk]. split; [exact Hc |]. intros r. apply IH, Hk.
Qed.

Lemma issues_call (ok : cmd -> Prop) (c : cmd) : ok c -> issues ok (call c).
Proof. intros Hc. split; [exact Hc |]. intros [a | e]; exact I. Qed.

Lemma issues_for_each {A} (ok : cmd -> Prop) (l : list A)
    (body : A -> prog unit) :
  (forall x, x ∈ l -> issues ok (body x)) -> issues ok (for_each l body).
Proof.
  induction l as [| x l IH]; intros H; [exact I |].
  cbn [for_each]. apply issues_bind.
  - apply H. left.
  - intros _. apply IH. intros y Hy. apply H. right. exact Hy.
Qed.

(** A relation between worlds that every permitted command respects is
    respected by the whole run. *)
Lemma run_issues {A} (R : relation World) (ok : cmd -> Prop) (p : prog A) :
  Reflexive R -> Transitive R ->
  (forall c w, ok c -> R w (exec c w).2) ->
  issues ok p -> forall w, R w (run p w).2.
Proof.
  intros Hrefl Htrans Hexec.
  induction p as [a | e | c k IH]; intros Hp w; simpl;
    [reflexivity | reflexivity |].
  destruct Hp as [Hc Hk]. specialize (Hexec c w Hc).
  destruct (exec c w) as [r w']. simpl in Hexec.
  transitivity w'; [exact Hexec | apply IH, Hk].
Qed.

(** A [try] whose handler only logs never throws. *)
Lemma logging_try_returns (p : prog unit) (line : string -> string)
    (w : World) :
  (run (try_catch p (fun e => call (ConsoleError (line e)))) w).1 = Ok tt.
Proof.
  rewrite run_try_catch. destruct (run p w) as [[[] | e] w']; [reflexivity |].
  run_cbn. rewrite exec_through by reflexivity. reflexivity.
Qed.

(** X16.  The jobs that [start] files never throw into the timer that calls
    them, whatever the stores and the platforms do. *)
Theorem jobs_never_raise (p : Process) (name : string) (j : CronJob)
    (w : World) :
  jobs p !! name = None ->
  jobs (start p) !! name = Some j ->
  (run (onTick j) w).1 = Ok tt.
Proof.
  intros Hnew Hj. unfold start in Hj. cbn [jobs] in Hj.
  repeat (apply lookup_insert_Some in Hj as [[_ <-] | [_ Hj]];
          [apply logging_try_returns with (line := fun e => _ +:+ e) |]).
  congruence.
Qed.

Lemma jobs_never_raise_witness :
  (run cleanupOldData (stale_world first_statement_fails)).1 = Ok tt.
Proof.
  apply (jobs_never_raise
           {| jobs := ∅; invocations := []; world := dispatch_world calm |}
           "cleanup" cleanupJob (stale_world first_statement_fails)).
  - reflexivity.
  - reflexivity.
Defined.

(** ** The dispatch tick *)

Lemma same_moment_refl (w : World) : same_moment w w.
Proof. repeat split. Qed.

Lemma same_moment_trans (w1 w2 w3 : World) :
  same_moment w1 w2 -> same_moment w2 w3 -> same_moment w1 w3.
Proof. intros (? & ? & ?) (? & ? & ?). repeat split; congruence. Qed.













Lemma mark_settles (e : Environment) (now : Z) (post : JoinedPost)
    (p : PostRow) :
  status (mark e now post p) <> Pending.
Proof. unfold mark. destruct (publish_error e post); discriminate. Qed.

(** X18.  With PostgreSQL answering, a post that a tick dispatched is not
    selected again, at whatever later instant, as long as the row is not
    changed from elsewhere: ticks that follow one another send a post at
    most once. *)
Theorem dispatched_post_is_not_selected_again
    (w : World) (post : JoinedPost) (later : Z) :
  db_reliable w ->
  post ∈ Sql.select_due_posts (clock w) (db w) ->
  jp_id post
  ∉ jp_id <$> Sql.select_due_posts later (db (run processScheduledPosts w).2).
Proof.
  intros Hrel Hin Hagain.
  apply list_elem_of_fmap in Hagain as (post' & Hid & Hin').
  destruct (select_due_row _ _ _ Hin') as (Hrow & Hst & _).
  rewrite <- Hid, (tick_row w post Hrel Hin) in Hrow.
  inversion Hrow as [Heq]. rewrite <- Heq in Hst.
  exact (mark_settles _ _ _ _ Hst).
Qed.

Lemma dispatched_post_is_not_selected_again_witness :
  bool_decide
    (10 ∈ jp_id <$> Sql.select_due_posts 120000
                      (db (run processScheduledPosts (dispatch_world calm)).2))
  = false.
Proof.
  apply bool_decide_eq_false_2.
  apply (dispatched_post_is_not_selected_again (dispatch_world calm)
           due_row 120000).
  - intros n. reflexivity.
  - replace (Sql.select_due_posts _ _) with [due_row]
      by (vm_compute; reflexivity).
    left.
Defined.

Lemma earlier_total : Total Sql.earlier.
Proof. intros a b. unfold Sql.earlier. lia. Qed.

Lemma earlier_trans : Transitive Sql.earlier.
Proof. intros a b c. unfold Sql.earlier. lia. Qed.

(** X19.  The selection of a tick: at most ten posts, in the order of their
    scheduled time; a due post of an existing account that is left out is
    left out of a full batch of ten, none of which is scheduled after
    it. *)
Theorem dispatch_takes_the_ten_oldest
    (now : Z) (d : Database) (id : Z) (p : PostRow) (q : JoinedPost) :
  scheduled_posts d !! id = Some p ->
  Sql.join d (id, p) = Some q ->
  Sql.is_due now q ->
  (length (Sql.select_due_posts now d) <= 10)%nat
  /\ StronglySorted Sql.earlier (Sql.select_due_posts now d)
  /\ (q ∈ Sql.select_due_posts now d
      \/ length (Sql.select_due_posts now d) = 10%nat
         /\ forall post, post ∈ Sql.select_due_posts now d ->
              Sql.earlier post q).
Proof.
  intros Hrow Hjoin Hdue. unfold Sql.select_due_posts.
  set (due := filter (Sql.is_due now)
                (omap (Sql.join d) (map_to_list (scheduled_posts d)))).
  pose proof earlier_total as Htot. pose proof earlier_trans as Htrans.
  assert (Hsorted : StronglySorted Sql.earlier (merge_sort Sql.earlier due))
    by apply (StronglySorted_merge_sort _).
  assert (Hq : q ∈ merge_sort Sql.earlier due).
  { rewrite merge_sort_Permutation. apply list_elem_of_filter.
    split; [exact Hdue |]. apply list_elem_of_omap. exists (id, p).
    split; [apply elem_of_map_to_list; exact Hrow | exact Hjoin]. }
  rewrite <- (take_drop 10 (merge_sort Sql.earlier due)) in Hsorted, Hq.
  split; [rewrite length_take; lia |].
  split; [eapply StronglySorted_app_1_l; exact Hsorted |].
  apply elem_of_app in Hq as [Hq | Hq]; [left; exact Hq | right].
  split.
  - rewrite length_take. apply elem_of_not_nil in Hq.
    assert (length (drop 10 (merge_sort Sql.earlier due)) <> 0%nat)
      by (intros H0; apply Hq, nil_length_inv, H0).
    rewrite length_drop in *. lia.
  - intros post Hpost.
    eapply StronglySorted_app_1_elem_of; eassumption.
Qed.

Lemma dispatch_takes_the_ten_oldest_witness :
  length (Sql.select_due_posts 60000 (db backlog_world)) = 10%nat
  /\ forall post,
       post ∈ Sql.select_due_posts 60000 (db backlog_world) ->
       scheduled_time (jp_post post) <= 11.
Proof.
  destruct (dispatch_takes_the_ten_oldest 60000 (db backlog_world) 11
              (backlog_post 11)
              {| jp_id := 11; jp_post := backlog_post 11;
                 jp_platform := "twitter"; jp_access_token := Some "token";
                 jp_account_data := None |})
    as (_ & _ & [Hin | Hfull]).
  - vm_compute. reflexivity.
  - vm_compute. reflexivity.
  - split; [reflexivity | vm_compute; intros H; discriminate H].
  - exfalso. revert Hin. vm_compute. intros Hin.
    repeat (inversion Hin as [| ? ? ? Hin']; subst; clear Hin;
            rename Hin' into Hin).
  - exact Hfull.
Defined.

(** X20.  The platform accepts a post and then the UPDATE that marks it
    published raises.  The handler of the loop body logs the error and
    marks the post failed, if that UPDATE is answered: the post that the
    platform accepted ends as failed.  If that UPDATE raises too, the post
    stays as it was, the error leaves the loop body, and the posts after
    it in the batch are not attempted. *)
Theorem accepted_post_fails_when_marking_raises
    (post : JoinedPost) (rest : list JoinedPost) (w w1 : World) (e : string) :
  run (SocialMediaService.publishPost post) w = (Ok tt, w1) ->
  db_fault (env w) (length (history w1)) = Some e ->
  (db_fault (env w) (S (S (length (history w1)))) = None ->
   (run (dispatch_body post) w).1 = Ok tt
   /\ scheduled_posts (db (run (dispatch_body post) w).2)
      = alter Sql.fail_row (jp_id post) (scheduled_posts (db w)))
  /\ (forall e2,
        db_fault (env w) (S (S (length (history w1)))) = Some e2 ->
        (run (dispatch_body post) w).1 = Raise e2
        /\ db (run (dispatch_body post) w).2 = db w
        /\ run (for_each (post :: rest) dispatch_body) w
           = run (dispatch_body post) w).
Proof.
  intros Hrun H1.
  destruct (run_publishPost post w) as (w1' & Hrun' & Hdb & _ & Henv & _).
  rewrite Hrun in Hrun'. inversion Hrun' as [[Hok Hw]]. subst w1'.
  assert (Hbody : forall (r : result unit) w2,
             run (DatabaseService.query (SqlMarkFailed (jp_id post)))
               (record_event
                  (ConsoleError ("❌ Failed to publish post "
                                 +:+ id_text (jp_id post) +:+ ": " +:+ e))
                  None
                  (record_event (SqlMarkPublished (jp_id post)) (Some e) w1))
             = (r, w2) ->
             run (dispatch_body post) w = (r, w2)).
  { intros r w2 Hr. unfold dispatch_body.
    rewrite run_try_catch, run_bind, Hrun. run_cbn.
    rewrite (exec_raises _ _ e)
      by (unfold fault_of; cbn [service_of]; rewrite Henv; exact H1).
    run_cbn. rewrite exec_through by reflexivity. run_cbn.
    revert Hr. run_cbn. intros Hr. exact Hr. }
  split.
  - intros H2. erewrite Hbody.
    2: { run_cbn. rewrite exec_through by (rewrite <- Henv in H2; fault_at H2).
         run_cbn. reflexivity. }
    cbn [fst snd record_event on_db with_db db with_posts scheduled_posts].
    rewrite Hdb. split; reflexivity.
  - intros e2 H2.
    assert (Hraise : run (dispatch_body post) w
                     = (Raise e2,
                        record_event (SqlMarkFailed (jp_id post)) (Some e2)
                          (record_event
                             (ConsoleError ("❌ Failed to publish post "
                                            +:+ id_text (jp_id post) +:+ ": "
                                            +:+ e))
                             None
                             (record_event (SqlMarkPublished (jp_id post))
                                (Some e) w1)))).
    { apply Hbody. run_cbn.
      rewrite (exec_raises _ _ e2) by (rewrite <- Henv in H2; fault_at H2).
      reflexivity. }
    cbn [for_each]. rewrite run_bind, Hraise.
    cbn [fst snd record_event db]. rewrite Hdb. repeat split; reflexivity.
Qed.

Lemma accepted_post_fails_when_marking_raises_witness :
  scheduled_posts
    (db (run (dispatch_body due_row) (dispatch_world third_command_fails)).2)
  = alter Sql.fail_row 10 (scheduled_posts dispatch_db).
Proof.
  destruct (accepted_post_fails_when_marking_raises due_row []
              (dispatch_world third_command_fails)
              (run (SocialMediaService.publishPost due_row)
                 (dispatch_world third_command_fails)).2
              "Connection terminated") as [Hfirst _].
  - reflexivity.
  - reflexivity.
  - apply Hfirst. reflexivity.
Defined.

(** ** The analytics tick *)

Lemma set_value_identity (v : Z) (r : AnalyticsRow) :
  identity_of (Sql.set_value v r) = identity_of r.
Proof. reflexivity. Qed.

Lemma inserted_at_identity (now : Z) (l1 l2 : list AnalyticsRow) :
  identity_of <$> l1 = identity_of <$> l2 ->
  Forall (inserted_at now) l2 -> Forall (inserted_at now) l1.
Proof.
  revert l2. induction l1 as [| r l1 IH]; intros [| r2 l2] Heq Hall;
    try discriminate; [constructor |].
  cbn [fmap list_fmap] in Heq. inversion Heq as [[Ha Hb Hc Hd He]].
  apply Forall_cons in Hall as [[H1 H2] Hall].
  constructor; [| eapply IH; eassumption].
  split; congruence.
Qed.

Lemma upsert_identity (now acc : Z) (ty : string) (v : Z)
    (t : list AnalyticsRow) :
  exists updated added,
    Sql.upsert_metric now acc ty v t = updated ++ added
    /\ identity_of <$> updated = identity_of <$> t
    /\ Forall (inserted_at now) added.
Proof.
  unfold Sql.upsert_metric. cbv zeta.
  destruct (existsb _ t).
  - eexists _, []. rewrite app_nil_r. split; [reflexivity |].
    split; [| constructor].
    rewrite <- list_fmap_compose. apply list_fmap_ext. intros _ r _.
    cbn. destruct (Sql.same_metric _ _ _ r); reflexivity.
  - eexists t, [_]. split; [reflexivity |]. split; [reflexivity |].
    repeat constructor.
Qed.

Lemma upsert_one_row_per_day (now acc : Z) (ty : string) (v : Z)
    (t : list AnalyticsRow) :
  one_row_per_day t -> one_row_per_day (Sql.upsert_metric now acc ty v t).
Proof.
  unfold one_row_per_day, Sql.upsert_metric. cbv zeta. intros Hnd.
  destruct (existsb _ t) eqn:E.
  - rewrite <- list_fmap_compose.
    erewrite list_fmap_ext; [exact Hnd |]. intros _ r _.
    cbn. destruct (Sql.same_metric _ _ _ r); reflexivity.
  - rewrite fmap_app. apply NoDup_app. split; [exact Hnd |].
    split; [| apply NoDup_singleton].
    intros k Hk Hnew. apply list_elem_of_fmap in Hk as (r & -> & Hr).
    apply list_elem_of_singleton in Hnew.
    assert (Hsame : Sql.same_metric acc ty (Time.date_of now) r = true).
    { unfold Sql.same_metric. apply bool_decide_eq_true.
      unfold metric_key in Hnew. cbn in Hnew. inversion Hnew. auto. }
    assert (Hex : existsb (Sql.same_metric acc ty (Time.date_of now)) t = true).
    { apply existsb_exists. exists r. split; [| exact Hsame].
      apply list_elem_of_In. exact Hr. }
    congruence.
Qed.

Lemma collected_refl : Reflexive collected.
Proof.
  intros w. split; [apply same_moment_refl |].
  repeat (split; [reflexivity |]). split; [auto |].
  exists (analytics_data (db w)), []. rewrite app_nil_r.
  repeat split. constructor.
Qed.

Lemma collected_trans : Transitive collected.
Proof.
  intros w1 w2 w3 (Hm & Ha & Hb & Hc & Hd & He & Hu & u & a & Ht & Hi & Hn)
    (Hm' & Ha' & Hb' & Hc' & Hd' & He' & Hu' & u' & a' & Ht' & Hi' & Hn').
  split; [eapply same_moment_trans; eassumption |].
  repeat (split; [congruence |]). split; [auto |].
  rewrite Ht, fmap_app in Hi'.
  apply fmap_app_inv in Hi' as (u1 & u2 & H1 & H2 & ->).
  exists u1, (u2 ++ a'). rewrite Ht', <- app_assoc.
  split; [reflexivity |]. split; [congruence |].
  destruct Hm as (Hclock & _). rewrite Hclock in Hn'.
  apply Forall_app. split; [| exact Hn'].
  eapply inserted_at_identity; [symmetry; exact H2 | exact Hn].
Qed.

Lemma collected_log (c : cmd) (e : option string) (w w' : World) :
  collected w w' -> collected w (record_event c e w').
Proof. intros H. exact H. Qed.

Lemma exec_collected (c : cmd) (w : World) :
  collect_cmd c -> collected w (exec c w).2.
Proof.
  intros Hok. unfold exec.
  destruct (fault_of c w); [apply collected_log, collected_refl |].
  destruct c; try contradiction; cbn [perform snd];
    try (apply collected_log, collected_refl).
  apply collected_log. split; [repeat split |].
  repeat (split; [reflexivity |]).
  cbn [on_db with_db db with_analytics analytics_data].
  split; [apply upsert_one_row_per_day | apply upsert_identity].
Qed.

Lemma issues_collectAnalytics : issues collect_cmd collectAnalytics.
Proof.
  unfold collectAnalytics. apply issues_try_catch.
  - apply issues_bind; [apply issues_call; exact I |].
    intros accounts. apply issues_for_each. intros account _.
    apply issues_try_catch.
    + apply issues_bind.
      * unfold SocialMediaService.getAnalytics. cbv zeta.
        apply issues_try_catch.
        -- destruct (_ || _); [apply issues_call |]; exact I.
        -- intros e. apply issues_bind; [apply issues_call; exact I |].
           intros _. exact I.
      * intros analytics. apply issues_bind.
        -- apply issues_for_each. intros metric _. apply issues_call. exact I.
        -- intros _. apply issues_call. exact I.
    + intros e. apply issues_call. exact I.
  - intros e. apply issues_call. exact I.
Qed.

(** X21.  An analytics tick, whatever the stores and the platforms do, changes
    [analytics_data] only, and removes and re-dates none of its rows: the
    rows that were there are still there, in place, with at most their
    value changed, followed by rows dated today; a table that had one row
    per account, metric and day still has. *)
Theorem collection_updates_values_and_appends_todays_rows (w : World) :
  collected w (run collectAnalytics w).2.
Proof.
  apply (run_issues collected collect_cmd).
  - apply collected_refl.
  - apply collected_trans.
  - apply exec_collected.
  - apply issues_collectAnalytics.
Qed.

(** ** The cleanup tick *)

Lemma swept_refl : Reflexive swept.
Proof.
  intros w. split; [apply same_moment_refl |].
  repeat (split; [reflexivity |]).
  split; [split; [reflexivity | auto] |].
  split; split; [reflexivity | auto | reflexivity | auto].
Qed.

Lemma swept_trans : Transitive swept.
Proof.
  intros w1 w2 w3
    (Hm & Ha & Hb & Hc & (Hp & Hpk) & (Hn & Hnk) & (Hv & Hvk))
    (Hm' & Ha' & Hb' & Hc' & (Hp' & Hpk') & (Hn' & Hnk') & (Hv' & Hvk')).
  assert (Hclock : clock w2 = clock w1) by apply Hm.
  rewrite Hclock in *.
  split; [eapply same_moment_trans; eassumption |].
  repeat (split; [congruence |]).
  split; [split; [etransitivity; eassumption | auto] |].
  split; (split; [etransitivity; eassumption | auto]).
Qed.

Lemma swept_log (c : cmd) (e : option string) (w w' : World) :
  swept w w' -> swept w (record_event c e w').
Proof. intros H. exact H. Qed.

Lemma exec_swept (c : cmd) (w : World) :
  sweep_cmd c -> swept w (exec c w).2.
Proof.
  intros Hok. unfold exec.
  destruct (fault_of c w); [apply swept_log, swept_refl |].
  destruct c; try contradiction; cbn [perform snd];
    try (apply swept_log, swept_refl); apply swept_log;
    (split; [repeat split |]); repeat (split; [reflexivity |]);
    cbn [on_db with_db db with_analytics with_conversations with_posts
         analytics_data chatbot_conversations scheduled_posts].
  - split; [split; [reflexivity | auto] |].
    split; [| split; [reflexivity | auto]].
    split; [apply sublist_filter |].
    intros r Hr Hk. apply list_elem_of_filter. auto.
  - split; [split; [reflexivity | auto] |].
    split; [split; [reflexivity | auto] |].
    split; [apply sublist_filter |].
    intros r Hr Hk. apply list_elem_of_filter. auto.
  - split; [| split; (split; [reflexivity | auto])].
    split; [apply map_filter_subseteq |].
    intros id p Hp Hk. apply map_lookup_filter_Some. split; [exact Hp |].
    cbn. intros [Hst Hold]. destruct Hk as [Hk | Hk]; auto.
Qed.

Lemma issues_cleanupOldData : issues sweep_cmd cleanupOldData.
Proof.
  unfold cleanupOldData. apply issues_try_catch.
  - repeat (apply issues_bind; [apply issues_call; exact I | intros _]).
    apply issues_call. exact I.
  - intros e. apply issues_call. exact I.
Qed.

(** X22.  A cleanup tick, whatever the stores do, only removes rows, and only
    from [scheduled_posts], [analytics_data] and [chatbot_conversations]:
    the rows that stay are unchanged; a post that is not failed, or was
    created within the last week, stays, however old it is; so do the
    analytics of the last year and the conversations of the last six
    months.  Accounts, notifications, notification rules and Redis are
    never touched: the sweep of the scheduler removes no notification. *)
Theorem sweep_only_removes_what_its_deletes_match (w : World) :
  swept w (run cleanupOldData w).2.
Proof.
  apply (run_issues swept sweep_cmd).
  - apply swept_refl.
  - apply swept_trans.
  - apply exec_swept.
  - apply issues_cleanupOldData.
Qed.

(** ** The three timers *)

Lemma tick_starts (name : string) (p : Process) (j : CronJob) :
  jobs p !! name = Some j ->
  cron_matches (cronTime j) (clock (world p)) = true ->
  tick name p
  = {| jobs := jobs p;
       invocations := invocations p ++ [{| job := name; rest := onTick j |}];
       world := world p |}.
Proof. intros Hj Hm. unfold tick. rewrite Hj, Hm. reflexivity. Qed.

(** X25.  The patterns of the three jobs are nested: at every instant that the
    daily cleanup pattern matches, the hourly analytics pattern and the
    minute dispatch pattern match too.  Once [start] has run, the three
    timers firing at such an instant start three invocations, one of each
    job, in the same world. *)
Theorem daily_tick_coincides_with_the_other_two (p : Process) :
  cron_matches (cronTime cleanupJob) (clock (world p)) = true ->
  cron_matches (cronTime analyticsJob) (clock (world p)) = true
  /\ cron_matches (cronTime postSchedulerJob) (clock (world p)) = true
  /\ invocations
       (happen_all [Tick "postScheduler"; Tick "analytics"; Tick "cleanup"]
          (start p))
     = invocations p
         ++ [ {| job := "postScheduler"; rest := processScheduledPosts |};
              {| job := "analytics"; rest := collectAnalytics |};
              {| job := "cleanup"; rest := cleanupOldData |} ]
  /\ world (happen_all [Tick "postScheduler"; Tick "analytics"; Tick "cleanup"]
              (start p))
     = world (start p).
Proof.
  intros Hday.
  assert (Hhour : cron_matches (cronTime analyticsJob) (clock (world p)) = true).
  { unfold cron_matches in *. cbn [cronTime cleanupJob analyticsJob cron_second
      cron_minute cron_hour field_matches] in *.
    apply andb_true_iff in Hday as [Hday _]. rewrite Hday. reflexivity. }
  assert (Hmin : cron_matches (cronTime postSchedulerJob) (clock (world p))
                 = true).
  { unfold cron_matches in *. cbn [cronTime analyticsJob postSchedulerJob
      cron_second cron_minute cron_hour field_matches] in *.
    apply andb_true_iff in Hhour as [Hhour _].
    apply andb_true_iff in Hhour as [Hhour _]. rewrite Hhour. reflexivity. }
  split; [exact Hhour |]. split; [exact Hmin |].
  destruct (start_registers p) as (Hp & Ha & Hc).
  change (happen_all [Tick "postScheduler"; Tick "analytics"; Tick "cleanup"]
            (start p))
    with (tick "cleanup" (tick "analytics" (tick "postScheduler" (start p)))).
  rewrite (tick_starts "postScheduler" (start p) postSchedulerJob Hp Hmin).
  erewrite (tick_starts "analytics" _ analyticsJob);
    [| exact Ha | exact Hhour].
  erewrite (tick_starts "cleanup" _ cleanupJob); [| exact Hc | exact Hday].
  cbn [invocations world onTick postSchedulerJob analyticsJob cleanupJob].
  rewrite <- !app_assoc. split; reflexivity.
Qed.

Lemma daily_tick_coincides_with_the_other_two_witness :
  length
    (invocations
       (happen_all [Tick "postScheduler"; Tick "analytics"; Tick "cleanup"]
          (start {| jobs := ∅; invocations := [];
                    world := stale_world calm |})))
  = 3%nat.
Proof.
  destruct (daily_tick_coincides_with_the_other_two
              {| jobs := ∅; invocations := []; world := stale_world calm |})
    as (_ & _ & Hinv & _).
  - vm_compute. reflexivity.
  - rewrite Hinv. reflexivity.
Defined.

End SchedulerJobsProperties.

Section RoutesProperties.

Import NotificationService.

(** ** The test route *)

(** X23.  [POST /test].  A body without a type, or without a non-empty title
    and message, is answered with 400 and nothing is sent to any store.
    A complete body is always answered with "Test notification created",
    whatever the stores do; the answer is the same when the lookup of the
    rule raised or the rule switches the type off, and then nothing was
    stored.  The handler never passes an error on to [next]. *)
Theorem test_route_always_reports_creation
    (uid : Z) (body : NotificationRoutes.TestBody) (w : World) :
  (complete body = false ->
   run (NotificationRoutes.post_test uid body) w
   = (Ok NotificationRoutes.required, w))
  /\ (complete body = true ->
      (run (NotificationRoutes.post_test uid body) w).1
      = Ok NotificationRoutes.created
      /\ forall n, notification_of uid body = Some n ->
           run (NotificationRoutes.post_test uid body) w
           = (Ok NotificationRoutes.created, (run (createNotification n) w).2)
           /\ (isEnabled (rule_rows n w) = false
               \/ db_fault (env w) (length (history w)) <> None ->
               db (run (NotificationRoutes.post_test uid body) w).2 = db w
               /\ redis (run (NotificationRoutes.post_test uid body) w).2
                  = redis w)).
Proof.
  unfold complete, notification_of, NotificationRoutes.post_test.
  destruct (NotificationRoutes.body_type body) as [ty |];
    [| split; [reflexivity | discriminate]].
  destruct (NotificationRoutes.body_title body) as [ttl |];
    [| split; [reflexivity | discriminate]].
  destruct (NotificationRoutes.body_message body) as [msg |];
    [| split; [reflexivity | discriminate]].
  destruct (String.eqb ttl ""); [split; [reflexivity | discriminate] |].
  destruct (String.eqb msg ""); [split; [reflexivity | discriminate] |].
  cbn [negb andb orb]. split; [discriminate | intros _].
  set (n := {| userId := uid; type := ty; title := ttl; message := msg;
               data := NotificationRoutes.body_data body; isRead := false |}).
  assert (Hrun : run (try_catch
                        (createNotification n;; Ret NotificationRoutes.created)
                        (fun error => Ret (NotificationRoutes.Next error))) w
                 = (Ok NotificationRoutes.created,
                    (run (createNotification n) w).2)).
  { rewrite run_try_catch, run_bind.
    pose proof (create_body_logged n w) as [Hok _].
    destruct (run (createNotification n) w) as [[[] | e] w'];
      [reflexivity | discriminate Hok]. }
  rewrite Hrun. split; [reflexivity |].
  intros n' Hn'. inversion Hn'; subst n'. split; [reflexivity |].
  cbn [snd]. intros [Hoff | Hdown].
  - apply create_disabled, Hoff.
  - destruct (db_fault (env w) (length (history w))) as [e |] eqn:E;
      [| contradiction].
    eapply create_lookup_fails, E.
Qed.

Lemma test_route_always_reports_creation_witness :
  run (NotificationRoutes.post_test 7 untitled_body) fresh_world
  = (Ok NotificationRoutes.required, fresh_world)
  /\ (run (NotificationRoutes.post_test 7 alert_body) world_without_postgres).1
     = Ok NotificationRoutes.created
  /\ db (run (NotificationRoutes.post_test 7 alert_body)
           world_without_postgres).2 = empty_db.
Proof.
  pose proof (test_route_always_reports_creation 7 untitled_body fresh_world)
    as [Hbad _].
  pose proof (test_route_always_reports_creation 7 alert_body
                world_without_postgres) as [_ Hgood].
  split; [apply Hbad; reflexivity |].
  destruct (Hgood eq_refl) as [Hok Hstored].
  split; [exact Hok |].
  destruct (Hstored _ eq_refl) as [_ Hnone].
  apply Hnone. right. discriminate.
Defined.

(** ** The error handler *)




End RoutesProperties.
